(** * sg-property-transactions: fetch, classify and store URA transactions

    A shallow embedding of [src/scrapers/ura_scraper.py], [src/db/db_client.py],
    [src/config.py] and [src/main.py].

    Python dictionaries whose key order the code relies on ([keys()],
    [values()]) are association lists in insertion order; the database tables
    are a finite map from table names to row lists.  Exceptions and the state
    that survives them are threaded by a small state-and-exception monad.
    Logging and the pauses ([time.sleep], the waits of the retry policy) have no
    effect on any value computed and are left out. *)

From stdpp Require Import gmap strings list fin_maps.
From Stdlib Require Import ZArith Lia Ascii.

Set Warnings "-register-all".


(** ** Python values, exceptions and effects *)

Module Py.

(** The objects the program handles: what [response.json()] can return, plus
    the integers and strings the scraper adds to a record.  A JSON number is
    kept as an integer; the program computes with none of them. *)
Inductive value : Type :=
  | VNone
  | VBool (b : bool)
  | VInt (n : Z)
  | VStr (s : string)
  | VList (l : list value)
  | VDict (kvs : list (string * value)).

(** The exception classes that occur.  [DbError] is [psycopg2.Error] and its
    subclasses; all of them are subclasses of [Exception]. *)
Inductive exn : Type :=
  | RequestException
  | RetryError
  | AttributeError
  | TypeError
  | ValueError
  | ZeroDivisionError
  | IndexError
  | DbError.

Inductive res (A : Type) : Type :=
  | Ok (a : A)
  | Raise (e : exn).
Arguments Ok {A} a.
Arguments Raise {A} e.

(** A computation over a state [S]: the state changes made before an exception
    is raised stay in place. *)
Definition M (S A : Type) : Type := S -> res A * S.

Definition ret {S A} (a : A) : M S A := fun s => (Ok a, s).

Definition bind {S A B} (m : M S A) (k : A -> M S B) : M S B :=
  fun s => match m s with
           | (Ok a, s') => k a s'
           | (Raise e, s') => (Raise e, s')
           end.

Definition raise {S A} (e : exn) : M S A := fun s => (Raise e, s).

(** [try: m  except <classes>: handler], the classes given by [catches]. *)
Definition try_except {S A} (m : M S A) (catches : exn -> bool)
    (handler : exn -> M S A) : M S A :=
  fun s => match m s with
           | (Ok a, s') => (Ok a, s')
           | (Raise e, s') => if catches e then handler e s' else (Raise e, s')
           end.

Definition lift_res {S A} (r : res A) : M S A := fun s => (r, s).

(** [except Exception], [except psycopg2.Error], [except ValueError]. *)
Definition is_Exception (e : exn) : bool := true.
Definition is_psycopg2_Error (e : exn) : bool :=
  match e with DbError => true | _ => false end.
Definition is_ValueError (e : exn) : bool :=
  match e with ValueError => true | _ => false end.

(** A [for] loop that appends to an accumulator. *)
Fixpoint for_each {S A B} (xs : list A) (body : A -> list B -> M S (list B))
    (acc : list B) : M S (list B) :=
  match xs with
  | [] => ret acc
  | x :: xs' => bind (body x acc) (fun acc' => for_each xs' body acc')
  end.

(** *** Dictionaries *)

Fixpoint assoc {A} (k : string) (kvs : list (string * A)) : option A :=
  match kvs with
  | [] => None
  | (k', v) :: rest => if String.eqb k k' then Some v else assoc k rest
  end.

Definition keys {A} (kvs : list (string * A)) : list string := map fst kvs.
Definition values {A} (kvs : list (string * A)) : list A := map snd kvs.

(** [d.get(k, dflt)] on a dictionary. *)
Definition dict_get (kvs : list (string * value)) (k : string) (dflt : value)
    : value :=
  match assoc k kvs with Some v => v | None => dflt end.

(** [obj.get(k, dflt)]: only dictionaries have the method. *)
Definition get (obj : value) (k : string) (dflt : value) : res value :=
  match obj with
  | VDict kvs => Ok (dict_get kvs k dflt)
  | _ => Raise AttributeError
  end.

(** *** Strings *)

Fixpoint is_prefix (p s : string) : bool :=
  match p, s with
  | EmptyString, _ => true
  | String a p', String b s' => if Ascii.eqb a b then is_prefix p' s' else false
  | String _ _, EmptyString => false
  end.

(** [needle in hay] on strings. *)
Fixpoint contains (needle hay : string) : bool :=
  is_prefix needle hay ||
  match hay with
  | EmptyString => false
  | String _ rest => contains needle rest
  end.

Fixpoint chars (s : string) : list value :=
  match s with
  | EmptyString => []
  | String a rest => VStr (String a EmptyString) :: chars rest
  end.

(** *** Truth value, membership, iteration *)

(** [bool(v)], as used by [not data]. *)
Definition truthy (v : value) : bool :=
  match v with
  | VNone => false
  | VBool b => b
  | VInt n => negb (n =? 0)%Z
  | VStr s => negb (String.eqb s "")
  | VList l => match l with [] => false | _ => true end
  | VDict kvs => match kvs with [] => false | _ => true end
  end.

Definition is_str (s : string) (v : value) : bool :=
  match v with VStr s' => String.eqb s s' | _ => false end.

(** [s in v] for a string [s]: a key of a dictionary, an element of a list,
    a substring of a string; other objects are not containers. *)
Definition str_in (s : string) (v : value) : res bool :=
  match v with
  | VDict kvs => Ok (match assoc s kvs with Some _ => true | None => false end)
  | VList l => Ok (existsb (is_str s) l)
  | VStr s' => Ok (contains s s')
  | _ => Raise TypeError
  end.

(** [for x in v]: a dictionary yields its keys, a string its characters. *)
Definition iter (v : value) : res (list value) :=
  match v with
  | VList l => Ok l
  | VDict kvs => Ok (map VStr (keys kvs))
  | VStr s => Ok (chars s)
  | _ => Raise TypeError
  end.

End Py.

Export Py.

Declare Scope py_scope.
Delimit Scope py_scope with py.
Notation "x <- m ;; k" := (bind m (fun x => k))
  (at level 100, m at next level, right associativity) : py_scope.
Local Open Scope py_scope.

(** ** The URA client ([src/scrapers/ura_scraper.py]) *)

Module Scraper.

(** What one [session.get] followed by [raise_for_status] and [json()] yields:
    a decoded body, or a failure (network error, timeout, error status,
    undecodable body). *)
Inductive http_outcome : Type :=
  | HttpFailure
  | HttpBody (body : value).

(** The client's view of the outside: the requests sent so far, as
    (service, batch) in sending order, and the number of clock readings. *)
Record net : Type := Net {
  requests : list (string * Z);
  clock_reads : nat
}.

(** A flat record: a dictionary literal, keys in the order written. *)
Abbreviation record := (list (string * value)) (only parsing).

(** The dictionary returned by [get_all_available_transactions], with its two
    fixed keys ['condo'] and ['landed']. *)
Record classified : Type := Classified {
  condo : list record;
  landed : list record
}.

Definition LANDED_TYPES : list string := ["DETACHED"; "TERRACE"; "BUNGALOW"].

Definition RECORD_KEYS : list string :=
  ["project_name"; "street"; "x_coordinate"; "y_coordinate";
   "area"; "floor_range"; "no_of_units"; "contract_date"; "type_of_sale";
   "price"; "property_type"; "district"; "type_of_area"; "tenure";
   "market_segment"; "batch"; "scraped_at"].

(** [@retry(stop=stop_after_attempt(n))]: call again after any exception; when
    the n-th attempt has failed too, [RetryError] is raised. *)
Fixpoint retrying {S A} (attempts : nat) (m : M S A) : M S A :=
  match attempts with
  | O => raise RetryError
  | S k => try_except m is_Exception (fun _ => retrying k m)
  end.

Section URAScraper.

(** [str.upper]. *)
Variable upper : string -> string.
(** The outcome of the GET that is sent after [n] earlier ones, for a service
    and a batch. *)
Variable send : nat -> string -> Z -> http_outcome.
(** [datetime.now().isoformat()] at the k-th reading of the clock. *)
Variable now : nat -> string.

Definition session_get (service : string) (batch : Z) : M net value :=
  fun w =>
    let w' := Net (requests w ++ [(service, batch)]) (clock_reads w) in
    match send (length (requests w)) service batch with
    | HttpFailure => (Raise RequestException, w')
    | HttpBody body => (Ok body, w')
    end.

(** The body of [_make_request] re-raises what [session.get] raised. *)
Definition _make_request (service : string) (batch : Z) : M net value :=
  retrying 3
    (try_except (session_get service batch) is_Exception (fun e => raise e)).

Definition now_isoformat : M net string :=
  fun w => (Ok (now (clock_reads w)), Net (requests w) (S (clock_reads w))).

Definition transaction_record (project_name street x_coord y_coord : value)
    (batch : Z) (transaction : value) : M net record :=
  area <- lift_res (get transaction "area" (VStr "")) ;;
  floor_range <- lift_res (get transaction "floorRange" (VStr "")) ;;
  no_of_units <- lift_res (get transaction "noOfUnits" (VStr "")) ;;
  contract_date <- lift_res (get transaction "contractDate" (VStr "")) ;;
  type_of_sale <- lift_res (get transaction "typeOfSale" (VStr "")) ;;
  price <- lift_res (get transaction "price" (VStr "")) ;;
  property_type <- lift_res (get transaction "propertyType" (VStr "")) ;;
  district <- lift_res (get transaction "district" (VStr "")) ;;
  type_of_area <- lift_res (get transaction "typeOfArea" (VStr "")) ;;
  tenure <- lift_res (get transaction "tenure" (VStr "")) ;;
  market_segment <- lift_res (get transaction "marketSegment" (VStr "")) ;;
  scraped_at <- now_isoformat ;;
  ret [("project_name", project_name);
       ("street", street);
       ("x_coordinate", x_coord);
       ("y_coordinate", y_coord);
       ("area", area);
       ("floor_range", floor_range);
       ("no_of_units", no_of_units);
       ("contract_date", contract_date);
       ("type_of_sale", type_of_sale);
       ("price", price);
       ("property_type", property_type);
       ("district", district);
       ("type_of_area", type_of_area);
       ("tenure", tenure);
       ("market_segment", market_segment);
       ("batch", VInt batch);
       ("scraped_at", VStr scraped_at)].

(** The body of [for project in result]. *)
Definition project_transactions (batch : Z) (project : value)
    (transactions : list record) : M net (list record) :=
  project_name <- lift_res (get project "project" (VStr "")) ;;
  street <- lift_res (get project "street" (VStr "")) ;;
  x_coord <- lift_res (get project "x" (VStr "")) ;;
  y_coord <- lift_res (get project "y" (VStr "")) ;;
  inner <- lift_res (get project "transaction" (VList [])) ;;
  inner_items <- lift_res (iter inner) ;;
  for_each inner_items
    (fun transaction acc =>
       rec <- transaction_record project_name street x_coord y_coord batch
                transaction ;;
       ret (acc ++ [rec]))
    transactions.

(** The [try] block of [get_private_residential_transactions]. *)
Definition fetch_and_flatten (batch : Z) : M net (list record) :=
  data <- _make_request "PMI_Resi_Transaction" batch ;;
  if negb (truthy data) then ret []
  else
    present <- lift_res (str_in "Result" data) ;;
    if negb present then ret []
    else
      result <- lift_res (get data "Result" (VList [])) ;;
      projects <- lift_res (iter result) ;;
      for_each projects (project_transactions batch) [].

Definition get_private_residential_transactions (batch : Z)
    : M net (list record) :=
  try_except (fetch_and_flatten batch) is_Exception (fun _ => ret []).

(** [s.upper()]: only strings have the method. *)
Definition str_upper (v : value) : res string :=
  match v with
  | VStr s => Ok (upper s)
  | _ => Raise AttributeError
  end.

(** [any(landed_type in property_type for landed_type in [...])]. *)
Definition any_landed_type (property_type : string) : bool :=
  existsb (fun landed_type => contains landed_type property_type) LANDED_TYPES.

(** The loop [for txn in all_transactions] with its two accumulators. *)
Fixpoint separate (all_transactions condo_transactions landed_transactions
    : list record) : res classified :=
  match all_transactions with
  | [] => Ok (Classified condo_transactions landed_transactions)
  | txn :: rest =>
      match str_upper (dict_get txn "property_type" (VStr "")) with
      | Raise e => Raise e
      | Ok property_type =>
          if any_landed_type property_type
          then separate rest condo_transactions (landed_transactions ++ [txn])
          else separate rest (condo_transactions ++ [txn]) landed_transactions
      end
  end.

(** The loop [for batch in range(1, 5)]. *)
Definition fetch_batches (batches : list Z) : M net (list record) :=
  for_each batches
    (fun batch acc =>
       transactions <- get_private_residential_transactions batch ;;
       ret (acc ++ transactions))
    [].

Definition get_all_available_transactions : M net classified :=
  all_transactions <- fetch_batches [1; 2; 3; 4]%Z ;;
  lift_res (separate all_transactions [] []).

Definition rental_record (project_name street x_coord y_coord : value)
    (batch : Z) (rental : value) : M net record :=
  area_sqm <- lift_res (get rental "areaSqm" (VStr "")) ;;
  rent <- lift_res (get rental "rent" (VStr "")) ;;
  lease_date <- lift_res (get rental "leaseDate" (VStr "")) ;;
  property_type <- lift_res (get rental "propertyType" (VStr "")) ;;
  district <- lift_res (get rental "district" (VStr "")) ;;
  scraped_at <- now_isoformat ;;
  ret [("project_name", project_name);
       ("street", street);
       ("x_coordinate", x_coord);
       ("y_coordinate", y_coord);
       ("area_sqm", area_sqm);
       ("rent", rent);
       ("lease_date", lease_date);
       ("property_type", property_type);
       ("district", district);
       ("batch", VInt batch);
       ("scraped_at", VStr scraped_at)].

Definition project_rentals (batch : Z) (project : value)
    (rentals : list record) : M net (list record) :=
  project_name <- lift_res (get project "project" (VStr "")) ;;
  street <- lift_res (get project "street" (VStr "")) ;;
  x_coord <- lift_res (get project "x" (VStr "")) ;;
  y_coord <- lift_res (get project "y" (VStr "")) ;;
  inner <- lift_res (get project "rental" (VList [])) ;;
  inner_items <- lift_res (iter inner) ;;
  for_each inner_items
    (fun rental acc =>
       rec <- rental_record project_name street x_coord y_coord batch rental ;;
       ret (acc ++ [rec]))
    rentals.

Definition get_rental_transactions (batch : Z) : M net (list record) :=
  try_except
    (data <- _make_request "PMI_Resi_Rental" batch ;;
     if negb (truthy data) then ret []
     else
       present <- lift_res (str_in "Result" data) ;;
       if negb present then ret []
       else
         result <- lift_res (get data "Result" (VList [])) ;;
         projects <- lift_res (iter result) ;;
         for_each projects (project_rentals batch) [])
    is_Exception (fun _ => ret []).

End URAScraper.

End Scraper.

(** ** The PostgreSQL client ([src/db/db_client.py]) *)

Module Db.

(** A stored row: column name and value, for the columns the INSERT named.
    A column it did not name holds NULL ([VNone]). *)
Abbreviation row := (list (string * value)) (only parsing).

(** Table name to rows, in insertion order.  A name without entry is a table
    that does not exist. *)
Abbreviation store := (gmap string (list (list (string * value)))) (only parsing).

(** What the deployment's schema says about one table. *)
Record table_schema : Type := TableSchema {
  (** the table has this column *)
  has_column : string -> bool;
  (** the row names existing columns and passes the types and checks *)
  accepts : row -> bool;
  (** the two rows collide on a uniqueness constraint *)
  conflicts : row -> row -> bool
}.

(** The calls made on the connection and its cursors. *)
Inductive api_call : Type :=
  | CallCursor
  | CallExecuteBatch (table : string) (columns : list string)
      (argslist : list (list value))
  | CallSelectLatest (table column : string)
  | CallSelectCount (table : string)
  | CallCommit
  | CallRollback
  | CallCursorClose
  | CallClose.

(** A connection with [autocommit = False]: statements work on the
    transaction's view [working]; [commit] makes it durable, [rollback]
    discards it.  After a failed statement the transaction is [aborted] and
    every statement fails until the rollback. *)
Record connection : Type := Connection {
  committed : store;
  working : store;
  aborted : bool;
  closed : bool;
  calls : list api_call
}.

Definition log (call : api_call) (c : connection) : connection :=
  Connection (committed c) (working c) (aborted c) (closed c) (calls c ++ [call]).

Definition set_working (w : store) (c : connection) : connection :=
  Connection (committed c) w (aborted c) (closed c) (calls c).

Definition set_aborted (c : connection) : connection :=
  Connection (committed c) (working c) true (closed c) (calls c).

(** [psycopg2.connect(url)] on a server holding [s]. *)
Definition connect (s : store) : connection := Connection s s false false [].

(** Consecutive slices of [n] elements, the last one shorter. *)
Fixpoint slices {A} (fuel n : nat) (l : list A) : list (list A) :=
  match fuel with
  | O => []
  | S fuel' =>
      match l with
      | [] => []
      | _ => take n l :: slices fuel' n (drop n l)
      end
  end.

(** [psycopg2.extras._paginate(seq, page_size)]. *)
Definition paginate {A} (page_size : nat) (seq : list A) : list (list A) :=
  slices (length seq) page_size seq.

(** Adaptation of a Python object to SQL: there is no adapter for a
    dictionary; a list becomes an array of its adapted elements.  Strings are
    taken to hold no NUL character, which the adapter would refuse. *)
Fixpoint adaptable (v : value) : bool :=
  match v with
  | VDict _ => false
  | VList l => forallb adaptable l
  | _ => true
  end.

(** [cursor.mogrify(query, args)] for a query with that many [%s]: each
    placeholder takes the next argument and adapts it; arguments left over
    fail the formatting. *)
Fixpoint mogrify (placeholders : nat) (args : list value) : res unit :=
  match placeholders, args with
  | O, [] => Ok tt
  | O, _ :: _ => Raise TypeError
  | S _, [] => Raise IndexError
  | S k, a :: rest => if adaptable a then mogrify k rest else Raise DbError
  end.

Fixpoint mogrify_all (placeholders : nat) (page : list (list value))
    : res unit :=
  match page with
  | [] => Ok tt
  | args :: rest =>
      match mogrify placeholders args with
      | Ok _ => mogrify_all placeholders rest
      | Raise e => Raise e
      end
  end.

(** The largest element first, for [ORDER BY ... DESC]. *)
Fixpoint insert_desc (le : value -> value -> bool) (v : value)
    (sorted : list value) : list value :=
  match sorted with
  | [] => [v]
  | w :: rest => if le w v then v :: sorted else w :: insert_desc le v rest
  end.

Definition sort_desc (le : value -> value -> bool) (l : list value)
    : list value :=
  foldr (insert_desc le) [] l.

Section DatabaseClient.

Variable schema : string -> table_schema.
(** The order [ORDER BY] sorts a column's values by. *)
Variable order_le : value -> value -> bool.

(** [self.conn.cursor()]. *)
Definition cursor : M connection unit :=
  fun c => if closed c then (Raise DbError, c) else (Ok tt, log CallCursor c).

Definition cursor_close : M connection unit :=
  fun c => (Ok tt, log CallCursorClose c).

(** [self.conn.commit()]: an aborted transaction is ended without effect. *)
Definition commit : M connection unit :=
  fun c =>
    if closed c then (Raise DbError, c)
    else if aborted c
    then (Ok tt, Connection (committed c) (committed c) false false
                   (calls c ++ [CallCommit]))
    else (Ok tt, Connection (working c) (working c) false false
                   (calls c ++ [CallCommit])).

(** [self.conn.rollback()]. *)
Definition rollback : M connection unit :=
  fun c =>
    if closed c then (Raise DbError, c)
    else (Ok tt, Connection (committed c) (committed c) false false
                   (calls c ++ [CallRollback])).

(** [close]: [self.conn] is set by [connect], so the test [if self.conn]
    holds; what was not committed is lost. *)
Definition close : M connection unit :=
  fun c => (Ok tt, Connection (committed c) (committed c) false true
                     (calls c ++ [CallClose])).

(** One [INSERT INTO table (columns) VALUES (...) ON CONFLICT DO NOTHING];
    the result is the statement's row count. *)
Definition insert_or_skip (table : string) (r : row) : M connection Z :=
  fun c =>
    if closed c || aborted c then (Raise DbError, c)
    else
      match working c !! table with
      | None => (Raise DbError, set_aborted c)
      | Some rows =>
          if negb (accepts (schema table) r) then (Raise DbError, set_aborted c)
          else if existsb (conflicts (schema table) r) rows then (Ok 0%Z, c)
          else (Ok 1%Z, set_working (<[table := rows ++ [r]]> (working c)) c)
      end.

(** One [cursor.execute] of statements joined by [;]: they run in order and
    the cursor's [rowcount] is that of the last one. *)
Fixpoint execute_statements (table : string) (rows : list row) (rowcount : Z)
    : M connection Z :=
  match rows with
  | [] => ret rowcount
  | r :: rest =>
      n <- insert_or_skip table r ;;
      execute_statements table rest n
  end.

Definition execute_page (table : string) (columns : list string)
    (page : list (list value)) (rowcount : Z) : M connection Z :=
  _ <- lift_res (mogrify_all (length columns) page) ;;
  execute_statements table (map (combine columns) page) rowcount.

Fixpoint execute_pages (table : string) (columns : list string)
    (pages : list (list (list value))) (rowcount : Z) : M connection Z :=
  match pages with
  | [] => ret rowcount
  | page :: rest =>
      n <- execute_page table columns page rowcount ;;
      execute_pages table columns rest n
  end.

(** [psycopg2.extras.execute_batch(cursor, query, argslist)] with its default
    [page_size=100], followed by the reading of [cursor.rowcount]: the row
    count of the last statement run, not a total. *)
Definition execute_batch (table : string) (columns : list string)
    (argslist : list (list value)) : M connection Z :=
  fun c =>
    execute_pages table columns (paginate 100 argslist) (-1)%Z
      (log (CallExecuteBatch table columns argslist) c).

(** [range(0, stop, step)]; [step] is not 0 where it is called. *)
Definition range_step (stop : nat) (step : Z) : list nat :=
  if (step <=? 0)%Z then []
  else map (fun k => k * Z.to_nat step)
           (seq 0 ((stop + Z.to_nat step - 1) / Z.to_nat step)).

(** The [try] block of the loop body, for the slice [batch]. *)
Definition insert_chunk (table_name : string) (batch : list row)
    (total_inserted : Z) : M connection Z :=
  match batch with
  | [] => ret total_inserted
  | first :: _ =>
      inserted_count <- execute_batch table_name (keys first)
                          (map values batch) ;;
      _ <- commit ;;
      ret (total_inserted + inserted_count)%Z
  end.

(** The loop [for i in range(0, len(transactions), batch_size)]. *)
Fixpoint insert_chunks (table_name : string) (transactions : list row)
    (batch_size : Z) (offsets : list nat) (total_inserted : Z)
    : M connection Z :=
  match offsets with
  | [] => ret total_inserted
  | i :: rest =>
      total <- try_except
                 (insert_chunk table_name
                    (take (Z.to_nat batch_size) (drop i transactions))
                    total_inserted)
                 is_psycopg2_Error
                 (fun _ => _ <- rollback ;; ret total_inserted) ;;
      insert_chunks table_name transactions batch_size rest total
  end.

Definition insert_transactions (table_name : string)
    (transactions : list row) (batch_size : Z) : M connection Z :=
  match transactions with
  | [] => ret 0%Z
  | _ =>
      if (batch_size =? 0)%Z then raise ZeroDivisionError
      else
        _ <- cursor ;;
        total_inserted <-
          insert_chunks table_name transactions batch_size
            (range_step (length transactions) batch_size) 0%Z ;;
        _ <- cursor_close ;;
        ret total_inserted
  end.

(** [SELECT column FROM table ORDER BY column DESC LIMIT 1] and [fetchone()]:
    the first row of the result, if there is one. *)
Definition select_latest (table column : string)
    : M connection (option value) :=
  fun c =>
    let c := log (CallSelectLatest table column) c in
    if closed c || aborted c then (Raise DbError, c)
    else
      match working c !! table with
      | None => (Raise DbError, set_aborted c)
      | Some rows =>
          if negb (has_column (schema table) column)
          then (Raise DbError, set_aborted c)
          else (Ok (head (sort_desc order_le
                            (map (fun r => dict_get r column VNone) rows))), c)
      end.

(** The value returned is [result[0]], [VNone] standing for Python's [None]. *)
Definition get_latest_transaction_date (table_name date_column : string)
    : M connection value :=
  try_except
    (_ <- cursor ;;
     result <- select_latest table_name date_column ;;
     _ <- cursor_close ;;
     match result with
     | Some latest_date => ret latest_date
     | None => ret VNone
     end)
    is_psycopg2_Error (fun _ => ret VNone).

(** [SELECT COUNT( * ) FROM table] and [fetchone()]. *)
Definition select_count (table : string) : M connection (option Z) :=
  fun c =>
    let c := log (CallSelectCount table) c in
    if closed c || aborted c then (Raise DbError, c)
    else
      match working c !! table with
      | None => (Raise DbError, set_aborted c)
      | Some rows => (Ok (Some (Z.of_nat (length rows))), c)
      end.

Definition get_transaction_count (table_name : string) : M connection Z :=
  try_except
    (_ <- cursor ;;
     result <- select_count table_name ;;
     _ <- cursor_close ;;
     match result with
     | Some count => ret count
     | None => ret 0%Z
     end)
    is_psycopg2_Error (fun _ => ret 0%Z).

End DatabaseClient.

End Db.

(** ** Configuration and the top-level run ([src/config.py], [src/main.py]) *)

Module Main.

Import Scraper Db.

(** The two settings read from the environment; [None] when unset. *)
Record Config : Type := MkConfig {
  DATABASE_URL : option string;
  URA_ACCESS_KEY : option string
}.

Definition CONDO_TABLE : string := "condo_transactions".
Definition LANDED_TABLE : string := "landed_transactions".

(** The namespace [parser.parse_args()] returns: [--include-rentals] and
    [--stats-only]. *)
Record Args : Type := MkArgs {
  include_rentals : bool;
  stats_only : bool
}.

(** [not var_value] for a setting: unset or empty. *)
Definition unset (var_value : option string) : bool :=
  match var_value with
  | None => true
  | Some s => String.eqb s ""
  end.

(** [Config.validate()]. *)
Definition validate (cfg : Config) : res unit :=
  let required_vars :=
    [("DATABASE_URL", DATABASE_URL cfg); ("URA_ACCESS_KEY", URA_ACCESS_KEY cfg)] in
  let missing := map fst (filter (fun p => unset (snd p)) required_vars) in
  match missing with
  | [] => Ok tt
  | _ => Raise ValueError
  end.

(** The state of a run: the client's requests and clock readings, and the
    database connection once [DatabaseClient] has made it. *)
Record world : Type := World {
  net_of : net;
  db_client : option connection
}.

Definition on_net {A} (m : M net A) : M world A :=
  fun w => let (r, n) := m (net_of w) in (r, World n (db_client w)).

(** A method of the [DatabaseClient]; without one, the name is unbound. *)
Definition on_db {A} (m : M connection A) : M world A :=
  fun w =>
    match db_client w with
    | Some c => let (r, c') := m c in (r, World (net_of w) (Some c'))
    | None => (Raise AttributeError, w)
    end.

Section Run.

Variable upper : string -> string.
Variable send : nat -> string -> Z -> http_outcome.
Variable now : nat -> string.
Variable schema : string -> table_schema.
Variable order_le : value -> value -> bool.
(** The tables [psycopg2.connect] finds, or [None] when it cannot connect. *)
Variable server : option store.

(** [DatabaseClient(database_url)]: [connect] re-raises the failure. *)
Definition DatabaseClient : M world unit :=
  fun w =>
    match server with
    | Some s => (Ok tt, World (net_of w) (Some (connect s)))
    | None => (Raise DbError, w)
    end.

Definition store_if_any (table_name : string) (txns : list record)
    : M world unit :=
  match txns with
  | [] => ret tt
  | _ => _ <- on_db (insert_transactions schema table_name txns 1000) ;; ret tt
  end.

Definition fetch_rentals : M world (list record) :=
  for_each [1; 2; 3; 4]%Z
    (fun batch acc =>
       rentals <- on_net (get_rental_transactions send now batch) ;;
       ret (acc ++ rentals))
    [].

Definition scrape_and_store_ura_data (with_rentals : bool) : M world unit :=
  try_except
    (data <- on_net (get_all_available_transactions upper send now) ;;
     _ <- store_if_any CONDO_TABLE (condo data) ;;
     _ <- store_if_any LANDED_TABLE (landed data) ;;
     if with_rentals then _ <- fetch_rentals ;; ret tt else ret tt)
    is_Exception (fun e => raise e).

Definition show_statistics : M world unit :=
  try_except
    (_ <- on_db (get_transaction_count CONDO_TABLE) ;;
     _ <- on_db (get_latest_transaction_date schema order_le CONDO_TABLE
                   "contract_date") ;;
     _ <- on_db (get_transaction_count LANDED_TABLE) ;;
     _ <- on_db (get_latest_transaction_date schema order_le LANDED_TABLE
                   "contract_date") ;;
     ret tt)
    is_Exception (fun _ => ret tt).

(** [main()] from its [try] on, with the arguments parsed: the value is the
    exit code.  The call [parser.parse_args()] before the [try], which leaves
    with SystemExit on [--help] or an option it does not know, is not part of
    it. *)
Definition main (cfg : Config) (args : Args) : M world Z :=
  try_except
    (_ <- lift_res (validate cfg) ;;
     _ <- DatabaseClient ;;
     _ <- (if stats_only args then show_statistics
           else
             _ <- scrape_and_store_ura_data (include_rentals args) ;;
             show_statistics) ;;
     _ <- on_db close ;;
     ret 0%Z)
    is_Exception
    (fun e => if is_ValueError e then ret 1%Z else ret 1%Z).

End Run.

(** Whether a run ended with its connection released. *)
Definition released (w : world) : bool :=
  match db_client w with
  | Some c => closed c
  | None => true
  end.

End Main.

(** ** Derived notions used by the statements *)

Module Notions.

Import Scraper Db.

(** The text of a record's [property_type]: the field's string, the empty
    string when the key is absent; [None] when the value is no string. *)
Definition property_type_text (txn : record) : option string :=
  match dict_get txn "property_type" (VStr "") with
  | VStr s => Some s
  | _ => None
  end.

(** The uppercased property type contains a landed type. *)
Definition routes_to_landed (upper : string -> string) (txn : record) : bool :=
  match property_type_text txn with
  | Some s => any_landed_type (upper s)
  | None => false
  end.

(** Source key and record key of the project fields and of the transaction
    fields, as the dictionary literal pairs them. *)
Definition PROJECT_FIELDS : list (string * string) :=
  [("project", "project_name"); ("street", "street");
   ("x", "x_coordinate"); ("y", "y_coordinate")].

Definition TRANSACTION_FIELDS : list (string * string) :=
  [("area", "area"); ("floorRange", "floor_range");
   ("noOfUnits", "no_of_units"); ("contractDate", "contract_date");
   ("typeOfSale", "type_of_sale"); ("price", "price");
   ("propertyType", "property_type"); ("district", "district");
   ("typeOfArea", "type_of_area"); ("tenure", "tenure");
   ("marketSegment", "market_segment")].

Definition is_dict (v : value) : Prop := exists kvs, v = VDict kvs.

(** The transaction objects of a project of the response. *)
Definition transactions_of (project : value) : list value :=
  match project with
  | VDict p =>
      match dict_get p "transaction" (VList []) with
      | VList l => l
      | _ => []
      end
  | _ => []
  end.

(** A project of the shape the API documents: an object whose [transaction],
    when present, is a list of objects. *)
Definition is_project (project : value) : Prop :=
  exists p l,
    project = VDict p /\
    dict_get p "transaction" (VList []) = VList l /\
    Forall is_dict l.

(** The flat record [rec] carries the fields of [project] and [transaction]:
    each record key holds the value of its source key, and the empty string
    when the source lacks the key. *)
Definition carries (project transaction : value) (batch : Z) (rec : record)
    : Prop :=
  keys rec = RECORD_KEYS /\
  (forall src dst, In (src, dst) PROJECT_FIELDS ->
     exists p, project = VDict p /\
       assoc dst rec = Some (dict_get p src (VStr "")) /\
       (assoc src p = None -> assoc dst rec = Some (VStr ""))) /\
  (forall src dst, In (src, dst) TRANSACTION_FIELDS ->
     exists t, transaction = VDict t /\
       assoc dst rec = Some (dict_get t src (VStr "")) /\
       (assoc src t = None -> assoc dst rec = Some (VStr ""))) /\
  assoc "batch" rec = Some (VInt batch).

(** [rec] is a record that some call of the single-batch fetch returns. *)
Definition fetched (send : nat -> string -> Z -> http_outcome)
    (now : nat -> string) (rec : record) : Prop :=
  exists batch w recs w',
    get_private_residential_transactions send now batch w = (Ok recs, w') /\
    In rec recs.

(** [k] more requests sent for a service and a batch. *)
Definition sent (k : nat) (service : string) (batch : Z) (w : net) : net :=
  Net (requests w ++ repeat (service, batch) k) (clock_reads w).

(** A record of the literal's keys, tagged with the batch it came from. *)
Definition from_batch (batch : Z) (rec : record) : Prop :=
  keys rec = RECORD_KEYS /\ assoc "batch" rec = Some (VInt batch).

(** The clock read [k] more times. *)
Definition ticked (k : nat) (w : net) : net :=
  Net (requests w) (k + clock_reads w).

(** Statements touch neither the durable tables nor the call log, and do not
    close the connection. *)
Definition steady (c c' : connection) : Prop :=
  closed c' = closed c /\ committed c' = committed c /\ calls c' = calls c.

(** The only exception a computation raises is a database error. *)
Definition db_only {A} (r : res A) : Prop :=
  match r with
  | Ok _ => True
  | Raise e => e = DbError
  end.

(** The table after insert-or-skip statements for [rows], and the row count
    of the last of them ([rowcount] when there is none). *)
Fixpoint absorb (schema : string -> table_schema) (table : string)
    (stored : list row) (rowcount : Z) (rows : list row) : list row * Z :=
  match rows with
  | [] => (stored, rowcount)
  | r :: rest =>
      if existsb (conflicts (schema table) r) stored
      then absorb schema table stored 0%Z rest
      else absorb schema table (stored ++ [r]) 1%Z rest
  end.

(** A record the table takes without error: it has the columns [columns],
    its values can be adapted, and the schema accepts it. *)
Definition storable (schema : string -> table_schema) (table : string)
    (columns : list string) (r : row) : Prop :=
  keys r = columns /\
  forallb adaptable (values r) = true /\
  accepts (schema table) r = true.

(** The calls that end a transaction. *)
Definition ends_transaction (call : api_call) : bool :=
  match call with
  | CallCommit | CallRollback => true
  | _ => false
  end.

(** The consecutive chunks of at most [n] records. *)
Definition chunks_of {A} (n : nat) (l : list A) : list (list A) :=
  slices (length l) n l.

(** The sum of the counts of the chunks that were inserted; a chunk that
    failed has no count. *)
Definition inserted_total (outcomes : list (option Z)) : Z :=
  foldr (fun outcome acc =>
           match outcome with
           | Some inserted_count => (inserted_count + acc)%Z
           | None => acc
           end)
        0%Z outcomes.

(** Chunk by chunk: [processed schema table c chunks outcomes c'] says that,
    starting on connection [c], every chunk is sent in turn; a chunk whose
    batch succeeds is committed and has its count as outcome; a chunk whose
    batch raises a database error is rolled back, the tables being as before
    the chunk, has no outcome, and the next chunk follows all the same. *)
Inductive processed (schema : string -> table_schema) (table : string)
    : connection -> list (list row) -> list (option Z) -> connection -> Prop :=
  | processed_done (c : connection) :
      processed schema table c [] [] c
  | processed_inserted (c c1 c2 c3 : connection) (first : row)
      (others : list row) (inserted_count : Z) (rest : list (list row))
      (outcomes : list (option Z)) :
      execute_batch schema table (keys first) (map values (first :: others)) c
      = (Ok inserted_count, c1) ->
      commit c1 = (Ok tt, c2) ->
      processed schema table c2 rest outcomes c3 ->
      processed schema table c ((first :: others) :: rest)
        (Some inserted_count :: outcomes) c3
  | processed_rolled_back (c c1 c2 c3 : connection) (first : row)
      (others : list row) (rest : list (list row))
      (outcomes : list (option Z)) :
      execute_batch schema table (keys first) (map values (first :: others)) c
      = (Raise DbError, c1) ->
      rollback c1 = (Ok tt, c2) ->
      committed c2 = committed c ->
      working c2 = committed c ->
      processed schema table c2 rest outcomes c3 ->
      processed schema table c ((first :: others) :: rest)
        (None :: outcomes) c3.

(** [grows schema table w w']: the tables [w'] are the tables [w] after some
    insert-or-skip statements on [table] stored their row: each has appended
    one row that the schema accepts and that collided with no row stored
    before it. *)
Inductive grows (schema : string -> table_schema) (table : string)
    : store -> store -> Prop :=
  | grows_refl (w : store) : grows schema table w w
  | grows_step (w w' : store) (rows : list row) (r : row) :
      w !! table = Some rows ->
      accepts (schema table) r = true ->
      existsb (conflicts (schema table) r) rows = false ->
      grows schema table (<[table := rows ++ [r]]> w) w' ->
      grows schema table w w'.

(** The statements of a batch change the transaction's view by [grows] and
    leave the durable tables and the connection's being open as they are. *)
Definition advances (schema : string -> table_schema) (table : string)
    (c c' : connection) : Prop :=
  grows schema table (working c) (working c') /\
  committed c' = committed c /\
  closed c' = closed c.

(** No row of the table collides with a row stored before it. *)
Definition conflict_free (schema : string -> table_schema) (table : string)
    (rows : list row) : Prop :=
  forall before r after,
    rows = before ++ r :: after ->
    existsb (conflicts (schema table) r) before = false.

(** The call is not a batch of inserts. *)
Definition no_batch (call : api_call) : bool :=
  match call with
  | CallExecuteBatch _ _ _ => false
  | _ => true
  end.

(** The keys of a rental record, in the order of its dictionary literal. *)
Definition RENTAL_KEYS : list string :=
  ["project_name"; "street"; "x_coordinate"; "y_coordinate";
   "area_sqm"; "rent"; "lease_date"; "property_type"; "district";
   "batch"; "scraped_at"].

End Notions.

(** ** Concrete inputs *)

Module Samples.

Import Scraper Db Main Notions.

(** [str.upper] on ASCII text. *)
Definition upper_char (a : ascii) : ascii :=
  let n := nat_of_ascii a in
  if (97 <=? n)%nat && (n <=? 122)%nat then ascii_of_nat (n - 32) else a.

Fixpoint ascii_upper (s : string) : string :=
  match s with
  | EmptyString => EmptyString
  | String a rest => String (upper_char a) (ascii_upper rest)
  end.

Definition clock0 (k : nat) : string := "2024-07-01T00:00:00".

Definition net0 : net := Net [] 0.

Definition txn_of_type (property_type : string) : record :=
  [("project_name", VStr "Skyline"); ("property_type", VStr property_type)].

(** A response with one project and one transaction. *)
Definition skyline_transaction : value :=
  VDict [("area", VStr "90"); ("contractDate", VStr "20240115");
         ("price", VStr "1800000"); ("propertyType", VStr "Condominium")].

Definition skyline_project : value :=
  VDict [("project", VStr "Skyline"); ("street", VStr "Orchard Rd");
         ("x", VStr "123"); ("y", VStr "456");
         ("transaction", VList [skyline_transaction])].

Definition skyline_body : list (string * value) :=
  [("Result", VList [skyline_project])].

Definition send_skyline (n : nat) (service : string) (batch : Z)
    : http_outcome :=
  HttpBody (VDict skyline_body).

(** Every request fails. *)
Definition send_failing (n : nat) (service : string) (batch : Z)
    : http_outcome :=
  HttpFailure.

Definition mixed_transactions : list record :=
  [txn_of_type "Semi-Detached House"; txn_of_type "Condominium";
   txn_of_type "Terrace House"; [("project_name", VStr "Untyped")]].

(** The record that response is flattened into, for batch 1. *)
Definition skyline_record : record :=
  [("project_name", VStr "Skyline"); ("street", VStr "Orchard Rd");
   ("x_coordinate", VStr "123"); ("y_coordinate", VStr "456");
   ("area", VStr "90"); ("floor_range", VStr ""); ("no_of_units", VStr "");
   ("contract_date", VStr "20240115"); ("type_of_sale", VStr "");
   ("price", VStr "1800000"); ("property_type", VStr "Condominium");
   ("district", VStr ""); ("type_of_area", VStr ""); ("tenure", VStr "");
   ("market_segment", VStr ""); ("batch", VInt 1);
   ("scraped_at", VStr "2024-07-01T00:00:00")].

(** The order of a text column: strings by their characters, NULL above
    every string, as PostgreSQL sorts it. *)
Definition text_le (a b : value) : bool :=
  match b with
  | VNone => true
  | VStr t =>
      match a with
      | VStr s => String.leb s t
      | VNone => false
      | _ => true
      end
  | _ =>
      match a with
      | VNone | VStr _ => false
      | _ => true
      end
  end.

(** A table without checks, unique on project, contract date and price. *)
Definition natural_key (r : row) : list (option string) :=
  map (fun column =>
         match assoc column r with
         | Some (VStr s) => Some s
         | _ => None
         end)
      ["project_name"; "contract_date"; "price"].

Definition same_key (r1 r2 : row) : bool :=
  bool_decide (natural_key r1 = natural_key r2).

Definition plain_schema (table : string) : table_schema :=
  TableSchema (fun _ => true) (fun _ => true) same_key.

Definition dated (d : string) : row := [("contract_date", VStr d)].

Definition dated_table : store :=
  {[ "condo_transactions" :=
       [dated "2023-01-01"; dated "2024-06-15"; dated "2023-11-02"] ]}.

Definition empty_tables : store :=
  {[ "condo_transactions" := []; "landed_transactions" := [] ]}.

(** A second record, of another project. *)
Definition parkview_record : record :=
  [("project_name", VStr "Parkview"); ("street", VStr "Bishan St");
   ("x_coordinate", VStr "321"); ("y_coordinate", VStr "654");
   ("area", VStr "120"); ("floor_range", VStr "06-10"); ("no_of_units", VStr "1");
   ("contract_date", VStr "20240220"); ("type_of_sale", VStr "3");
   ("price", VStr "2100000"); ("property_type", VStr "Terrace House");
   ("district", VStr "20"); ("type_of_area", VStr "Land"); ("tenure", VStr "Freehold");
   ("market_segment", VStr "OCR"); ("batch", VInt 1);
   ("scraped_at", VStr "2024-07-01T00:00:00")].

Definition two_records : list record := [skyline_record; parkview_record].

(** A record whose price is empty, and a table whose price column rejects
    the empty string. *)
Definition unpriced_record : record :=
  [("project_name", VStr "Hillcrest"); ("street", VStr "Dunearn Rd");
   ("x_coordinate", VStr "111"); ("y_coordinate", VStr "222");
   ("area", VStr "75"); ("floor_range", VStr ""); ("no_of_units", VStr "");
   ("contract_date", VStr "20240305"); ("type_of_sale", VStr "");
   ("price", VStr ""); ("property_type", VStr "Apartment");
   ("district", VStr ""); ("type_of_area", VStr ""); ("tenure", VStr "");
   ("market_segment", VStr ""); ("batch", VInt 1);
   ("scraped_at", VStr "2024-07-01T00:00:00")].

Definition priced (r : row) : bool :=
  match assoc "price" r with
  | Some (VStr s) => negb (String.eqb s "")
  | _ => false
  end.

Definition strict_schema (table : string) : table_schema :=
  TableSchema (fun _ => true) priced same_key.

Definition three_records : list record :=
  [skyline_record; unpriced_record; parkview_record].

(** A response whose transaction has a null [propertyType]. *)
Definition untyped_body : value :=
  VDict [("Result",
          VList [VDict [("project", VStr "Skyline");
                        ("transaction",
                         VList [VDict [("price", VStr "1800000");
                                       ("propertyType", VNone)]])]])].

Definition send_untyped (n : nat) (service : string) (batch : Z)
    : http_outcome :=
  HttpBody untyped_body.

Definition config_ok : Config :=
  MkConfig (Some "postgresql://localhost/property") (Some "access-key").

Definition config_no_key : Config :=
  MkConfig (Some "postgresql://localhost/property") None.

Definition args_default : Args := MkArgs false false.

Definition world0 : world := World net0 None.

(** The first request fails, the later ones succeed. *)
Definition send_flaky (n : nat) (service : string) (batch : Z)
    : http_outcome :=
  match n with
  | O => HttpFailure
  | S _ => HttpBody (VDict skyline_body)
  end.

(** An empty object as response. *)
Definition send_empty (n : nat) (service : string) (batch : Z)
    : http_outcome :=
  HttpBody (VDict []).

(** A response whose second project is a string. *)
Definition malformed_body : list (string * value) :=
  [("Result", VList [skyline_project; VStr "oops"])].

Definition send_malformed (n : nat) (service : string) (batch : Z)
    : http_outcome :=
  HttpBody (VDict malformed_body).

Definition args_stats_only : Args := MkArgs false true.

(** Records of which the second has [None] as [property_type]. *)
Definition untyped_among_typed : list record :=
  [txn_of_type "Condominium";
   [("project_name", VStr "Skyline"); ("property_type", VNone)];
   txn_of_type "Terrace House"].

(** A response with two projects, of one and of two transactions; the first
    transaction of the second project is flattened into [parkview_record]. *)
Definition parkview_transaction : value :=
  VDict [("area", VStr "120"); ("floorRange", VStr "06-10");
         ("noOfUnits", VStr "1"); ("contractDate", VStr "20240220");
         ("typeOfSale", VStr "3"); ("price", VStr "2100000");
         ("propertyType", VStr "Terrace House"); ("district", VStr "20");
         ("typeOfArea", VStr "Land"); ("tenure", VStr "Freehold");
         ("marketSegment", VStr "OCR")].

Definition parkview_resale : value :=
  VDict [("area", VStr "118"); ("contractDate", VStr "20240402");
         ("price", VStr "2050000"); ("propertyType", VStr "Terrace House")].

Definition parkview_project : value :=
  VDict [("project", VStr "Parkview"); ("street", VStr "Bishan St");
         ("x", VStr "321"); ("y", VStr "654");
         ("transaction", VList [parkview_transaction; parkview_resale])].

Definition two_project_body : list (string * value) :=
  [("Result", VList [skyline_project; parkview_project])].

Definition send_two_projects (n : nat) (service : string) (batch : Z)
    : http_outcome :=
  HttpBody (VDict two_project_body).

(** Tables that hold a row each. *)
Definition stocked_tables : store :=
  {[ "condo_transactions" := [skyline_record];
     "landed_transactions" := [parkview_record] ]}.

End Samples.

(** * Properties *)

(** ** Strings and dictionaries *)

Section StringFacts.

Lemma append_cons (a : ascii) (s t : string) :
  String.append (String a s) t = String a (String.append s t).
Proof. reflexivity. Qed.

Lemma append_empty (t : string) : String.append EmptyString t = t.
Proof. reflexivity. Qed.

Lemma is_prefix_spec (p s : string) :
  is_prefix p s = true <-> exists post, s = String.append p post.
Proof.
  revert s. induction p as [|a p IH]; intros s; simpl.
  - split; [intros _; exists s; reflexivity | reflexivity].
  - destruct s as [|b s].
    + split; [discriminate | intros [post H]; rewrite append_cons in H; discriminate].
    + destruct (Ascii.eqb_spec a b) as [->|Hne].
      * rewrite IH. split; intros [post H]; exists post;
          rewrite append_cons in *; congruence.
      * split; [discriminate | intros [post H]; rewrite append_cons in H; congruence].
Qed.

(** [contains] is the substring test. *)
Lemma contains_spec (needle hay : string) :
  contains needle hay = true <->
  exists pre post, hay = String.append pre (String.append needle post).
Proof.
  induction hay as [|b hay IH]; simpl.
  - rewrite orb_false_r, is_prefix_spec. split.
    + intros [post H]. exists EmptyString, post. exact H.
    + intros [pre [post H]]. destruct pre as [|c pre];
        [exists post; exact H | rewrite append_cons in H; discriminate].
  - rewrite orb_true_iff, is_prefix_spec, IH. split.
    + intros [[post H] | [pre [post H]]].
      * exists EmptyString, post. exact H.
      * exists (String b pre), post. rewrite append_cons. now rewrite H.
    + intros [pre [post H]]. destruct pre as [|c pre].
      * left. exists post. exact H.
      * right. exists pre, post. rewrite append_cons in H. congruence.
Qed.

End StringFacts.

(** ** The classification step *)

Section Classification.

Import Scraper Notions.

Variable upper : string -> string.

Lemma separate_acc (txns condo0 landed0 : list record) :
  Forall (fun txn => is_Some (property_type_text txn)) txns ->
  separate upper txns condo0 landed0 =
  Ok (Classified
        (condo0 ++ List.filter (fun txn => negb (routes_to_landed upper txn)) txns)
        (landed0 ++ List.filter (routes_to_landed upper) txns)).
Proof.
  intros Hall. revert condo0 landed0.
  induction Hall as [|txn txns [s Hs] _ IH]; intros condo0 landed0; simpl.
  - now rewrite !app_nil_r.
  - assert (Hr : routes_to_landed upper txn = any_landed_type (upper s))
      by (unfold routes_to_landed; now rewrite Hs).
    rewrite Hr. unfold property_type_text in Hs.
    destruct (dict_get txn "property_type" (VStr "")) eqn:Hget; try discriminate.
    injection Hs as ->. simpl.
    destruct (any_landed_type (upper s)); simpl; rewrite IH;
      now rewrite <- app_assoc.
Qed.

Lemma filter_split_perm {A} (f : A -> bool) (l : list A) :
  List.filter (fun x => negb (f x)) l ++ List.filter f l ≡ₚ l.
Proof.
  induction l as [|x l IH]; simpl; [reflexivity|].
  destruct (f x); simpl.
  - rewrite <- Permutation_middle. now constructor.
  - now constructor.
Qed.

Lemma routes_to_landed_spec (txn : record) :
  routes_to_landed upper txn = true <->
  exists s landed_type,
    property_type_text txn = Some s /\
    In landed_type LANDED_TYPES /\
    contains landed_type (upper s) = true.
Proof.
  unfold routes_to_landed, any_landed_type.
  destruct (property_type_text txn) as [s|].
  - rewrite existsb_exists. split.
    + intros [t [Hin Hc]]. exists s, t. auto.
    + intros [s' [t [Heq [Hin Hc]]]]. injection Heq as <-. exists t. auto.
  - split; [discriminate | intros [s [t [H _]]]; discriminate].
Qed.

(** X27: on records whose [property_type], when present, is a string, the
    loop of [get_all_available_transactions] puts every record into exactly
    one of the two lists, drops and duplicates none, and a record goes to
    [landed] exactly when its uppercased [property_type] contains DETACHED,
    TERRACE or BUNGALOW. *)
Theorem separate_is_partition (txns : list record) :
  Forall (fun txn => is_Some (property_type_text txn)) txns ->
  exists data,
    separate upper txns [] [] = Ok data /\
    landed data = List.filter (routes_to_landed upper) txns /\
    condo data = List.filter (fun txn => negb (routes_to_landed upper txn)) txns /\
    condo data ++ landed data ≡ₚ txns /\
    (forall txn, In txn (landed data) ->
       In txn txns /\ routes_to_landed upper txn = true) /\
    (forall txn, In txn (condo data) ->
       In txn txns /\ routes_to_landed upper txn = false) /\
    (forall txn,
       routes_to_landed upper txn = true <->
       exists s landed_type,
         property_type_text txn = Some s /\
         In landed_type LANDED_TYPES /\
         contains landed_type (upper s) = true).
Proof.
  intros Hall. eexists. split; [apply (separate_acc txns [] [] Hall)|].
  cbn [landed condo app].
  split; [reflexivity|]. split; [reflexivity|].
  split; [apply filter_split_perm|].
  split; [|split].
  - intros txn Hin. apply filter_In in Hin. exact Hin.
  - intros txn Hin. apply filter_In in Hin. destruct Hin as [Hin Hneg].
    split; [exact Hin | now apply negb_true_iff in Hneg].
  - apply routes_to_landed_spec.
Qed.

End Classification.

(** A record whose [property_type] is no string stops the loop:
    [.upper()] raises. *)
Example separate_raises_without_text (upper : string -> string) :
  Scraper.separate upper [[("property_type", VNone)]] [] []
  = Raise AttributeError.
Proof. reflexivity. Qed.

(** C1 fails on a record whose [property_type] is no string, which the fetch
    passes on when the API sends [null] for [propertyType]: [.upper()] raises
    AttributeError at that record, no dictionary is returned, and the records
    around it are in neither list. *)
Theorem separate_loses_every_record :
  Scraper.separate Samples.ascii_upper Samples.untyped_among_typed [] []
  = Raise AttributeError /\
  ~ (exists data,
       Scraper.separate Samples.ascii_upper Samples.untyped_among_typed [] []
       = Ok data) /\
  fst (Scraper.get_private_residential_transactions Samples.send_untyped
         Samples.clock0 1 Samples.net0)
  = Ok [[("project_name", VStr "Skyline"); ("street", VStr "");
         ("x_coordinate", VStr ""); ("y_coordinate", VStr "");
         ("area", VStr ""); ("floor_range", VStr ""); ("no_of_units", VStr "");
         ("contract_date", VStr ""); ("type_of_sale", VStr "");
         ("price", VStr "1800000"); ("property_type", VNone);
         ("district", VStr ""); ("type_of_area", VStr ""); ("tenure", VStr "");
         ("market_segment", VStr ""); ("batch", VInt 1);
         ("scraped_at", VStr "2024-07-01T00:00:00")]] /\
  fst (Scraper.get_all_available_transactions Samples.ascii_upper
         Samples.send_untyped Samples.clock0 Samples.net0)
  = Raise AttributeError.
Proof.
  split; [reflexivity|]. split; [|split; reflexivity].
  intros [data H]. discriminate.
Qed.

Lemma separate_is_partition_witness :
  Forall (fun txn => is_Some (Notions.property_type_text txn))
    Samples.mixed_transactions /\
  exists data,
    Scraper.separate Samples.ascii_upper Samples.mixed_transactions [] []
    = Ok data /\
    Scraper.landed data
    = [Samples.txn_of_type "Semi-Detached House";
       Samples.txn_of_type "Terrace House"] /\
    Scraper.condo data
    = [Samples.txn_of_type "Condominium"; [("project_name", VStr "Untyped")]].
Proof.
  assert (H : Forall (fun txn => is_Some (Notions.property_type_text txn))
                Samples.mixed_transactions)
    by (repeat constructor; eexists; reflexivity).
  split; [exact H|].
  destruct (separate_is_partition Samples.ascii_upper
              Samples.mixed_transactions H)
    as (data & Hrun & Hlanded & Hcondo & _).
  exists data. rewrite Hlanded, Hcondo. split; [exact Hrun|].
  split; reflexivity.
Defined.

(** ** The single-batch fetch *)

Ltac run_py :=
  unfold bind, ret, raise, lift_res, try_except; simpl.

Section Flattening.

Import Scraper Notions.

Variable send : nat -> string -> Z -> http_outcome.
Variable now : nat -> string.

Lemma dict_get_missing (kvs : list (string * value)) (k : string) (d : value) :
  assoc k kvs = None -> dict_get kvs k d = d.
Proof. unfold dict_get. now intros ->. Qed.

Lemma transaction_record_ok (pn st x y : value) (batch : Z)
    (t : list (string * value)) (w : net) :
  exists rec,
    transaction_record now pn st x y batch (VDict t) w = (Ok rec, ticked 1 w) /\
    keys rec = RECORD_KEYS /\
    assoc "project_name" rec = Some pn /\
    assoc "street" rec = Some st /\
    assoc "x_coordinate" rec = Some x /\
    assoc "y_coordinate" rec = Some y /\
    (forall src dst, In (src, dst) TRANSACTION_FIELDS ->
       assoc dst rec = Some (dict_get t src (VStr ""))) /\
    assoc "batch" rec = Some (VInt batch).
Proof.
  eexists. split; [reflexivity|].
  repeat split.
  intros src dst Hin. simpl in Hin.
  repeat (destruct Hin as [Heq | Hin];
          [injection Heq as <- <-; reflexivity|]).
  destruct Hin.
Qed.

Lemma transaction_record_not_dict (pn st x y v : value) (batch : Z) (w : net) :
  ~ is_dict v ->
  transaction_record now pn st x y batch v w = (Raise AttributeError, w).
Proof.
  intros Hv. destruct v; try reflexivity. exfalso. apply Hv. now eexists.
Qed.

Lemma ticked_ticked (a b : nat) (w : net) :
  ticked a (ticked b w) = ticked (a + b) w.
Proof. unfold ticked. simpl. f_equal. lia. Qed.

Lemma ticked_0 (w : net) : ticked 0 w = w.
Proof. now destruct w. Qed.

(** The loop over the transactions of one project, all of them objects. *)
Lemma inner_loop_ok (pn st x y : value) (batch : Z) (items : list value) :
  Forall is_dict items ->
  forall (acc : list record) (w : net),
  exists recs,
    for_each items
      (fun transaction acc =>
         rec <- transaction_record now pn st x y batch transaction ;;
         ret (acc ++ [rec]))
      acc w
    = (Ok (acc ++ recs), ticked (length items) w) /\
    Forall2
      (fun transaction rec =>
         exists t, transaction = VDict t /\
           keys rec = RECORD_KEYS /\
           assoc "project_name" rec = Some pn /\
           assoc "street" rec = Some st /\
           assoc "x_coordinate" rec = Some x /\
           assoc "y_coordinate" rec = Some y /\
           (forall src dst, In (src, dst) TRANSACTION_FIELDS ->
              assoc dst rec = Some (dict_get t src (VStr ""))) /\
           assoc "batch" rec = Some (VInt batch))
      items recs.
Proof.
  induction 1 as [|item items [t ->] _ IH]; intros acc w.
  - exists []. simpl. rewrite app_nil_r, ticked_0. split; [reflexivity | constructor].
  - destruct (transaction_record_ok pn st x y batch t w) as (rec & Hrun & Hrec).
    destruct (IH (acc ++ [rec]) (ticked 1 w)) as (recs & Hloop & Hall).
    exists (rec :: recs). split.
    + simpl. unfold bind at 1. unfold bind at 1. rewrite Hrun. unfold ret at 1.
      rewrite Hloop, ticked_ticked, <- app_assoc.
      repeat f_equal. lia.
    + constructor; [exists t; split; [reflexivity | exact Hrec] | exact Hall].
Qed.

Lemma project_transactions_ok (batch : Z) (project : value) :
  is_project project ->
  forall (acc : list record) (w : net),
  exists recs,
    project_transactions now batch project acc w
    = (Ok (acc ++ recs), ticked (length (transactions_of project)) w) /\
    Forall2 (fun transaction rec => carries project transaction batch rec)
      (transactions_of project) recs.
Proof.
  intros (p & l & -> & Hl & Hdicts) acc w.
  destruct (inner_loop_ok (dict_get p "project" (VStr ""))
              (dict_get p "street" (VStr "")) (dict_get p "x" (VStr ""))
              (dict_get p "y" (VStr "")) batch l Hdicts acc w)
    as (recs & Hloop & Hall).
  exists recs. unfold transactions_of. rewrite Hl. split.
  - unfold project_transactions. run_py. rewrite Hl. simpl. exact Hloop.
  - eapply Forall2_impl; [exact Hall|].
    intros transaction rec (t & -> & Hk & Hpn & Hst & Hx & Hy & Hf & Hb).
    unfold carries. repeat split; try assumption.
    + intros src dst Hin. exists p. split; [reflexivity|].
      simpl in Hin.
      assert (Hd : assoc dst rec = Some (dict_get p src (VStr ""))).
      { repeat (destruct Hin as [Heq | Hin];
                [injection Heq as <- <-; assumption|]).
        destruct Hin. }
      split; [exact Hd|]. intros Hnone. now rewrite Hd, dict_get_missing.
    + intros src dst Hin. exists t. split; [reflexivity|].
      split; [now apply Hf|]. intros Hnone.
      now rewrite (Hf _ _ Hin), dict_get_missing.
Qed.

Lemma projects_loop_ok (batch : Z) (projects : list value) :
  Forall is_project projects ->
  forall (acc : list record) (w : net),
  exists groups,
    for_each projects (project_transactions now batch) acc w
    = (Ok (acc ++ concat groups),
       ticked (sum_list (map (fun p => length (transactions_of p)) projects)) w) /\
    Forall2
      (fun project group =>
         Forall2 (fun transaction rec => carries project transaction batch rec)
           (transactions_of project) group)
      projects groups.
Proof.
  induction 1 as [|project projects Hp _ IH]; intros acc w.
  - exists []. simpl. rewrite app_nil_r, ticked_0. split; [reflexivity | constructor].
  - destruct (project_transactions_ok batch project Hp acc w)
      as (recs & Hrun & Hrecs).
    destruct (IH (acc ++ recs) (ticked (length (transactions_of project)) w))
      as (groups & Hloop & Hgroups).
    exists (recs :: groups). split.
    + simpl. unfold bind at 1. rewrite Hrun, Hloop, ticked_ticked, <- app_assoc.
      f_equal. unfold ticked. f_equal. lia.
    + now constructor.
Qed.

Lemma Forall2_concat_length {A B} (f : A -> nat)
    (xs : list A) (groups : list (list B)) :
  Forall2 (fun x group => length group = f x) xs groups ->
  length (concat groups) = sum_list (map f xs).
Proof.
  induction 1 as [|x group xs groups Hx _ IH]; simpl; [reflexivity|].
  rewrite length_app. lia.
Qed.

(** C5: a response with N projects of M_i transaction objects is flattened
    into exactly the sum of the M_i records, in order; each record holds its
    project's [project_name], [street], [x_coordinate] and [y_coordinate] and
    its transaction's fields, and the empty string for every field the source
    object lacks. *)
Theorem flatten_sum_of_transactions (batch : Z) (w w' : net)
    (kvs : list (string * value)) (projects : list value) :
  _make_request send "PMI_Resi_Transaction" batch w = (Ok (VDict kvs), w') ->
  assoc "Result" kvs = Some (VList projects) ->
  Forall is_project projects ->
  exists groups,
    get_private_residential_transactions send now batch w
    = (Ok (concat groups),
       ticked (sum_list (map (fun p => length (transactions_of p)) projects)) w') /\
    length (concat groups)
    = sum_list (map (fun p => length (transactions_of p)) projects) /\
    Forall2
      (fun project group =>
         Forall2 (fun transaction rec => carries project transaction batch rec)
           (transactions_of project) group)
      projects groups.
Proof.
  intros Hreq Hresult Hprojects.
  destruct (projects_loop_ok batch projects Hprojects [] w')
    as (groups & Hloop & Hgroups).
  exists groups. split; [|split; [|exact Hgroups]].
  - unfold get_private_residential_transactions, fetch_and_flatten.
    unfold try_except, bind at 1. rewrite Hreq.
    destruct kvs as [|kv kvs']; [discriminate|].
    cbn [truthy negb]. unfold bind at 1, lift_res at 1. cbn [str_in].
    rewrite Hresult. cbn [negb]. unfold bind at 1, lift_res at 1. cbn [get].
    unfold dict_get. rewrite Hresult.
    unfold bind at 1, lift_res at 1. cbn [iter].
    rewrite Hloop. reflexivity.
  - apply (Forall2_concat_length (fun p => length (transactions_of p))).
    eapply Forall2_impl; [exact Hgroups|].
    intros project group Hg. symmetry. exact (Forall2_length _ _ _ Hg).
Qed.

End Flattening.

(** ** What the single-batch fetch returns on any response *)

Section FetchTotal.

Import Scraper Notions.

Variable send : nat -> string -> Z -> http_outcome.
Variable now : nat -> string.

Lemma for_each_invariant {S A B} (P : list B -> Prop) (xs : list A)
    (body : A -> list B -> M S (list B)) :
  (forall x acc s acc' s', P acc -> body x acc s = (Ok acc', s') -> P acc') ->
  forall acc s acc' s',
    P acc -> for_each xs body acc s = (Ok acc', s') -> P acc'.
Proof.
  intros Hbody. induction xs as [|x xs IH]; intros acc s acc' s' Hacc Hrun.
  - simpl in Hrun. unfold ret in Hrun. now injection Hrun as <- <-.
  - simpl in Hrun. unfold bind in Hrun.
    destruct (body x acc s) as [[acc1|e] s1] eqn:Hx; [|discriminate].
    eapply IH; [|exact Hrun]. eapply Hbody; [exact Hacc | exact Hx].
Qed.

Lemma project_transactions_keys (batch : Z) (project : value)
    (acc acc' : list record) (w w' : net) :
  Forall (from_batch batch) acc ->
  project_transactions now batch project acc w = (Ok acc', w') ->
  Forall (from_batch batch) acc'.
Proof.
  intros Hacc Hrun.
  destruct project as [| | | | |p]; try discriminate.
  unfold project_transactions in Hrun. revert Hrun. run_py.
  destruct (iter (dict_get p "transaction" (VList []))) as [items|e];
    [|discriminate].
  apply for_each_invariant; [|exact Hacc].
  clear. intros item acc s acc' s' Hacc Hrun.
  destruct item as [| | | | |t]; try (cbv in Hrun; discriminate).
  destruct (transaction_record_ok now (dict_get p "project" (VStr ""))
              (dict_get p "street" (VStr "")) (dict_get p "x" (VStr ""))
              (dict_get p "y" (VStr "")) batch t s)
    as (rec & Hrec & Hkeys & _ & _ & _ & _ & _ & Hbatch).
  rewrite Hrec in Hrun. injection Hrun as <- <-.
  apply Forall_app. split; [exact Hacc | now repeat constructor].
Qed.

Lemma fetch_and_flatten_keys (batch : Z) (w w' : net) (recs : list record) :
  fetch_and_flatten send now batch w = (Ok recs, w') ->
  Forall (from_batch batch) recs.
Proof.
  unfold fetch_and_flatten, bind at 1.
  destruct (_make_request send "PMI_Resi_Transaction" batch w)
    as [[data|e] w1]; [|discriminate].
  destruct (truthy data); cbn [negb].
  - unfold bind at 1, lift_res at 1.
    destruct (str_in "Result" data) as [[|]|e]; cbn [negb]; try discriminate.
    + unfold bind at 1, lift_res at 1.
      destruct (get data "Result" (VList [])) as [result|e]; [|discriminate].
      unfold bind at 1, lift_res at 1.
      destruct (iter result) as [projects|e]; [|discriminate].
      apply for_each_invariant; [|constructor].
      intros project acc s acc' s'. apply project_transactions_keys.
    + unfold ret. intros H. injection H as <- <-. constructor.
  - unfold ret. intros H. injection H as <- <-. constructor.
Qed.

(** The single-batch fetch never raises: it returns a list of records, each
    with the keys of the dictionary literal and the batch number. *)
Lemma get_private_residential_transactions_total (batch : Z) (w : net) :
  exists recs w',
    get_private_residential_transactions send now batch w = (Ok recs, w') /\
    Forall (from_batch batch) recs.
Proof.
  unfold get_private_residential_transactions, try_except.
  destruct (fetch_and_flatten send now batch w) as [[recs|e] w'] eqn:Hrun.
  - exists recs, w'. split; [reflexivity|].
    eapply fetch_and_flatten_keys; exact Hrun.
  - exists [], w'. split; [reflexivity | constructor].
Qed.

(** *** Requests and retries *)

Lemma for_each_state {S A B} (R : S -> S -> Prop) (xs : list A)
    (body : A -> list B -> M S (list B)) :
  (forall s, R s s) ->
  (forall s1 s2 s3, R s1 s2 -> R s2 s3 -> R s1 s3) ->
  (forall x acc s, R s (snd (body x acc s))) ->
  forall acc s, R s (snd (for_each xs body acc s)).
Proof.
  intros Hrefl Htrans Hbody. induction xs as [|x xs IH]; intros acc s.
  - apply Hrefl.
  - simpl. unfold bind. specialize (Hbody x acc s).
    destruct (body x acc s) as [[acc1|e] s1]; simpl in *.
    + eapply Htrans; [exact Hbody | apply IH].
    + exact Hbody.
Qed.

Lemma project_transactions_requests (batch : Z) (project : value)
    (acc : list record) (w : net) :
  requests (snd (project_transactions now batch project acc w)) = requests w.
Proof.
  destruct project as [| | | | |p]; try reflexivity.
  unfold project_transactions. run_py.
  destruct (iter (dict_get p "transaction" (VList []))) as [items|e];
    [|reflexivity].
  apply (for_each_state (fun s s' => requests s' = requests s));
    [reflexivity | intros; congruence |].
  intros item acc0 s. destruct item; reflexivity.
Qed.

Lemma retrying_S {S A} (k : nat) (m : M S A) (s : S) :
  retrying (Datatypes.S k) m s =
  match m s with
  | (Ok a, s') => (Ok a, s')
  | (Raise e, s') => retrying k m s'
  end.
Proof. reflexivity. Qed.

Lemma session_attempt (service : string) (batch : Z) (w : net) :
  try_except (session_get send service batch) is_Exception (fun e => raise e) w
  = (match send (length (requests w)) service batch with
     | HttpFailure => Raise RequestException
     | HttpBody body => Ok body
     end, sent 1 service batch w).
Proof.
  unfold try_except, session_get, sent.
  destruct (send (length (requests w)) service batch); reflexivity.
Qed.

Lemma sent_sent (a b : nat) (service : string) (batch : Z) (w : net) :
  sent a service batch (sent b service batch w) = sent (b + a) service batch w.
Proof. unfold sent. simpl. now rewrite <- app_assoc, repeat_app. Qed.

Lemma length_requests_sent (k : nat) (service : string) (batch : Z) (w : net) :
  length (requests (sent k service batch w)) = length (requests w) + k.
Proof. unfold sent. simpl. now rewrite length_app, repeat_length. Qed.

(** The three attempts of [_make_request], one request each. *)
Lemma make_request_cases (service : string) (batch : Z) (w : net) :
  _make_request send service batch w =
  let n := length (requests w) in
  match send n service batch with
  | HttpBody body => (Ok body, sent 1 service batch w)
  | HttpFailure =>
      match send (n + 1) service batch with
      | HttpBody body => (Ok body, sent 2 service batch w)
      | HttpFailure =>
          match send (n + 2) service batch with
          | HttpBody body => (Ok body, sent 3 service batch w)
          | HttpFailure => (Raise RetryError, sent 3 service batch w)
          end
      end
  end.
Proof.
  unfold _make_request. cbv zeta.
  rewrite retrying_S, session_attempt.
  destruct (send (length (requests w)) service batch); [|reflexivity].
  rewrite retrying_S, session_attempt, length_requests_sent, sent_sent.
  destruct (send (length (requests w) + 1) service batch); [|reflexivity].
  rewrite retrying_S, session_attempt, length_requests_sent, sent_sent.
  change (1 + 1) with 2. change (2 + 1) with 3.
  destruct (send (length (requests w) + 2) service batch); reflexivity.
Qed.

Lemma make_request_sends (service : string) (batch : Z) (w : net) :
  exists k, 1 <= k /\
    snd (_make_request send service batch w) = sent k service batch w.
Proof.
  rewrite make_request_cases. cbv zeta.
  destruct (send (length (requests w)) service batch);
    [|exists 1; split; [lia | reflexivity]].
  destruct (send (length (requests w) + 1) service batch);
    [|exists 2; split; [lia | reflexivity]].
  destruct (send (length (requests w) + 2) service batch);
    exists 3; (split; [lia | reflexivity]).
Qed.

(** A single-batch fetch sends between one and three requests for its batch,
    and none for another. *)
Lemma get_private_residential_transactions_requests (batch : Z) (w : net) :
  exists k, 1 <= k /\
    requests (snd (get_private_residential_transactions send now batch w))
    = requests w ++ repeat ("PMI_Resi_Transaction", batch) k.
Proof.
  destruct (make_request_sends "PMI_Resi_Transaction" batch w) as (k & Hk & Hs).
  exists k. split; [exact Hk|].
  unfold get_private_residential_transactions, try_except, fetch_and_flatten.
  unfold bind at 1.
  destruct (_make_request send "PMI_Resi_Transaction" batch w)
    as [[data|e] w1]; simpl in Hs; subst w1; [|reflexivity].
  destruct (truthy data); cbn [negb]; [|reflexivity].
  unfold bind at 1, lift_res at 1.
  destruct (str_in "Result" data) as [[|]|e]; cbn [negb]; try reflexivity.
  unfold bind at 1, lift_res at 1.
  destruct (get data "Result" (VList [])) as [result|e]; [|reflexivity].
  unfold bind at 1, lift_res at 1.
  destruct (iter result) as [projects|e]; [|reflexivity].
  pose proof (for_each_state (fun s s' => requests s' = requests s) projects
                (project_transactions now batch)
                (fun s => eq_refl)
                (fun s1 s2 s3 H12 H23 => eq_trans H23 H12)
                (project_transactions_requests batch)
                [] (sent k "PMI_Resi_Transaction" batch w)) as Hloop.
  destruct (for_each projects (project_transactions now batch) []
              (sent k "PMI_Resi_Transaction" batch w)) as [[recs|e] w2];
    simpl in *; exact Hloop.
Qed.

Lemma mogrify_same_length (args : list value) :
  Db.mogrify (length args) args = Ok tt \/
  Db.mogrify (length args) args = Raise DbError.
Proof.
  induction args as [|a args IH]; simpl; [now left|].
  destruct (Db.adaptable a); [exact IH | now right].
Qed.

Lemma combine_keys_values {A} (kvs : list (string * A)) :
  combine (keys kvs) (values kvs) = kvs.
Proof.
  induction kvs as [|[k v] kvs IH]; simpl; [reflexivity | now rewrite IH].
Qed.

(** C10: every record the single-batch fetch returns has the keys of the
    dictionary literal, in its order; hence in a chunk of such records the
    columns taken from the first record are the keys of every record, pair up
    with its value tuple, and give one placeholder per value. *)
Theorem fetched_records_share_columns (first : record) (rest : list record) :
  Forall (fetched send now) (first :: rest) ->
  keys first = RECORD_KEYS /\
  Forall
    (fun txn =>
       keys txn = keys first /\
       length (values txn) = length (keys first) /\
       combine (keys first) (values txn) = txn /\
       (Db.mogrify (length (keys first)) (values txn) = Ok tt \/
        Db.mogrify (length (keys first)) (values txn) = Raise DbError))
    (first :: rest).
Proof.
  intros Hchunk.
  assert (Hkeys : Forall (fun rec => keys rec = RECORD_KEYS) (first :: rest)).
  { eapply Forall_impl; [exact Hchunk|].
    intros rec (batch & w & recs & w' & Hrun & Hin).
    destruct (get_private_residential_transactions_total batch w)
      as (recs' & w'' & Hrun' & Hall).
    rewrite Hrun in Hrun'. injection Hrun' as <- <-.
    rewrite Forall_forall in Hall. apply Hall. now apply list_elem_of_In. }
  assert (Hfirst : keys first = RECORD_KEYS) by now inversion Hkeys.
  split; [exact Hfirst|].
  eapply Forall_impl; [exact Hkeys|].
  intros txn Htxn. cbv beta in Htxn.
  assert (Hlen : length (values txn) = length (keys first)).
  { rewrite Hfirst, <- Htxn. unfold keys, values. now rewrite !length_map. }
  repeat split.
  - now rewrite Htxn.
  - exact Hlen.
  - rewrite Hfirst, <- Htxn. apply combine_keys_values.
  - rewrite <- Hlen. apply mogrify_same_length.
Qed.

End FetchTotal.

(** ** Failing requests *)

Section FailingBatch.

Import Scraper Notions.

Variable upper : string -> string.
Variable send : nat -> string -> Z -> http_outcome.
Variable now : nat -> string.

Lemma exhausted_retries (batch : Z) (w : net) :
  (forall k, k < 3 ->
     send (length (requests w) + k) "PMI_Resi_Transaction" batch = HttpFailure) ->
  _make_request send "PMI_Resi_Transaction" batch w
  = (Raise RetryError, sent 3 "PMI_Resi_Transaction" batch w) /\
  get_private_residential_transactions send now batch w
  = (Ok [], sent 3 "PMI_Resi_Transaction" batch w).
Proof.
  intros Hfail.
  assert (Hreq : _make_request send "PMI_Resi_Transaction" batch w
                 = (Raise RetryError, sent 3 "PMI_Resi_Transaction" batch w)).
  { rewrite make_request_cases. cbv zeta.
    pose proof (Hfail 0) as H0. rewrite Nat.add_0_r in H0.
    rewrite H0, (Hfail 1), (Hfail 2) by lia. reflexivity. }
  split; [exact Hreq|].
  unfold get_private_residential_transactions, try_except, fetch_and_flatten.
  unfold bind at 1. now rewrite Hreq.
Qed.

Lemma fetch_loop (failing : Z) (batches : list Z) :
  (forall n, send n "PMI_Resi_Transaction" failing = HttpFailure) ->
  forall (acc : list record) (w : net),
  exists all extra w',
    for_each batches
      (fun batch acc =>
         transactions <- get_private_residential_transactions send now batch ;;
         ret (acc ++ transactions))
      acc w
    = (Ok (acc ++ all), w') /\
    requests w' = requests w ++ extra /\
    (forall b, In b batches -> In ("PMI_Resi_Transaction", b) extra) /\
    Forall (fun rec => assoc "batch" rec <> Some (VInt failing)) all.
Proof.
  intros Hfail. induction batches as [|b batches IH]; intros acc w.
  - exists [], [], w. simpl. rewrite !app_nil_r.
    repeat split; [intros b [] | constructor].
  - destruct (get_private_residential_transactions_total send now b w)
      as (recs & w1 & Hrun & Hrecs).
    destruct (get_private_residential_transactions_requests send now b w)
      as (k & Hk & Hreqs).
    rewrite Hrun in Hreqs. simpl in Hreqs.
    destruct (IH (acc ++ recs) w1) as (all & extra & w' & Hloop & Hext & Hin & Hno).
    exists (recs ++ all), (repeat ("PMI_Resi_Transaction", b) k ++ extra), w'.
    split; [|split; [|split]].
    + simpl. unfold bind at 1. unfold bind at 1. rewrite Hrun. unfold ret at 1.
      rewrite Hloop. now rewrite <- app_assoc.
    + rewrite Hext, Hreqs. now rewrite <- app_assoc.
    + intros b' [<- | Hb']; apply in_or_app.
      * left. destruct k; [lia | now left].
      * right. now apply Hin.
    + apply Forall_app. split; [|exact Hno].
      destruct (Z.eq_dec b failing) as [-> | Hne].
      * destruct (exhausted_retries failing w) as [_ Hempty];
          [intros; apply Hfail|].
        rewrite Hrun in Hempty. injection Hempty as -> _. constructor.
      * eapply Forall_impl; [exact Hrecs|].
        intros rec [_ Hb] Heq. rewrite Hb in Heq. congruence.
Qed.

(** C2, as the code has it: when the requests of a batch keep failing,
    [_make_request] raises after its third attempt, and it is the single-batch
    fetch itself that catches the failure and returns the empty list; the
    fetch of all batches, which has no handler, so gets no record of that
    batch and goes on to request every batch. *)
Theorem failing_batch_gives_no_records (batch : Z) (w : net) :
  (forall n, send n "PMI_Resi_Transaction" batch = HttpFailure) ->
  _make_request send "PMI_Resi_Transaction" batch w
  = (Raise RetryError, sent 3 "PMI_Resi_Transaction" batch w) /\
  get_private_residential_transactions send now batch w
  = (Ok [], sent 3 "PMI_Resi_Transaction" batch w) /\
  exists all extra w',
    fetch_batches send now [1; 2; 3; 4]%Z w = (Ok all, w') /\
    get_all_available_transactions upper send now w
    = (separate upper all [] [], w') /\
    requests w' = requests w ++ extra /\
    (forall b, In b [1; 2; 3; 4]%Z -> In ("PMI_Resi_Transaction", b) extra) /\
    Forall (fun rec => assoc "batch" rec <> Some (VInt batch)) all.
Proof.
  intros Hfail.
  destruct (exhausted_retries batch w) as [Hreq Hfetch];
    [intros; apply Hfail|].
  split; [exact Hreq|]. split; [exact Hfetch|].
  destruct (fetch_loop batch [1; 2; 3; 4]%Z Hfail [] w)
    as (all & extra & w' & Hloop & Hext & Hin & Hno).
  exists all, extra, w'. split; [exact Hloop|].
  split; [|split; [exact Hext | split; [exact Hin | exact Hno]]].
  unfold get_all_available_transactions, bind, fetch_batches.
  now rewrite Hloop.
Qed.

End FailingBatch.

Lemma failing_batch_gives_no_records_witness :
  (forall n, Samples.send_failing n "PMI_Resi_Transaction" 2%Z
             = Scraper.HttpFailure) /\
  Scraper.get_private_residential_transactions Samples.send_failing
    Samples.clock0 2 Samples.net0
  = (Ok [], Notions.sent 3 "PMI_Resi_Transaction" 2 Samples.net0).
Proof.
  split; [reflexivity|].
  exact (proj1 (proj2 (failing_batch_gives_no_records Samples.ascii_upper
                         Samples.send_failing Samples.clock0 2 Samples.net0
                         (fun n => eq_refl)))).
Defined.

(** C2 as stated fails: with every request failing, the single-batch fetch
    does not raise to its caller; it returns the empty list. *)
Lemma single_batch_fetch_does_not_propagate :
  Scraper.get_private_residential_transactions Samples.send_failing
    Samples.clock0 1 Samples.net0
  = (Ok [], Scraper.Net (repeat ("PMI_Resi_Transaction", 1%Z) 3) 0) /\
  ~ (exists e w',
       Scraper.get_private_residential_transactions Samples.send_failing
         Samples.clock0 1 Samples.net0 = (Raise e, w')).
Proof.
  split; [reflexivity|]. intros (e & w' & H). discriminate.
Qed.

(** The whole fetch on a well-typed response: the record of each of the four
    batches goes to [condo]. *)
Example fetch_all_condo :
  let run := Scraper.get_all_available_transactions Samples.ascii_upper
               Samples.send_skyline Samples.clock0 Samples.net0 in
  exists data,
    fst run = Ok data /\
    map (assoc "batch") (Scraper.condo data)
    = [Some (VInt 1); Some (VInt 2); Some (VInt 3); Some (VInt 4)] /\
    Scraper.landed data = [] /\
    map snd (Scraper.requests (snd run)) = [1; 2; 3; 4]%Z.
Proof. eexists. vm_compute. repeat split. Qed.

Lemma fetched_records_share_columns_witness :
  Forall (Notions.fetched Samples.send_two_projects Samples.clock0)
    Samples.two_records /\
  keys Samples.skyline_record = Scraper.RECORD_KEYS /\
  Forall
    (fun txn =>
       keys txn = keys Samples.skyline_record /\
       length (values txn) = length (keys Samples.skyline_record) /\
       combine (keys Samples.skyline_record) (values txn) = txn /\
       (Db.mogrify (length (keys Samples.skyline_record)) (values txn) = Ok tt \/
        Db.mogrify (length (keys Samples.skyline_record)) (values txn)
        = Raise DbError))
    Samples.two_records.
Proof.
  assert (H : Forall (Notions.fetched Samples.send_two_projects Samples.clock0)
                Samples.two_records).
  { constructor; [|constructor; [|constructor]];
      exists 1%Z, Samples.net0; do 2 eexists.
    - split; [reflexivity | now left].
    - split; [reflexivity | right; now left]. }
  split; [exact H|].
  exact (fetched_records_share_columns Samples.send_two_projects
           Samples.clock0 Samples.skyline_record [Samples.parkview_record] H).
Defined.

Lemma flatten_sum_of_transactions_witness :
  Scraper._make_request Samples.send_two_projects "PMI_Resi_Transaction" 1
    Samples.net0
  = (Ok (VDict Samples.two_project_body),
     Scraper.Net [("PMI_Resi_Transaction", 1%Z)] 0) /\
  exists groups,
    Scraper.get_private_residential_transactions Samples.send_two_projects
      Samples.clock0 1 Samples.net0
    = (Ok (concat groups), Scraper.Net [("PMI_Resi_Transaction", 1%Z)] 3) /\
    length (concat groups) = 3 /\
    Forall2
      (fun project group =>
         Forall2
           (fun transaction rec => Notions.carries project transaction 1 rec)
           (Notions.transactions_of project) group)
      [Samples.skyline_project; Samples.parkview_project] groups.
Proof.
  split; [reflexivity|].
  destruct (flatten_sum_of_transactions Samples.send_two_projects
              Samples.clock0 1 Samples.net0
              (Scraper.Net [("PMI_Resi_Transaction", 1%Z)] 0)
              Samples.two_project_body
              [Samples.skyline_project; Samples.parkview_project])
    as (groups & Hrun & Hlen & Hcarries).
  - reflexivity.
  - reflexivity.
  - constructor; [|constructor; [|constructor]].
    + exists (match Samples.skyline_project with VDict p => p | _ => [] end),
             [Samples.skyline_transaction].
      repeat split. repeat constructor. now eexists.
    + exists (match Samples.parkview_project with VDict p => p | _ => [] end),
             [Samples.parkview_transaction; Samples.parkview_resale].
      repeat split. repeat constructor; now eexists.
  - exists groups. split; [exact Hrun|]. split; [exact Hlen | exact Hcarries].
Defined.


(** ** The bulk store *)

Section Store.

Import Db Notions.

Variable schema : string -> table_schema.
Variable order_le : value -> value -> bool.

(** C8: with no record to insert the result is 0 and the connection is left
    as it was: no cursor is opened and no statement is sent. *)
Theorem insert_transactions_nothing (table_name : string) (batch_size : Z)
    (c : connection) :
  insert_transactions schema table_name [] batch_size c = (Ok 0%Z, c) /\
  calls (snd (insert_transactions schema table_name [] batch_size c)) = calls c.
Proof. split; reflexivity. Qed.

(** *** The connection in working order *)

Lemma closed_log (call : api_call) (c : connection) :
  closed (log call c) = closed c.
Proof. reflexivity. Qed.

Lemma aborted_log (call : api_call) (c : connection) :
  aborted (log call c) = aborted c.
Proof. reflexivity. Qed.

Lemma working_log (call : api_call) (c : connection) :
  working (log call c) = working c.
Proof. reflexivity. Qed.

Lemma committed_log (call : api_call) (c : connection) :
  committed (log call c) = committed c.
Proof. reflexivity. Qed.

Lemma cursor_open (c : connection) :
  closed c = false -> cursor c = (Ok tt, log CallCursor c).
Proof. unfold cursor. now intros ->. Qed.

(** *** The latest date, step by step *)

Lemma select_latest_ok (table column : string) (rows : list row)
    (c : connection) :
  closed c = false ->
  aborted c = false ->
  working c !! table = Some rows ->
  has_column (schema table) column = true ->
  select_latest schema order_le table column c
  = (Ok (head (sort_desc order_le
                 (map (fun r => dict_get r column VNone) rows))),
     log (CallSelectLatest table column) c).
Proof.
  intros Hopen Hclean Htable Hcolumn. unfold select_latest. cbv zeta.
  rewrite closed_log, aborted_log, working_log, Hopen, Hclean, Htable, Hcolumn.
  reflexivity.
Qed.

(** *** What a batch of statements leaves unchanged *)

Lemma steady_refl (c : connection) : steady c c.
Proof. now repeat split. Qed.

Lemma steady_trans (c1 c2 c3 : connection) :
  steady c1 c2 -> steady c2 c3 -> steady c1 c3.
Proof. unfold steady. intros (? & ? & ?) (? & ? & ?). repeat split; congruence. Qed.

Lemma insert_or_skip_steady (table : string) (r : row) (c : connection) :
  steady c (snd (insert_or_skip schema table r c)) /\
  db_only (fst (insert_or_skip schema table r c)).
Proof.
  unfold insert_or_skip.
  destruct (closed c || aborted c); [split; [apply steady_refl | reflexivity]|].
  destruct (working c !! table) as [rows|];
    [|split; [now repeat split | reflexivity]].
  destruct (negb (accepts (schema table) r));
    [split; [now repeat split | reflexivity]|].
  destruct (existsb (conflicts (schema table) r) rows);
    split; try exact I; now repeat split.
Qed.

Lemma execute_statements_steady (table : string) (rows : list row) :
  forall (rowcount : Z) (c : connection),
    steady c (snd (execute_statements schema table rows rowcount c)) /\
    db_only (fst (execute_statements schema table rows rowcount c)).
Proof.
  induction rows as [|r rows IH]; intros rowcount c; simpl.
  - split; [apply steady_refl | exact I].
  - unfold bind.
    destruct (insert_or_skip_steady table r c) as [Hs Hd].
    destruct (insert_or_skip schema table r c) as [[n|e] c1]; simpl in *.
    + destruct (IH n c1) as [Hs' Hd'].
      split; [eapply steady_trans; eassumption | exact Hd'].
    + split; assumption.
Qed.

Lemma mogrify_all_same_length (k : nat) (page : list (list value)) :
  Forall (fun args => length args = k) page ->
  db_only (mogrify_all k page).
Proof.
  induction 1 as [|args page Hargs _ IH]; simpl; [exact I|].
  subst k. destruct (mogrify_same_length args) as [-> | ->];
    [exact IH | reflexivity].
Qed.

Lemma execute_page_steady (table : string) (columns : list string)
    (page : list (list value)) (rowcount : Z) (c : connection) :
  Forall (fun args => length args = length columns) page ->
  steady c (snd (execute_page schema table columns page rowcount c)) /\
  db_only (fst (execute_page schema table columns page rowcount c)).
Proof.
  intros Hpage. unfold execute_page, bind, lift_res.
  pose proof (mogrify_all_same_length _ _ Hpage) as Hm.
  destruct (mogrify_all (length columns) page) as [[]|e]; simpl in Hm.
  - apply execute_statements_steady.
  - split; [apply steady_refl | exact Hm].
Qed.

Lemma execute_pages_steady (table : string) (columns : list string)
    (pages : list (list (list value))) :
  Forall (Forall (fun args => length args = length columns)) pages ->
  forall (rowcount : Z) (c : connection),
    steady c (snd (execute_pages schema table columns pages rowcount c)) /\
    db_only (fst (execute_pages schema table columns pages rowcount c)).
Proof.
  induction 1 as [|page pages Hpage _ IH]; intros rowcount c; simpl.
  - split; [apply steady_refl | exact I].
  - unfold bind.
    destruct (execute_page_steady table columns page rowcount c Hpage)
      as [Hs Hd].
    destruct (execute_page schema table columns page rowcount c)
      as [[n|e] c1]; simpl in *.
    + destruct (IH n c1) as [Hs' Hd'].
      split; [eapply steady_trans; eassumption | exact Hd'].
    + split; assumption.
Qed.

Lemma Forall_slices {A} (P : A -> Prop) (n : nat) (l : list A) :
  forall fuel, Forall P l -> Forall (Forall P) (slices fuel n l).
Proof.
  intros fuel. revert l. induction fuel as [|fuel IH]; intros l Hl; simpl.
  - constructor.
  - destruct l as [|x l']; [constructor|].
    constructor; [now apply Forall_take | apply IH; now apply Forall_drop].
Qed.

(** A batch of rows that all have one value per column: the call is logged,
    the durable tables stay as they are, and nothing but a database error is
    raised. *)
Lemma execute_batch_steady (table : string) (columns : list string)
    (argslist : list (list value)) (c : connection) :
  Forall (fun args => length args = length columns) argslist ->
  closed (snd (execute_batch schema table columns argslist c)) = closed c /\
  committed (snd (execute_batch schema table columns argslist c))
  = committed c /\
  calls (snd (execute_batch schema table columns argslist c))
  = calls c ++ [CallExecuteBatch table columns argslist] /\
  db_only (fst (execute_batch schema table columns argslist c)).
Proof.
  intros Hargs. unfold execute_batch.
  destruct (execute_pages_steady table columns (paginate 100 argslist)
              (Forall_slices _ _ _ _ Hargs) (-1)%Z
              (log (CallExecuteBatch table columns argslist) c))
    as [(Hclosed & Hcommitted & Hcalls) Hd].
  repeat split; try assumption.
Qed.

(** *** Chunks and offsets *)

Lemma ceil_div_step (len n : nat) :
  0 < n -> 0 < len ->
  (len + n - 1) / n = S ((len - n + n - 1) / n).
Proof.
  intros Hn Hlen.
  replace (len + n - 1) with ((len - 1) + 1 * n) by lia.
  rewrite Nat.div_add by lia. rewrite Nat.add_1_r. f_equal.
  destruct (le_lt_dec n len) as [Hge | Hlt].
  - f_equal. lia.
  - replace (len - n + n - 1) with (n - 1) by lia.
    rewrite !Nat.div_small by lia. reflexivity.
Qed.

(** The slices the loop takes at the offsets of [range] are the chunks. *)
Lemma slices_at_offsets {A} (n : nat) (l : list A) :
  0 < n ->
  forall fuel, length l <= fuel ->
  slices fuel n l
  = map (fun k => take n (drop (k * n) l)) (seq 0 ((length l + n - 1) / n)).
Proof.
  intros Hn fuel. revert l. induction fuel as [|fuel IH]; intros l Hfuel.
  - destruct l; [|simpl in Hfuel; lia]. simpl.
    rewrite Nat.div_small by lia. reflexivity.
  - destruct l as [|x l'].
    + simpl. rewrite Nat.div_small by lia. reflexivity.
    + cbn [slices]. rewrite ceil_div_step by (simpl; lia).
      rewrite IH by (rewrite length_drop; simpl in *; lia).
      rewrite length_drop. cbn [seq map]. f_equal.
      rewrite <- seq_shift, map_map. apply List.map_ext. intros k.
      rewrite drop_drop. reflexivity.
Qed.

Lemma range_step_chunks {A} (l : list A) (batch_size : Z) :
  (0 < batch_size)%Z ->
  map (fun i => take (Z.to_nat batch_size) (drop i l))
    (range_step (length l) batch_size)
  = Notions.chunks_of (Z.to_nat batch_size) l.
Proof.
  intros Hpos. unfold range_step, Notions.chunks_of.
  destruct (Z.leb_spec batch_size 0) as [Hle | _]; [lia|].
  rewrite (slices_at_offsets (Z.to_nat batch_size) l) by lia.
  now rewrite map_map.
Qed.

Lemma slices_nonempty {A} (n : nat) (l : list A) :
  0 < n -> forall fuel, Forall (fun chunk => chunk <> []) (slices fuel n l).
Proof.
  intros Hn fuel. revert l. induction fuel as [|fuel IH]; intros l; simpl.
  - constructor.
  - destruct l as [|x l']; [constructor|].
    constructor; [|apply IH].
    destruct n; [lia | discriminate].
Qed.

(** The chunks are consecutive, cover the list and have at most [n] records. *)
Lemma chunks_of_concat {A} (n : nat) (l : list A) :
  0 < n ->
  concat (Notions.chunks_of n l) = l /\
  Forall (fun chunk => 0 < length chunk <= n) (Notions.chunks_of n l).
Proof.
  intros Hn. unfold Notions.chunks_of.
  assert (H : forall fuel (l : list A), length l <= fuel ->
            concat (slices fuel n l) = l /\
            Forall (fun chunk => 0 < length chunk <= n) (slices fuel n l)).
  { induction fuel as [|fuel IH]; intros l0 Hfuel.
    - destruct l0; [|simpl in Hfuel; lia]. split; [reflexivity | constructor].
    - destruct l0 as [|x l0']; [split; [reflexivity | constructor]|].
      cbn [slices concat].
      destruct (IH (drop n (x :: l0'))) as [Hcat Hall];
        [rewrite length_drop; simpl in *; lia|].
      rewrite Hcat, take_drop. split; [reflexivity|].
      constructor; [|exact Hall].
      rewrite length_take. simpl. lia. }
  now apply H.
Qed.

(** *** The chunk loop *)

Lemma commit_open (c : connection) :
  closed c = false ->
  exists c', commit c = (Ok tt, c') /\ closed c' = false.
Proof.
  intros Hopen. unfold commit. rewrite Hopen.
  destruct (aborted c); eexists; split; reflexivity.
Qed.

Lemma insert_chunks_processed (table_name : string) (transactions : list row)
    (batch_size : Z) (k : nat) :
  Forall (fun r => length r = k) transactions ->
  forall offsets,
    Forall (fun i => take (Z.to_nat batch_size) (drop i transactions) <> [])
      offsets ->
    forall (total : Z) (c : connection),
      closed c = false ->
      exists outcomes c',
        Notions.processed schema table_name c
          (map (fun i => take (Z.to_nat batch_size) (drop i transactions))
             offsets)
          outcomes c' /\
        insert_chunks schema table_name transactions batch_size offsets total c
        = (Ok (total + Notions.inserted_total outcomes)%Z, c') /\
        closed c' = false.
Proof.
  intros Huniform. induction 1 as [|i offsets Hi _ IH]; intros total c Hopen.
  - exists [], c. simpl. rewrite Z.add_0_r.
    split; [constructor | split; [reflexivity | exact Hopen]].
  - cbn [insert_chunks map].
    assert (Hchunk : Forall (fun r => length r = k)
                       (take (Z.to_nat batch_size) (drop i transactions)))
      by now apply Forall_take, Forall_drop.
    destruct (take (Z.to_nat batch_size) (drop i transactions))
      as [|first others] eqn:Hslice; [congruence|].
    assert (Hargs : Forall (fun args => length args = length (keys first))
                      (map values (first :: others))).
    { apply Forall_map. eapply Forall_impl; [exact Hchunk|].
      intros r Hr. cbv beta. unfold keys, values. rewrite !length_map.
      inversion Hchunk; subst. congruence. }
    destruct (execute_batch_steady table_name (keys first)
                (map values (first :: others)) c Hargs)
      as (Hclosed & Hcommitted & Hcalls & Hdb).
    unfold bind at 1, try_except, insert_chunk, bind at 1.
    destruct (execute_batch schema table_name (keys first)
                (map values (first :: others)) c)
      as [[inserted_count|e] c1] eqn:Hbatch; simpl in Hclosed, Hcommitted, Hdb.
    + destruct (commit_open c1) as (c2 & Hcommit & Hopen2); [congruence|].
      unfold bind at 1. rewrite Hcommit. unfold ret at 1.
      destruct (IH (total + inserted_count)%Z c2 Hopen2)
        as (outcomes & c3 & Hrest & Hloop & Hopen3).
      exists (Some inserted_count :: outcomes), c3.
      split; [econstructor; eassumption|].
      split; [|exact Hopen3].
      rewrite Hloop. simpl. f_equal. f_equal. lia.
    + subst e. cbn [is_psycopg2_Error].
      assert (Hroll : rollback c1
                      = (Ok tt, Connection (committed c1) (committed c1) false
                                  false (calls c1 ++ [CallRollback]))).
      { unfold rollback. now rewrite Hclosed, Hopen. }
      unfold bind at 1. rewrite Hroll. unfold ret at 1.
      destruct (IH total _ (eq_refl : closed (Connection (committed c1)
                  (committed c1) false false (calls c1 ++ [CallRollback]))
                  = false))
        as (outcomes & c3 & Hrest & Hloop & Hopen3).
      exists (None :: outcomes), c3.
      split; [|split; [exact Hloop | exact Hopen3]].
      eapply Notions.processed_rolled_back; try eassumption.
Qed.


(** *** The count of a chunk *)

Lemma insert_or_skip_rowcount (table : string) (r : row) (c c' : connection)
    (n : Z) :
  insert_or_skip schema table r c = (Ok n, c') -> n = 0%Z \/ n = 1%Z.
Proof.
  unfold insert_or_skip.
  destruct (closed c || aborted c); [discriminate|].
  destruct (working c !! table) as [rows|]; [|discriminate].
  destruct (negb (accepts (schema table) r)); [discriminate|].
  destruct (existsb (conflicts (schema table) r) rows);
    intros H; injection H as <- _; auto.
Qed.

Lemma execute_statements_rowcount (table : string) (rows : list row) :
  forall (rowcount n : Z) (c c' : connection),
    execute_statements schema table rows rowcount c = (Ok n, c') ->
    (rows = [] /\ n = rowcount) \/ (rows <> [] /\ (n = 0%Z \/ n = 1%Z)).
Proof.
  induction rows as [|r rows IH]; intros rowcount n c c'; simpl.
  - unfold ret. intros H. injection H as <- _. now left.
  - unfold bind.
    destruct (insert_or_skip schema table r c) as [[m|e] c1] eqn:Hr;
      [|discriminate].
    intros Hrest. right. split; [discriminate|].
    destruct (IH m n c1 c' Hrest) as [[_ ->] | [_ Hn]]; [|exact Hn].
    eapply insert_or_skip_rowcount; exact Hr.
Qed.

Lemma execute_pages_rowcount (table : string) (columns : list string)
    (pages : list (list (list value))) :
  Forall (fun page => page <> []) pages ->
  forall (rowcount n : Z) (c c' : connection),
    execute_pages schema table columns pages rowcount c = (Ok n, c') ->
    (pages = [] /\ n = rowcount) \/ (pages <> [] /\ (n = 0%Z \/ n = 1%Z)).
Proof.
  induction 1 as [|page pages Hpage _ IH]; intros rowcount n c c'; simpl.
  - unfold ret. intros H. injection H as <- _. now left.
  - unfold bind at 1.
    destruct (execute_page schema table columns page rowcount c)
      as [[m|e] c1] eqn:Hp; [|discriminate].
    intros Hrest. right. split; [discriminate|].
    destruct (IH m n c1 c' Hrest) as [[_ ->] | [_ Hn]]; [|exact Hn].
    revert Hp. unfold execute_page, bind, lift_res.
    destruct (mogrify_all (length columns) page) as [[]|e]; [|discriminate].
    intros Hs. apply execute_statements_rowcount in Hs.
    destruct Hs as [[Hnil _] | [_ Hm]]; [|exact Hm].
    destruct page; [congruence | discriminate].
Qed.

(** The count read after a batch is that of one statement: 0 or 1. *)
Lemma execute_batch_rowcount (table : string) (columns : list string)
    (argslist : list (list value)) (c c' : connection) (n : Z) :
  argslist <> [] ->
  execute_batch schema table columns argslist c = (Ok n, c') ->
  n = 0%Z \/ n = 1%Z.
Proof.
  intros Hne Hrun. unfold execute_batch in Hrun.
  apply execute_pages_rowcount in Hrun; [|apply slices_nonempty; lia].
  destruct Hrun as [[Hnil _] | [_ Hn]]; [|exact Hn].
  destruct argslist; [congruence | discriminate].
Qed.

Lemma processed_total_bound (table : string) (c c' : connection)
    (chunks : list (list row)) (outcomes : list (option Z)) :
  processed schema table c chunks outcomes c' ->
  (0 <= inserted_total outcomes <= Z.of_nat (length chunks))%Z.
Proof.
  induction 1 as [c | c c1 c2 c3 first others n rest outcomes Hbatch _ _ IH
                  | c c1 c2 c3 first others rest outcomes _ _ _ _ _ IH];
    cbn [length].
  - cbn. lia.
  - change (inserted_total (Some n :: outcomes))
      with (n + inserted_total outcomes)%Z.
    apply execute_batch_rowcount in Hbatch; [|discriminate]. lia.
  - change (inserted_total (None :: outcomes)) with (inserted_total outcomes).
    lia.
Qed.

(** However many rows the chunks store, the result counts at most one per
    chunk. *)
Lemma insert_transactions_at_most_one_per_chunk (table_name : string)
    (transactions : list row) (batch_size : Z) (k : nat) (c : connection) :
  transactions <> [] ->
  (0 < batch_size)%Z ->
  closed c = false ->
  Forall (fun r => length r = k) transactions ->
  exists total,
    fst (insert_transactions schema table_name transactions batch_size c)
    = Ok total /\
    (0 <= total
     <= Z.of_nat (length (chunks_of (Z.to_nat batch_size) transactions)))%Z.
Proof.
  intros Hne Hpos Hopen Huniform.
  destruct (insert_chunks_processed table_name transactions batch_size k
              Huniform (range_step (length transactions) batch_size))
    with (total := 0%Z) (c := log CallCursor c)
    as (outcomes & c' & Hproc & Hloop & _).
  - apply Forall_map with (f := fun i => take (Z.to_nat batch_size)
                                          (drop i transactions))
                          (P := fun chunk => chunk <> []).
    rewrite range_step_chunks by exact Hpos.
    apply slices_nonempty. lia.
  - exact Hopen.
  - rewrite range_step_chunks in Hproc by exact Hpos.
    exists (inserted_total outcomes). split.
    + unfold insert_transactions.
      destruct transactions as [|r rest]; [congruence|].
      destruct (Z.eqb_spec batch_size 0) as [Hz | _]; [lia|].
      unfold bind at 1. rewrite (cursor_open c Hopen).
      unfold bind at 1. rewrite Hloop. reflexivity.
    + eapply processed_total_bound; exact Hproc.
Qed.

(** *** Inserting the same records again *)

Lemma mogrify_adaptable (args : list value) :
  forallb adaptable args = true -> mogrify (length args) args = Ok tt.
Proof.
  induction args as [|a args IH]; simpl; [reflexivity|].
  intros H. apply andb_true_iff in H as [Ha Hargs]. rewrite Ha. now apply IH.
Qed.

Lemma mogrify_all_storable (table : string) (columns : list string)
    (rows : list row) :
  Forall (storable schema table columns) rows ->
  mogrify_all (length columns) (map values rows) = Ok tt.
Proof.
  induction 1 as [|r rows (Hkeys & Hadapt & _) _ IH]; simpl; [reflexivity|].
  replace (length columns) with (length (values r))
    by (rewrite <- Hkeys; unfold keys, values; now rewrite !length_map).
  rewrite (mogrify_adaptable _ Hadapt).
  replace (length (values r)) with (length columns)
    by (rewrite <- Hkeys; unfold keys, values; now rewrite !length_map).
  exact IH.
Qed.

Lemma combine_storable (table : string) (columns : list string)
    (rows : list row) :
  Forall (storable schema table columns) rows ->
  map (combine columns) (map values rows) = rows.
Proof.
  induction 1 as [|r rows (Hkeys & _) _ IH]; simpl; [reflexivity|].
  rewrite IH, <- Hkeys. now rewrite combine_keys_values.
Qed.

(** The statements of storable rows, run on a connection in working order,
    change the table as [absorb] says. *)
Lemma execute_statements_absorb (table : string) (columns : list string)
    (rows : list row) :
  Forall (storable schema table columns) rows ->
  forall (stored : list row) (rowcount : Z) (c : connection),
    closed c = false ->
    aborted c = false ->
    working c !! table = Some stored ->
    execute_statements schema table rows rowcount c
    = (Ok (snd (absorb schema table stored rowcount rows)),
       set_working
         (<[table := fst (absorb schema table stored rowcount rows)]>
            (working c)) c).
Proof.
  induction 1 as [|r rows (_ & _ & Haccept) _ IH];
    intros stored rowcount c Hopen Hclean Htable.
  - simpl. unfold ret. f_equal. destruct c as [cm wk ab cl cs].
    unfold set_working. simpl in *. now rewrite insert_id.
  - cbn [execute_statements absorb]. unfold bind, insert_or_skip.
    rewrite Hopen, Hclean, Htable, Haccept. cbn [orb negb].
    destruct (existsb (conflicts (schema table) r) stored).
    + now apply IH.
    + rewrite (IH (stored ++ [r]) 1%Z); try assumption.
      * unfold set_working. cbn [working committed aborted closed calls].
        now rewrite insert_insert_eq.
      * cbn [working set_working]. apply lookup_insert_eq.
Qed.

Lemma absorb_app (table : string) (rows1 rows2 : list row) :
  forall (stored : list row) (rowcount : Z),
    absorb schema table stored rowcount (rows1 ++ rows2)
    = absorb schema table (fst (absorb schema table stored rowcount rows1))
        (snd (absorb schema table stored rowcount rows1)) rows2.
Proof.
  induction rows1 as [|r rows1 IH]; intros stored rowcount; simpl;
    [reflexivity|].
  destruct (existsb (conflicts (schema table) r) stored); apply IH.
Qed.

Lemma execute_pages_absorb (table : string) (columns : list string)
    (pages : list (list row)) :
  Forall (Forall (storable schema table columns)) pages ->
  forall (stored : list row) (rowcount : Z) (c : connection),
    closed c = false ->
    aborted c = false ->
    working c !! table = Some stored ->
    execute_pages schema table columns (map (map values) pages) rowcount c
    = (Ok (snd (absorb schema table stored rowcount (concat pages))),
       set_working
         (<[table := fst (absorb schema table stored rowcount (concat pages))]>
            (working c)) c).
Proof.
  induction 1 as [|page pages Hpage _ IH];
    intros stored rowcount c Hopen Hclean Htable.
  - simpl. unfold ret. f_equal. destruct c as [cm wk ab cl cs].
    unfold set_working. simpl in *. now rewrite insert_id.
  - cbn [map execute_pages concat]. unfold bind at 1.
    unfold execute_page, bind at 1, lift_res.
    rewrite (mogrify_all_storable table columns page Hpage).
    rewrite (combine_storable table columns page Hpage).
    rewrite (execute_statements_absorb table columns page Hpage stored
               rowcount c Hopen Hclean Htable).
    rewrite (IH (fst (absorb schema table stored rowcount page))
               (snd (absorb schema table stored rowcount page)));
      try assumption.
    + rewrite absorb_app. unfold set_working.
      cbn [working committed aborted closed calls].
      now rewrite insert_insert_eq.
    + cbn [working set_working]. apply lookup_insert_eq.
Qed.

Lemma slices_map {A B} (f : A -> B) (n : nat) (l : list A) :
  forall fuel, slices fuel n (map f l) = map (map f) (slices fuel n l).
Proof.
  intros fuel. revert l. induction fuel as [|fuel IH]; intros l; simpl;
    [reflexivity|].
  destruct l as [|x l']; [reflexivity|].
  change (slices (S fuel) n (map f (x :: l')))
    with (take n (map f (x :: l'))
          :: slices fuel n (drop n (map f (x :: l')))).
  change (slices (S fuel) n (x :: l'))
    with (take n (x :: l') :: slices fuel n (drop n (x :: l'))).
  now rewrite firstn_map, skipn_map, IH.
Qed.

(** A batch of storable rows succeeds; its count is the row count of the
    last row. *)
Lemma execute_batch_absorb (table : string) (columns : list string)
    (rows : list row) (stored : list row) (c : connection) :
  Forall (storable schema table columns) rows ->
  closed c = false ->
  aborted c = false ->
  working c !! table = Some stored ->
  execute_batch schema table columns (map values rows) c
  = (Ok (snd (absorb schema table stored (-1)%Z rows)),
     set_working
       (<[table := fst (absorb schema table stored (-1)%Z rows)]> (working c))
       (log (CallExecuteBatch table columns (map values rows)) c)).
Proof.
  intros Hrows Hopen Hclean Htable. unfold execute_batch, paginate.
  rewrite length_map, slices_map.
  rewrite (execute_pages_absorb table columns (slices (length rows) 100 rows)
             (Forall_slices _ _ _ _ Hrows) stored (-1)%Z
             (log (CallExecuteBatch table columns (map values rows)) c)
             Hopen Hclean Htable).
  destruct (chunks_of_concat 100 rows) as [Hcat _]; [lia|].
  unfold chunks_of in Hcat. now rewrite Hcat.
Qed.

Lemma absorb_grows (table : string) (rows : list row) :
  forall (stored : list row) (rowcount : Z),
  exists extra, fst (absorb schema table stored rowcount rows) = stored ++ extra.
Proof.
  induction rows as [|r rows IH]; intros stored rowcount; simpl.
  - exists []. now rewrite app_nil_r.
  - destruct (existsb (conflicts (schema table) r) stored).
    + apply IH.
    + destruct (IH (stored ++ [r]) 1%Z) as [extra ->].
      exists ([r] ++ extra). now rewrite app_assoc.
Qed.

Lemma absorb_saturates (table : string) (rows : list row) :
  (forall r, conflicts (schema table) r r = true) ->
  forall (stored : list row) (rowcount : Z),
    Forall (fun r =>
              existsb (conflicts (schema table) r)
                (fst (absorb schema table stored rowcount rows)) = true)
      rows.
Proof.
  intros Hrefl. induction rows as [|r rows IH]; intros stored rowcount; simpl;
    [constructor|].
  destruct (existsb (conflicts (schema table) r) stored) eqn:Hr.
  - constructor; [|apply IH].
    destruct (absorb_grows table rows stored 0%Z) as [extra ->].
    rewrite existsb_app, Hr. reflexivity.
  - constructor; [|apply IH].
    destruct (absorb_grows table rows (stored ++ [r]) 1%Z) as [extra ->].
    rewrite !existsb_app. simpl. rewrite Hrefl.
    now rewrite orb_true_r.
Qed.

Lemma absorb_saturated (table : string) (rows : list row) (stored : list row) :
  Forall (fun r => existsb (conflicts (schema table) r) stored = true) rows ->
  forall rowcount,
    absorb schema table stored rowcount rows
    = (stored, match rows with [] => rowcount | _ => 0%Z end).
Proof.
  induction 1 as [|r rows Hr _ IH]; intros rowcount; simpl; [reflexivity|].
  rewrite Hr, IH. now destruct rows.
Qed.

(** The first call: with storable records every chunk is committed, and
    afterwards each record collides with a stored row. *)
Lemma processed_saturates (table : string) (columns : list string)
    (c c' : connection) (chunks : list (list row))
    (outcomes : list (option Z)) :
  (forall r, conflicts (schema table) r r = true) ->
  processed schema table c chunks outcomes c' ->
  Forall (Forall (storable schema table columns)) chunks ->
  forall stored,
    closed c = false ->
    aborted c = false ->
    working c !! table = Some stored ->
    exists stored',
      closed c' = false /\
      aborted c' = false /\
      working c' !! table = Some stored' /\
      (chunks <> [] -> committed c' = working c') /\
      (forall r, existsb (conflicts (schema table) r) stored = true ->
                 existsb (conflicts (schema table) r) stored' = true) /\
      Forall (Forall (fun r =>
                existsb (conflicts (schema table) r) stored' = true)) chunks.
Proof.
  intros Hrefl.
  induction 1 as [c | c c1 c2 c3 first others n rest outcomes Hbatch Hcommit Hproc IH
                  | c c1 c2 c3 first others rest outcomes Hbatch _ _ _ _ _];
    intros Hchunks stored Hopen Hclean Htable.
  - exists stored. split; [exact Hopen|]. split; [exact Hclean|].
    split; [exact Htable|]. split; [congruence|].
    split; [tauto | constructor].
  - inversion Hchunks as [|? ? Hchunk Hrest]; subst.
    assert (Hcols : keys first = columns)
      by (inversion Hchunk as [|? ? [Hk _] _]; exact Hk).
    rewrite Hcols in Hbatch.
    rewrite (execute_batch_absorb table columns (first :: others) stored c
               Hchunk Hopen Hclean Htable) in Hbatch.
    injection Hbatch as <- <-.
    unfold commit in Hcommit. cbn [closed aborted set_working log] in Hcommit.
    rewrite Hopen, Hclean in Hcommit. injection Hcommit as <-.
    destruct (IH Hrest
                (fst (absorb schema table stored (-1)%Z (first :: others))))
      as (stored' & Hopen' & Hclean' & Htable' & Hsync & Hmono & Hsat);
      try reflexivity.
    { cbn [working set_working log]. apply lookup_insert_eq. }
    exists stored'. split; [exact Hopen'|]. split; [exact Hclean'|].
    split; [exact Htable'|]. split; [|split].
    + intros _. destruct rest as [|chunk rest'].
      * inversion Hproc; subst. reflexivity.
      * apply Hsync. discriminate.
    + intros r Hr. apply Hmono.
      destruct (absorb_grows table (first :: others) stored (-1)%Z)
        as [extra ->].
      rewrite existsb_app, Hr. reflexivity.
    + constructor; [|exact Hsat].
      eapply Forall_impl;
        [exact (absorb_saturates table (first :: others) Hrefl stored (-1)%Z)|].
      intros r Hr. now apply Hmono.
  - exfalso. inversion Hchunks as [|? ? Hchunk Hrest]; subst.
    assert (Hcols : keys first = columns)
      by (inversion Hchunk as [|? ? [Hk _] _]; exact Hk).
    rewrite Hcols in Hbatch.
    rewrite (execute_batch_absorb table columns (first :: others) stored c
               Hchunk Hopen Hclean Htable) in Hbatch.
    discriminate.
Qed.

(** The second call: every record collides with a stored row, so every
    chunk is committed with count 0 and the tables stay as they are. *)
Lemma processed_adds_nothing (table : string) (columns : list string)
    (c c' : connection) (chunks : list (list row))
    (outcomes : list (option Z)) :
  processed schema table c chunks outcomes c' ->
  Forall (Forall (storable schema table columns)) chunks ->
  forall stored,
    closed c = false ->
    aborted c = false ->
    working c !! table = Some stored ->
    committed c = working c ->
    Forall (Forall (fun r =>
              existsb (conflicts (schema table) r) stored = true)) chunks ->
    inserted_total outcomes = 0%Z /\ committed c' = committed c.
Proof.
  induction 1 as [c | c c1 c2 c3 first others n rest outcomes Hbatch Hcommit _ IH
                  | c c1 c2 c3 first others rest outcomes Hbatch _ _ _ _ _];
    intros Hchunks stored Hopen Hclean Htable Hsync Hsat.
  - split; reflexivity.
  - inversion Hchunks as [|? ? Hchunk Hrest]; subst.
    inversion Hsat as [|? ? Hsat1 Hsatrest]; subst.
    assert (Hcols : keys first = columns)
      by (inversion Hchunk as [|? ? [Hk _] _]; exact Hk).
    rewrite Hcols in Hbatch.
    rewrite (execute_batch_absorb table columns (first :: others) stored c
               Hchunk Hopen Hclean Htable) in Hbatch.
    rewrite (absorb_saturated table (first :: others) stored Hsat1) in Hbatch.
    cbn [fst snd] in Hbatch. rewrite (insert_id _ _ _ Htable) in Hbatch.
    injection Hbatch as <- <-.
    unfold commit in Hcommit. cbn [closed aborted set_working log] in Hcommit.
    rewrite Hopen, Hclean in Hcommit. injection Hcommit as <-.
    destruct (IH Hrest stored) as [Htotal Hsame]; try reflexivity;
      try assumption.
    split.
    + change (inserted_total (Some 0%Z :: outcomes))
        with (0 + inserted_total outcomes)%Z. lia.
    + rewrite Hsame. cbn [committed working set_working log]. now symmetry.
  - exfalso. inversion Hchunks as [|? ? Hchunk Hrest]; subst.
    assert (Hcols : keys first = columns)
      by (inversion Hchunk as [|? ? [Hk _] _]; exact Hk).
    rewrite Hcols in Hbatch.
    rewrite (execute_batch_absorb table columns (first :: others) stored c
               Hchunk Hopen Hclean Htable) in Hbatch.
    discriminate.
Qed.

(** [insert_transactions], chunk by chunk. *)
Lemma insert_transactions_chunked (table_name : string)
    (transactions : list row) (batch_size : Z) (k : nat) (c : connection) :
  transactions <> [] ->
  (0 < batch_size)%Z ->
  closed c = false ->
  Forall (fun r => length r = k) transactions ->
  exists outcomes c',
    processed schema table_name (log CallCursor c)
      (chunks_of (Z.to_nat batch_size) transactions) outcomes c' /\
    insert_transactions schema table_name transactions batch_size c
    = (Ok (inserted_total outcomes), log CallCursorClose c').
Proof.
  intros Hne Hpos Hopen Huniform.
  destruct (insert_chunks_processed table_name transactions batch_size k
              Huniform (range_step (length transactions) batch_size))
    with (total := 0%Z) (c := log CallCursor c)
    as (outcomes & c' & Hproc & Hloop & _).
  - apply Forall_map with (f := fun i => take (Z.to_nat batch_size)
                                          (drop i transactions))
                          (P := fun chunk => chunk <> []).
    rewrite range_step_chunks by exact Hpos.
    apply slices_nonempty. lia.
  - exact Hopen.
  - rewrite range_step_chunks in Hproc by exact Hpos.
    exists outcomes, c'. split; [exact Hproc|].
    unfold insert_transactions.
    destruct transactions as [|r rest]; [congruence|].
    destruct (Z.eqb_spec batch_size 0) as [Hz | _]; [lia|].
    unfold bind at 1. rewrite (cursor_open c Hopen).
    unfold bind at 1. rewrite Hloop. reflexivity.
Qed.

Lemma chunks_of_nonempty {A} (n : nat) (l : list A) :
  l <> [] -> chunks_of n l <> [].
Proof. unfold chunks_of. destruct l; [congruence | discriminate]. Qed.

(** Insert-or-skip makes a repeated call harmless: when the uniqueness
    constraint holds each row against itself, a second call with the same
    storable records stores nothing and returns 0. *)
Lemma second_insert_adds_nothing (table_name : string)
    (columns : list string) (transactions : list row) (batch_size : Z)
    (stored : list row) (c : connection) :
  (forall r, conflicts (schema table_name) r r = true) ->
  transactions <> [] ->
  (0 < batch_size)%Z ->
  closed c = false ->
  aborted c = false ->
  working c !! table_name = Some stored ->
  Forall (storable schema table_name columns) transactions ->
  let first := insert_transactions schema table_name transactions batch_size c in
  let second :=
    insert_transactions schema table_name transactions batch_size (snd first) in
  fst second = Ok 0%Z /\ committed (snd second) = committed (snd first).
Proof.
  intros Hrefl Hne Hpos Hopen Hclean Htable Hstorable first second.
  assert (Huniform : Forall (fun r => length r = length columns) transactions).
  { eapply Forall_impl; [exact Hstorable|]. intros r (Hk & _).
    rewrite <- Hk. unfold keys. now rewrite length_map. }
  assert (Hchunks : Forall (Forall (storable schema table_name columns))
                      (chunks_of (Z.to_nat batch_size) transactions))
    by now apply Forall_slices.
  destruct (insert_transactions_chunked table_name transactions batch_size
              (length columns) c Hne Hpos Hopen Huniform)
    as (outcomes1 & c1 & Hproc1 & Hrun1).
  destruct (processed_saturates table_name columns _ _ _ _ Hrefl Hproc1
              Hchunks stored Hopen Hclean Htable)
    as (stored1 & Hopen1 & Hclean1 & Htable1 & Hsync1 & _ & Hsat1).
  specialize (Hsync1 (chunks_of_nonempty _ _ Hne)).
  subst first second. rewrite Hrun1. cbn [snd].
  destruct (insert_transactions_chunked table_name transactions batch_size
              (length columns) (log CallCursorClose c1) Hne Hpos Hopen1
              Huniform)
    as (outcomes2 & c2 & Hproc2 & Hrun2).
  destruct (processed_adds_nothing table_name columns _ _ _ _ Hproc2 Hchunks
              stored1 Hopen1 Hclean1 Htable1 Hsync1 Hsat1)
    as [Htotal Hsame].
  rewrite Hrun2. cbn [fst snd]. rewrite Htotal. split; [reflexivity|].
  exact Hsame.
Qed.

(** *** The latest date *)

Lemma head_sort_desc (l : list value) :
  (forall a b, order_le a b = true \/ order_le b a = true) ->
  (forall a b d, order_le a b = true -> order_le b d = true ->
                 order_le a d = true) ->
  match head (sort_desc order_le l) with
  | None => l = []
  | Some m => In m l /\ forall x, In x l -> order_le x m = true
  end.
Proof.
  intros Htotal Htrans. induction l as [|x l IH]; simpl; [reflexivity|].
  destruct (sort_desc order_le l) as [|w rest]; simpl in *.
  - subst l. split; [now left|]. intros y [<- | []].
    now destruct (Htotal x x).
  - destruct IH as [Hw Hmax]. destruct (order_le w x) eqn:Hwx; simpl.
    + split; [now left|]. intros y [<- | Hy].
      * now destruct (Htotal x x).
      * eapply Htrans; [apply Hmax, Hy | exact Hwx].
    + split; [now right|]. intros y [<- | Hy].
      * destruct (Htotal x w) as [H | H]; [exact H | congruence].
      * now apply Hmax.
Qed.

(** C7: on a connection in working order, the result is [None] for an empty
    table and otherwise a value of the date column that no value of the
    column exceeds, in the order the column is sorted by. *)
Theorem latest_date_is_maximum (table_name date_column : string)
    (rows : list row) (c : connection) :
  (forall a b, order_le a b = true \/ order_le b a = true) ->
  (forall a b d, order_le a b = true -> order_le b d = true ->
                 order_le a d = true) ->
  closed c = false ->
  aborted c = false ->
  working c !! table_name = Some rows ->
  has_column (schema table_name) date_column = true ->
  let dates := map (fun r => dict_get r date_column VNone) rows in
  (rows = [] ->
   fst (get_latest_transaction_date schema order_le table_name date_column c)
   = Ok VNone) /\
  (rows <> [] ->
   exists latest,
     fst (get_latest_transaction_date schema order_le table_name date_column c)
     = Ok latest /\
     In latest dates /\
     forall d, In d dates -> order_le d latest = true).
Proof.
  intros Htotal Htrans Hopen Hclean Htable Hcolumn dates.
  assert (Hrun :
    fst (get_latest_transaction_date schema order_le table_name date_column c)
    = Ok (match head (sort_desc order_le dates) with
          | Some latest => latest
          | None => VNone
          end)).
  { unfold get_latest_transaction_date, try_except, bind.
    rewrite (cursor_open c Hopen).
    rewrite (select_latest_ok table_name date_column rows (log CallCursor c)
               Hopen Hclean Htable Hcolumn).
    fold dates. now destruct (head (sort_desc order_le dates)). }
  pose proof (head_sort_desc dates Htotal Htrans) as Hhead.
  split.
  - intros ->. exact Hrun.
  - intros Hne. destruct (head (sort_desc order_le dates)) as [latest|].
    + exists latest. split; [exact Hrun | exact Hhead].
    + destruct rows; [congruence | discriminate].
Qed.

End Store.

(** *** The order of a text column *)

Section TextOrder.

Lemma string_compare_trans (s1 s2 s3 : string) :
  String.compare s1 s2 <> Gt ->
  String.compare s2 s3 <> Gt ->
  String.compare s1 s3 <> Gt.
Proof.
  revert s2 s3. induction s1 as [|c1 s1 IH]; intros [|c2 s2] [|c3 s3];
    simpl; try congruence.
  unfold Ascii.compare.
  destruct (N.compare_spec (N_of_ascii c1) (N_of_ascii c2)) as [H12|H12|H12];
    try congruence;
  destruct (N.compare_spec (N_of_ascii c2) (N_of_ascii c3)) as [H23|H23|H23];
    try congruence; intros Ha Hb.
  - rewrite H12, H23, N.compare_refl. now apply (IH s2 s3).
  - rewrite H12, (proj2 (N.compare_lt_iff _ _) H23). congruence.
  - rewrite <- H23, (proj2 (N.compare_lt_iff _ _) H12). congruence.
  - rewrite (proj2 (N.compare_lt_iff _ _) (N.lt_trans _ _ _ H12 H23)).
    congruence.
Qed.

Lemma string_leb_trans (s1 s2 s3 : string) :
  String.leb s1 s2 = true -> String.leb s2 s3 = true ->
  String.leb s1 s3 = true.
Proof.
  unfold String.leb. intros H12 H23.
  pose proof (string_compare_trans s1 s2 s3) as H.
  destruct (String.compare s1 s2); try discriminate;
    destruct (String.compare s2 s3); try discriminate;
    destruct (String.compare s1 s3); try reflexivity;
    exfalso; apply H; congruence.
Qed.

Lemma text_le_total (a b : value) :
  Samples.text_le a b = true \/ Samples.text_le b a = true.
Proof.
  destruct a, b; simpl; auto. apply String.leb_total.
Qed.

Lemma text_le_trans (a b d : value) :
  Samples.text_le a b = true -> Samples.text_le b d = true ->
  Samples.text_le a d = true.
Proof.
  destruct a, b, d; simpl; try congruence. apply string_leb_trans.
Qed.

End TextOrder.

Lemma latest_date_is_maximum_witness :
  fst (Db.get_latest_transaction_date Samples.plain_schema Samples.text_le
         "condo_transactions" "contract_date"
         (Db.connect Samples.dated_table))
  = Ok (VStr "2024-06-15") /\
  fst (Db.get_latest_transaction_date Samples.plain_schema Samples.text_le
         "condo_transactions" "contract_date"
         (Db.connect Samples.empty_tables))
  = Ok VNone.
Proof.
  split.
  - destruct (proj2 (latest_date_is_maximum Samples.plain_schema
                       Samples.text_le "condo_transactions" "contract_date"
                       [Samples.dated "2023-01-01"; Samples.dated "2024-06-15";
                        Samples.dated "2023-11-02"]
                       (Db.connect Samples.dated_table)
                       text_le_total text_le_trans eq_refl eq_refl eq_refl
                       eq_refl))
      as (latest & Hrun & _); [discriminate|].
    rewrite Hrun. vm_compute in Hrun. symmetry. exact Hrun.
  - apply (proj1 (latest_date_is_maximum Samples.plain_schema
                    Samples.text_le "condo_transactions" "contract_date" []
                    (Db.connect Samples.empty_tables)
                    text_le_total text_le_trans eq_refl eq_refl eq_refl
                    eq_refl)).
    reflexivity.
Defined.


(** The run behind the witness: the second of three chunks is rejected and
    rolled back, the first and the third are stored. *)
Example one_bad_chunk_of_three :
  let run := Db.insert_transactions Samples.strict_schema "condo_transactions"
               Samples.three_records 1 (Db.connect Samples.empty_tables) in
  fst run = Ok 2%Z /\
  Db.committed (snd run) !! "condo_transactions"
  = Some [Samples.skyline_record; Samples.parkview_record] /\
  List.filter Notions.ends_transaction (Db.calls (snd run))
  = [Db.CallCommit; Db.CallRollback; Db.CallCommit].
Proof. vm_compute. repeat split. Qed.

(** ** The count that [insert_transactions] returns *)

(** C3 at a concrete input: two distinct records go into an empty table in
    one chunk; both rows are stored, and the result is 1, the row count of
    the chunk's last statement. *)
Theorem insert_count_is_last_rowcount :
  let before := Db.connect Samples.empty_tables in
  let run := Db.insert_transactions Samples.plain_schema "condo_transactions"
               Samples.two_records 1000 before in
  Db.committed before !! "condo_transactions" = Some [] /\
  Db.committed (snd run) !! "condo_transactions" = Some Samples.two_records /\
  fst run = Ok 1%Z.
Proof. vm_compute. repeat split. Qed.

(** C6 at a concrete input: the first call with two distinct records stores
    both and returns 1, not 2; the second call with the same records returns
    0 and leaves the tables as the first call left them. *)
Theorem insert_twice_first_count :
  let first := Db.insert_transactions Samples.plain_schema "condo_transactions"
                 Samples.two_records 1000 (Db.connect Samples.empty_tables) in
  let second := Db.insert_transactions Samples.plain_schema "condo_transactions"
                  Samples.two_records 1000 (snd first) in
  fst first = Ok 1%Z /\
  length Samples.two_records = 2 /\
  Db.committed (snd first) !! "condo_transactions" = Some Samples.two_records /\
  fst second = Ok 0%Z /\
  Db.committed (snd second) = Db.committed (snd first).
Proof. vm_compute. repeat split. Qed.

(** ** The top-level run *)

Section Shutdown.

Import Scraper Db Main.

Variable upper : string -> string.
Variable send : nat -> string -> Z -> http_outcome.
Variable now : nat -> string.
Variable schema : string -> table_schema.
Variable order_le : value -> value -> bool.
Variable server : option store.

(** A run that ends with exit code 0 has closed its connection. *)
Lemma main_success_released (cfg : Config) (args : Args) (w w' : world) :
  main upper send now schema order_le server cfg args w = (Ok 0%Z, w') ->
  exists c, db_client w' = Some c /\ closed c = true.
Proof.
  unfold main, try_except.
  match goal with
  | |- context [match ?body w with _ => _ end] =>
      destruct (body w) as [[code|e] w1] eqn:Hbody
  end.
  - intros H. injection H as -> ->. revert Hbody.
    unfold bind at 1. destruct (lift_res (validate cfg) w) as [[[]|e] w2];
      [|discriminate].
    unfold bind at 1. destruct (DatabaseClient server w2) as [[[]|e] w3];
      [|discriminate].
    unfold bind at 1.
    match goal with
    | |- context [match ?step w3 with _ => _ end] =>
        destruct (step w3) as [[[]|e] w4]; [|discriminate]
    end.
    unfold bind at 1, on_db, close, ret.
    destruct (db_client w4) as [c|]; [|discriminate].
    intros H. injection H as <-. simpl. eexists. split; reflexivity.
  - destruct (is_Exception e); [|discriminate].
    destruct (is_ValueError e); unfold ret; intros H; discriminate.
Qed.

(** A run stopped by a configuration error has made no connection. *)
Lemma main_configuration_error (cfg : Config) (args : Args) (w : world) :
  validate cfg = Raise ValueError ->
  main upper send now schema order_le server cfg args w = (Ok 1%Z, w).
Proof.
  intros Hcfg. unfold main, try_except, bind at 1, lift_res.
  now rewrite Hcfg.
Qed.

End Shutdown.

(** C9 at a concrete input: the response holds a transaction whose
    [propertyType] is null; the classification raises, the run ends with exit
    code 1, and the connection it had made is still open: [close] was not
    called. *)
Theorem main_fatal_error_keeps_connection :
  let run := Main.main Samples.ascii_upper Samples.send_untyped Samples.clock0
               Samples.plain_schema Samples.text_le (Some Samples.empty_tables)
               Samples.config_ok Samples.args_default Samples.world0 in
  fst run = Ok 1%Z /\
  Main.released (snd run) = false /\
  exists c,
    Main.db_client (snd run) = Some c /\
    Db.closed c = false /\
    ~ In Db.CallClose (Db.calls c).
Proof.
  vm_compute. repeat split. eexists. repeat split. intros [].
Qed.

(** The same run on a well-typed response ends with exit code 0 and the
    connection closed. *)
Example main_normal_completion :
  let run := Main.main Samples.ascii_upper Samples.send_skyline Samples.clock0
               Samples.plain_schema Samples.text_le (Some Samples.empty_tables)
               Samples.config_ok Samples.args_default Samples.world0 in
  fst run = Ok 0%Z /\ Main.released (snd run) = true.
Proof. vm_compute. split; reflexivity. Qed.

(** * Further properties of the client, the store and the run *)

(** ** Requests and responses *)

Section Requests.

Import Scraper Notions.

Variable upper : string -> string.
Variable send : nat -> string -> Z -> http_outcome.
Variable now : nat -> string.

(** X1: [_make_request] returns the body of the first attempt that succeeds
    among its three, and has then sent exactly one request per attempt
    made. *)
Theorem make_request_first_success (service : string) (batch : Z) (w : net)
    (k : nat) (body : value) :
  k < 3 ->
  (forall j, j < k ->
     send (length (requests w) + j) service batch = HttpFailure) ->
  send (length (requests w) + k) service batch = HttpBody body ->
  _make_request send service batch w
  = (Ok body, sent (S k) service batch w).
Proof.
  intros Hk Hfail Hbody. rewrite make_request_cases. cbv zeta.
  destruct k as [|[|[|k]]]; [| | |lia].
  - rewrite Nat.add_0_r in Hbody. now rewrite Hbody.
  - pose proof (Hfail 0) as H0. rewrite Nat.add_0_r in H0.
    rewrite H0 by lia. now rewrite Hbody.
  - pose proof (Hfail 0) as H0. rewrite Nat.add_0_r in H0.
    rewrite H0, (Hfail 1) by lia. now rewrite Hbody.
Qed.

Lemma make_request_sends_bounded (service : string) (batch : Z) (w : net) :
  exists k, 1 <= k <= 3 /\
    snd (_make_request send service batch w) = sent k service batch w.
Proof.
  rewrite make_request_cases. cbv zeta.
  destruct (send (length (requests w)) service batch);
    [|exists 1; split; [lia | reflexivity]].
  destruct (send (length (requests w) + 1) service batch);
    [|exists 2; split; [lia | reflexivity]].
  destruct (send (length (requests w) + 2) service batch);
    exists 3; (split; [lia | reflexivity]).
Qed.

Lemma fetch_requests_bounded (batch : Z) (w : net) :
  exists k, 1 <= k <= 3 /\
    requests (snd (get_private_residential_transactions send now batch w))
    = requests w ++ repeat ("PMI_Resi_Transaction", batch) k.
Proof.
  destruct (make_request_sends_bounded "PMI_Resi_Transaction" batch w)
    as (k & Hk & Hs).
  destruct (get_private_residential_transactions_requests send now batch w)
    as (k' & _ & Hreqs).
  destruct (make_request_sends send "PMI_Resi_Transaction" batch w)
    as (k'' & _ & Hs'').
  exists k. split; [exact Hk|].
  unfold get_private_residential_transactions, try_except, fetch_and_flatten.
  unfold bind at 1.
  destruct (_make_request send "PMI_Resi_Transaction" batch w)
    as [[data|e] w1]; simpl in Hs; subst w1; [|reflexivity].
  destruct (truthy data); cbn [negb]; [|reflexivity].
  unfold bind at 1, lift_res at 1.
  destruct (str_in "Result" data) as [[|]|e]; cbn [negb]; try reflexivity.
  unfold bind at 1, lift_res at 1.
  destruct (get data "Result" (VList [])) as [result|e]; [|reflexivity].
  unfold bind at 1, lift_res at 1.
  destruct (iter result) as [projects|e]; [|reflexivity].
  pose proof (for_each_state (fun s s' => requests s' = requests s) projects
                (project_transactions now batch)
                (fun s => eq_refl)
                (fun s1 s2 s3 H12 H23 => eq_trans H23 H12)
                (project_transactions_requests now batch)
                [] (sent k "PMI_Resi_Transaction" batch w)) as Hloop.
  destruct (for_each projects (project_transactions now batch) []
              (sent k "PMI_Resi_Transaction" batch w)) as [[recs|e] w2];
    simpl in *; exact Hloop.
Qed.

(** X2: whatever the server answers, the single-batch fetch raises nothing:
    it returns a list of records tagged with its batch, after one to three
    requests, all of them for that batch. *)
Theorem single_batch_fetch_never_raises (batch : Z) (w : net) :
  exists recs w' k,
    get_private_residential_transactions send now batch w = (Ok recs, w') /\
    Forall (from_batch batch) recs /\
    1 <= k <= 3 /\
    requests w' = requests w ++ repeat ("PMI_Resi_Transaction", batch) k.
Proof.
  destruct (get_private_residential_transactions_total send now batch w)
    as (recs & w' & Hrun & Hrecs).
  destruct (fetch_requests_bounded batch w) as (k & Hk & Hreqs).
  rewrite Hrun in Hreqs. exists recs, w', k. auto.
Qed.

(** X3: a response that is empty, or that has no [Result], gives no record,
    and the clock is not read. *)
Theorem response_without_result (batch : Z) (w w' : net) (data : value) :
  _make_request send "PMI_Resi_Transaction" batch w = (Ok data, w') ->
  truthy data = false \/ str_in "Result" data = Ok false ->
  get_private_residential_transactions send now batch w = (Ok [], w').
Proof.
  intros Hreq Hdata.
  unfold get_private_residential_transactions, try_except, fetch_and_flatten.
  unfold bind at 1. rewrite Hreq.
  destruct (truthy data); cbn [negb]; [|reflexivity].
  destruct Hdata as [Hfalse | Hnone]; [discriminate|].
  unfold bind at 1, lift_res at 1. now rewrite Hnone.
Qed.

Lemma for_each_app {S A B} (xs ys : list A)
    (body : A -> list B -> M S (list B)) :
  forall acc s,
    for_each (xs ++ ys) body acc s
    = match for_each xs body acc s with
      | (Ok acc', s') => for_each ys body acc' s'
      | (Raise e, s') => (Raise e, s')
      end.
Proof.
  induction xs as [|x xs IH]; intros acc s; simpl; [reflexivity|].
  unfold bind. destruct (body x acc s) as [[acc1|e] s1]; [apply IH | reflexivity].
Qed.

(** X4: one project that is no object costs the whole batch: the records
    flattened from the projects before it are dropped and the fetch returns
    the empty list. *)
Theorem malformed_project_discards_batch (batch : Z) (w w' : net)
    (kvs : list (string * value)) (good rest : list value) (bad : value) :
  _make_request send "PMI_Resi_Transaction" batch w = (Ok (VDict kvs), w') ->
  assoc "Result" kvs = Some (VList (good ++ bad :: rest)) ->
  Forall is_project good ->
  ~ is_dict bad ->
  fst (get_private_residential_transactions send now batch w) = Ok [].
Proof.
  intros Hreq Hresult Hgood Hbad.
  unfold get_private_residential_transactions, try_except, fetch_and_flatten.
  unfold bind at 1. rewrite Hreq.
  destruct kvs as [|kv kvs']; [discriminate|].
  cbn [truthy negb]. unfold bind at 1, lift_res at 1. cbn [str_in].
  rewrite Hresult. cbn [negb]. unfold bind at 1, lift_res at 1. cbn [get].
  unfold dict_get. rewrite Hresult.
  unfold bind at 1, lift_res at 1. cbn [iter].
  rewrite for_each_app.
  destruct (projects_loop_ok now batch good Hgood [] w')
    as (groups & Hloop & _).
  rewrite Hloop. cbn [for_each]. unfold bind at 1.
  assert (Hraise : forall acc s,
            project_transactions now batch bad acc s = (Raise AttributeError, s)).
  { intros acc s. destruct bad; try reflexivity.
    exfalso. apply Hbad. now eexists. }
  now rewrite Hraise.
Qed.

Lemma fetch_batches_requests (batches : list Z) :
  forall (acc : list record) (w : net),
  exists counts,
    length counts = length batches /\
    Forall (fun k => 1 <= k <= 3) counts /\
    requests
      (snd (for_each batches
              (fun batch acc =>
                 transactions <-
                   get_private_residential_transactions send now batch ;;
                 ret (acc ++ transactions))
              acc w))
    = requests w
      ++ concat (zip_with (fun batch k =>
                             repeat ("PMI_Resi_Transaction", batch) k)
                   batches counts).
Proof.
  induction batches as [|b batches IH]; intros acc w.
  - exists []. simpl. rewrite app_nil_r. repeat split. constructor.
  - destruct (get_private_residential_transactions_total send now b w)
      as (recs & w1 & Hrun & _).
    destruct (fetch_requests_bounded b w) as (k & Hk & Hreqs).
    rewrite Hrun in Hreqs. simpl in Hreqs.
    destruct (IH (acc ++ recs) w1) as (counts & Hlen & Hall & Hrest).
    exists (k :: counts). split; [simpl; now rewrite Hlen|].
    split; [now constructor|].
    simpl. unfold bind at 1. unfold bind at 1. rewrite Hrun. unfold ret at 1.
    rewrite Hrest, Hreqs. now rewrite <- app_assoc.
Qed.

(** X5: the fetch of all batches asks for the batches 1, 2, 3, 4 in this
    order, each one to three times: between 4 and 12 requests, none for
    another service or batch. *)
Theorem fetch_all_request_sequence (w : net) :
  exists k1 k2 k3 k4,
    1 <= k1 <= 3 /\ 1 <= k2 <= 3 /\ 1 <= k3 <= 3 /\ 1 <= k4 <= 3 /\
    requests (snd (get_all_available_transactions upper send now w))
    = requests w
      ++ repeat ("PMI_Resi_Transaction", 1%Z) k1
      ++ repeat ("PMI_Resi_Transaction", 2%Z) k2
      ++ repeat ("PMI_Resi_Transaction", 3%Z) k3
      ++ repeat ("PMI_Resi_Transaction", 4%Z) k4.
Proof.
  destruct (fetch_batches_requests [1; 2; 3; 4]%Z [] w)
    as (counts & Hlen & Hall & Hreqs).
  destruct counts as [|k1 [|k2 [|k3 [|k4 [|k5 counts]]]]]; try discriminate.
  inversion Hall as [|? ? H1 Hall1]; subst.
  inversion Hall1 as [|? ? H2 Hall2]; subst.
  inversion Hall2 as [|? ? H3 Hall3]; subst.
  inversion Hall3 as [|? ? H4 _]; subst.
  exists k1, k2, k3, k4. repeat (split; [assumption|]).
  unfold get_all_available_transactions, bind, fetch_batches.
  destruct (for_each [1; 2; 3; 4]%Z
              (fun batch acc =>
                 transactions <-
                   get_private_residential_transactions send now batch ;;
                 ret (acc ++ transactions)) [] w) as [[all|e] w1];
    simpl in Hreqs |- *; unfold lift_res; simpl;
    rewrite Hreqs, app_nil_r; reflexivity.
Qed.

(** X6: the classification loop raises exactly when some record's
    [property_type] is no string, and then it is [AttributeError]; the records
    before it are lost with the rest. *)
Theorem separate_raises_iff (txns : list record) :
  (separate upper txns [] [] = Raise AttributeError <->
   Exists (fun txn => property_type_text txn = None) txns) /\
  (forall e, separate upper txns [] [] = Raise e -> e = AttributeError).
Proof.
  assert (Hgen : forall txns condo0 landed0,
            (separate upper txns condo0 landed0 = Raise AttributeError <->
             Exists (fun txn => property_type_text txn = None) txns) /\
            (forall e, separate upper txns condo0 landed0 = Raise e ->
                       e = AttributeError)).
  { clear txns. induction txns as [|txn txns IH]; intros condo0 landed0.
    - simpl. split; [split; [discriminate | intros H; inversion H]|].
      intros e H. discriminate.
    - cbn [separate].
      destruct (dict_get txn "property_type" (VStr "")) eqn:Hget;
        cbn [str_upper];
        try (split; [split; [intros _; apply Exists_cons_hd;
                             unfold property_type_text; now rewrite Hget
                            | reflexivity]
                    | intros e H; now injection H as <-]).
      assert (Hpt : property_type_text txn = Some s)
        by (unfold property_type_text; now rewrite Hget).
      destruct (any_landed_type (upper s)).
      + destruct (IH condo0 (landed0 ++ [txn])) as [Hiff Honly].
        split; [|exact Honly]. rewrite Hiff, Exists_cons. split; [tauto|].
        intros [H | H]; [cbv beta in H; congruence | exact H].
      + destruct (IH (condo0 ++ [txn]) landed0) as [Hiff Honly].
        split; [|exact Honly]. rewrite Hiff, Exists_cons. split; [tauto|].
        intros [H | H]; [cbv beta in H; congruence | exact H]. }
  apply Hgen.
Qed.

End Requests.

(** ** Rental records *)

Section Rentals.

Import Scraper Notions.

Variable send : nat -> string -> Z -> http_outcome.
Variable now : nat -> string.

Lemma rental_record_ok (pn st x y : value) (batch : Z)
    (t : list (string * value)) (w : net) :
  exists rec,
    rental_record now pn st x y batch (VDict t) w = (Ok rec, ticked 1 w) /\
    keys rec = RENTAL_KEYS /\
    assoc "batch" rec = Some (VInt batch).
Proof. eexists. split; [reflexivity|]. split; reflexivity. Qed.

Lemma project_rentals_keys (batch : Z) (project : value)
    (acc acc' : list record) (w w' : net) :
  Forall (fun rec => keys rec = RENTAL_KEYS /\
                     assoc "batch" rec = Some (VInt batch)) acc ->
  project_rentals now batch project acc w = (Ok acc', w') ->
  Forall (fun rec => keys rec = RENTAL_KEYS /\
                     assoc "batch" rec = Some (VInt batch)) acc'.
Proof.
  intros Hacc Hrun.
  destruct project as [| | | | |p]; try discriminate.
  unfold project_rentals in Hrun. revert Hrun. run_py.
  destruct (iter (dict_get p "rental" (VList []))) as [items|e];
    [|discriminate].
  apply for_each_invariant; [|exact Hacc].
  clear. intros item acc s acc' s' Hacc Hrun.
  destruct item as [| | | | |t]; try (cbv in Hrun; discriminate).
  destruct (rental_record_ok (dict_get p "project" (VStr ""))
              (dict_get p "street" (VStr "")) (dict_get p "x" (VStr ""))
              (dict_get p "y" (VStr "")) batch t s)
    as (rec & Hrec & Hkeys & Hbatch).
  rewrite Hrec in Hrun. injection Hrun as <- <-.
  apply Forall_app. split; [exact Hacc | now repeat constructor].
Qed.

Lemma rental_fetch_total (batch : Z) (w : net) :
  exists recs w',
    get_rental_transactions send now batch w = (Ok recs, w') /\
    Forall (fun rec => keys rec = RENTAL_KEYS /\
                       assoc "batch" rec = Some (VInt batch)) recs.
Proof.
  unfold get_rental_transactions, try_except.
  match goal with
  | |- context [match ?body w with _ => _ end] =>
      destruct (body w) as [[recs|e] w'] eqn:Hrun
  end.
  - exists recs, w'. split; [reflexivity|]. revert Hrun.
    unfold bind at 1.
    destruct (_make_request send "PMI_Resi_Rental" batch w)
      as [[data|e] w1]; [|discriminate].
    destruct (truthy data); cbn [negb].
    + unfold bind at 1, lift_res at 1.
      destruct (str_in "Result" data) as [[|]|e]; cbn [negb];
        try discriminate.
      * unfold bind at 1, lift_res at 1.
        destruct (get data "Result" (VList [])) as [result|e]; [|discriminate].
        unfold bind at 1, lift_res at 1.
        destruct (iter result) as [projects|e]; [|discriminate].
        apply for_each_invariant; [|constructor].
        intros project acc s acc' s'. apply project_rentals_keys.
      * unfold ret. intros H. injection H as <- <-. constructor.
    + unfold ret. intros H. injection H as <- <-. constructor.
  - exists [], w'. split; [reflexivity | constructor].
Qed.

(** X7: the rental fetch raises nothing either; every record it returns has
    the eleven keys of its dictionary literal, in that order, and carries the
    batch number. *)
Theorem rental_fetch_never_raises (batch : Z) (w : net) :
  exists recs w',
    get_rental_transactions send now batch w = (Ok recs, w') /\
    Forall (fun rec => keys rec = RENTAL_KEYS /\
                       assoc "batch" rec = Some (VInt batch)) recs.
Proof.
  destruct (rental_fetch_total batch w) as (recs & w' & Hrun & Hrecs).
  exists recs, w'. split; [exact Hrun | exact Hrecs].
Qed.

End Rentals.

(** ** What an insert does to the tables *)

Section Growth.

Import Db Notions.

Variable schema : string -> table_schema.

Lemma grows_trans (table : string) (w1 w2 w3 : store) :
  grows schema table w1 w2 -> grows schema table w2 w3 ->
  grows schema table w1 w3.
Proof.
  induction 1 as [w | w w' rows r Hrows Hacc Hfree _ IH]; intros H23;
    [exact H23|].
  eapply grows_step; eauto.
Qed.

Lemma grows_other (table other : string) (w w' : store) :
  grows schema table w w' -> other <> table -> w' !! other = w !! other.
Proof.
  induction 1 as [w | w w' rows r _ _ _ _ IH]; intros Hne; [reflexivity|].
  rewrite IH by exact Hne. apply lookup_insert_ne. congruence.
Qed.

Lemma grows_prefix (table : string) (w w' : store) :
  grows schema table w w' ->
  forall stored, w !! table = Some stored ->
  exists extra, w' !! table = Some (stored ++ extra).
Proof.
  induction 1 as [w | w w' rows r Hrows _ _ _ IH]; intros stored Hstored.
  - exists []. now rewrite app_nil_r.
  - rewrite Hrows in Hstored. injection Hstored as <-.
    destruct (IH (rows ++ [r])) as [extra Hextra];
      [apply lookup_insert_eq|].
    exists ([r] ++ extra). now rewrite app_assoc.
Qed.

Lemma grows_missing (table : string) (w w' : store) :
  grows schema table w w' -> w !! table = None -> w' = w.
Proof.
  destruct 1 as [w | w w' rows r Hrows _ _ _]; intros Hnone;
    [reflexivity | congruence].
Qed.

Lemma conflict_free_snoc (table : string) (rows : list row) (r : row) :
  conflict_free schema table rows ->
  existsb (conflicts (schema table) r) rows = false ->
  conflict_free schema table (rows ++ [r]).
Proof.
  intros Hfree Hr before r' after Heq.
  destruct after as [|a after'] using rev_ind.
  - apply app_inj_tail in Heq as [<- <-]. exact Hr.
  - rewrite app_comm_cons, app_assoc in Heq.
    apply app_inj_tail in Heq as [-> _].
    eapply Hfree. reflexivity.
Qed.

Lemma grows_conflict_free (table : string) (w w' : store) :
  grows schema table w w' ->
  forall stored, w !! table = Some stored ->
  conflict_free schema table stored ->
  exists stored', w' !! table = Some stored' /\
                  conflict_free schema table stored'.
Proof.
  induction 1 as [w | w w' rows r Hrows _ Hfree _ IH]; intros stored Hstored Hcf.
  - exists stored. auto.
  - rewrite Hrows in Hstored. injection Hstored as <-.
    apply (IH (rows ++ [r])); [apply lookup_insert_eq|].
    now apply conflict_free_snoc.
Qed.

Lemma advances_refl (table : string) (c : connection) : advances schema table c c.
Proof. repeat split. constructor. Qed.

Lemma advances_trans (table : string) (c1 c2 c3 : connection) :
  advances schema table c1 c2 -> advances schema table c2 c3 -> advances schema table c1 c3.
Proof.
  intros (Hg & Hc & Ho) (Hg' & Hc' & Ho').
  repeat split; [eapply grows_trans; eassumption | congruence | congruence].
Qed.

Lemma insert_or_skip_advances (table : string) (r : row) (c : connection) :
  advances schema table c (snd (insert_or_skip schema table r c)).
Proof.
  unfold insert_or_skip.
  destruct (closed c || aborted c); [apply advances_refl|].
  destruct (working c !! table) as [rows|] eqn:Hrows;
    [|split; [constructor | split; reflexivity]].
  destruct (accepts (schema table) r) eqn:Hacc; cbn [negb];
    [|split; [constructor | split; reflexivity]].
  destruct (existsb (conflicts (schema table) r) rows) eqn:Hfree;
    [apply advances_refl|].
  split; [|split; reflexivity]. cbn [snd working set_working].
  eapply grows_step; eauto. constructor.
Qed.

Lemma execute_statements_advances (table : string) (rows : list row) :
  forall (rowcount : Z) (c : connection),
    advances schema table c (snd (execute_statements schema table rows rowcount c)).
Proof.
  induction rows as [|r rows IH]; intros rowcount c; simpl.
  - apply advances_refl.
  - unfold bind. pose proof (insert_or_skip_advances table r c) as Hr.
    destruct (insert_or_skip schema table r c) as [[n|e] c1]; simpl in *.
    + eapply advances_trans; [exact Hr | apply IH].
    + exact Hr.
Qed.

Lemma execute_pages_advances (table : string) (columns : list string)
    (pages : list (list (list value))) :
  forall (rowcount : Z) (c : connection),
    advances schema table c
      (snd (execute_pages schema table columns pages rowcount c)).
Proof.
  induction pages as [|page pages IH]; intros rowcount c; simpl.
  - apply advances_refl.
  - unfold bind at 1.
    assert (Hp : advances schema table c
                   (snd (execute_page schema table columns page rowcount c))).
    { unfold execute_page, bind, lift_res.
      destruct (mogrify_all (length columns) page) as [[]|e];
        [apply execute_statements_advances | apply advances_refl]. }
    destruct (execute_page schema table columns page rowcount c)
      as [[n|e] c1]; simpl in *.
    + eapply advances_trans; [exact Hp | apply IH].
    + exact Hp.
Qed.

Lemma execute_batch_advances (table : string) (columns : list string)
    (argslist : list (list value)) (c : connection) :
  advances schema table c (snd (execute_batch schema table columns argslist c)).
Proof.
  unfold execute_batch.
  destruct (execute_pages_advances table columns (paginate 100 argslist)
              (-1)%Z (log (CallExecuteBatch table columns argslist) c))
    as (Hg & Hc & Ho).
  repeat split; assumption.
Qed.

(** Chunk by chunk, the durable tables change by [grows], and after each
    chunk nothing is pending. *)
Lemma processed_grows (table : string) (c c' : connection)
    (chunks : list (list row)) (outcomes : list (option Z)) :
  processed schema table c chunks outcomes c' ->
  committed c = working c ->
  grows schema table (committed c) (committed c') /\
  committed c' = working c' /\
  (chunks <> [] -> aborted c' = false /\ closed c' = false).
Proof.
  induction 1 as [c | c c1 c2 c3 first others n rest outcomes Hbatch Hcommit
                        Hproc IH
                  | c c1 c2 c3 first others rest outcomes Hbatch Hroll Hcm Hwk
                        Hproc IH];
    intros Hsync.
  - split; [constructor|]. split; [exact Hsync | congruence].
  - pose proof (execute_batch_advances table (keys first)
                  (map values (first :: others)) c) as (Hg & Hc & Ho).
    rewrite Hbatch in Hg, Hc, Ho. cbn [snd] in Hg, Hc, Ho.
    assert (Hc2 : grows schema table (committed c) (committed c2) /\
                  committed c2 = working c2 /\
                  aborted c2 = false /\ closed c2 = false).
    { revert Hcommit. unfold commit.
      destruct (closed c1); [discriminate|].
      destruct (aborted c1); intros H; injection H as <-;
        cbn [committed working aborted closed].
      - rewrite Hc. repeat split. constructor.
      - rewrite Hsync. repeat split. exact Hg. }
    destruct Hc2 as (Hg2 & Hsync2 & Hab2 & Hop2).
    destruct (IH Hsync2) as (Hg3 & Hsync3 & Hlast).
    split; [eapply grows_trans; eassumption|]. split; [exact Hsync3|].
    intros _. destruct rest as [|chunk rest'].
    + inversion Hproc; subst. auto.
    + apply Hlast. discriminate.
  - assert (Hc2 : aborted c2 = false /\ closed c2 = false).
    { revert Hroll. unfold rollback. destruct (closed c1); [discriminate|].
      intros H. injection H as <-. auto. }
    destruct (IH (eq_trans Hcm (eq_sym Hwk))) as (Hg3 & Hsync3 & Hlast).
    rewrite Hcm in Hg3. split; [exact Hg3|]. split; [exact Hsync3|].
    intros _. destruct rest as [|chunk rest'].
    + inversion Hproc; subst. exact Hc2.
    + apply Hlast. discriminate.
Qed.

End Growth.

Section StoredTables.

Import Db Notions.

Variable schema : string -> table_schema.
Variable order_le : value -> value -> bool.

Lemma processed_clean (table : string) (c c' : connection)
    (chunks : list (list row)) (outcomes : list (option Z)) :
  processed schema table c chunks outcomes c' ->
  chunks <> [] ->
  committed c' = working c' /\ aborted c' = false /\ closed c' = false.
Proof.
  induction 1 as [c | c c1 c2 c3 first others n rest outcomes Hbatch Hcommit
                        Hproc IH
                  | c c1 c2 c3 first others rest outcomes Hbatch Hroll Hcm Hwk
                        Hproc IH];
    intros Hne; [congruence | |].
  - destruct rest as [|chunk rest']; [|apply IH; discriminate].
    inversion Hproc; subst. revert Hcommit. unfold commit.
    destruct (closed c1); [discriminate|].
    destruct (aborted c1); intros H; injection H as <-; auto.
  - destruct rest as [|chunk rest']; [|apply IH; discriminate].
    inversion Hproc; subst. revert Hroll. unfold rollback.
    destruct (closed c1); [discriminate|].
    intros H. injection H as <-. auto.
Qed.

(** X8: an insert leaves no transaction behind: for records with one value
    per column it returns a count, and afterwards the transaction's view is
    the durable state, nothing is aborted and the connection is open, also
    when chunks failed. *)
Theorem insert_leaves_nothing_pending (table_name : string)
    (transactions : list row) (batch_size : Z) (k : nat) (c : connection) :
  transactions <> [] ->
  (0 < batch_size)%Z ->
  closed c = false ->
  Forall (fun r => length r = k) transactions ->
  exists total c',
    insert_transactions schema table_name transactions batch_size c
    = (Ok total, c') /\
    working c' = committed c' /\
    aborted c' = false /\
    closed c' = false.
Proof.
  intros Hne Hpos Hopen Huniform.
  destruct (insert_transactions_chunked schema table_name transactions
              batch_size k c Hne Hpos Hopen Huniform)
    as (outcomes & c' & Hproc & Hrun).
  destruct (processed_clean _ _ _ _ _ Hproc (chunks_of_nonempty _ _ Hne))
    as (Hsync & Hab & Hop).
  exists (inserted_total outcomes), (log CallCursorClose c').
  split; [exact Hrun|]. cbn [working committed aborted closed log]. auto.
Qed.

(** X9: an insert only appends to its table: the rows stored before are
    still there, in place, and every other table is as it was.  A table that
    does not exist is not created. *)
Theorem insert_keeps_stored_rows (table_name : string)
    (transactions : list row) (batch_size : Z) (k : nat) (c : connection) :
  transactions <> [] ->
  (0 < batch_size)%Z ->
  closed c = false ->
  committed c = working c ->
  Forall (fun r => length r = k) transactions ->
  let after :=
    committed
      (snd (insert_transactions schema table_name transactions batch_size c)) in
  (forall other, other <> table_name ->
     after !! other = committed c !! other) /\
  (forall stored, committed c !! table_name = Some stored ->
     exists extra, after !! table_name = Some (stored ++ extra)) /\
  (committed c !! table_name = None -> after = committed c).
Proof.
  intros Hne Hpos Hopen Hsync Huniform after.
  destruct (insert_transactions_chunked schema table_name transactions
              batch_size k c Hne Hpos Hopen Huniform)
    as (outcomes & c' & Hproc & Hrun).
  destruct (processed_grows schema _ _ _ _ _ Hproc Hsync) as (Hgrows & _).
  subst after. rewrite Hrun. cbn [snd committed log] in *.
  split; [|split].
  - intros other Hother. eapply grows_other; eassumption.
  - intros stored Hstored. eapply grows_prefix; eassumption.
  - intros Hnone. eapply grows_missing; eassumption.
Qed.

(** X10: insert-or-skip keeps the table free of duplicates: if no stored row
    collides with a row before it, this still holds after the insert. *)
Theorem insert_keeps_uniqueness (table_name : string)
    (transactions : list row) (batch_size : Z) (k : nat) (c : connection)
    (stored : list row) :
  transactions <> [] ->
  (0 < batch_size)%Z ->
  closed c = false ->
  committed c = working c ->
  Forall (fun r => length r = k) transactions ->
  committed c !! table_name = Some stored ->
  conflict_free schema table_name stored ->
  exists stored',
    committed
      (snd (insert_transactions schema table_name transactions batch_size c))
    !! table_name = Some stored' /\
    conflict_free schema table_name stored'.
Proof.
  intros Hne Hpos Hopen Hsync Huniform Hstored Hfree.
  destruct (insert_transactions_chunked schema table_name transactions
              batch_size k c Hne Hpos Hopen Huniform)
    as (outcomes & c' & Hproc & Hrun).
  destruct (processed_grows schema _ _ _ _ _ Hproc Hsync) as (Hgrows & _).
  rewrite Hrun. cbn [snd committed log] in *.
  eapply grows_conflict_free; eassumption.
Qed.

Lemma fst_absorb_rowcount (table : string) (rows : list row) :
  forall (stored : list row) (rc rc' : Z),
    fst (absorb schema table stored rc rows)
    = fst (absorb schema table stored rc' rows).
Proof.
  induction rows as [|r rows IH]; intros stored rc rc'; simpl; [reflexivity|].
  destruct (existsb (conflicts (schema table) r) stored); reflexivity.
Qed.

Lemma processed_absorb (table : string) (columns : list string)
    (c c' : connection) (chunks : list (list row))
    (outcomes : list (option Z)) :
  processed schema table c chunks outcomes c' ->
  Forall (Forall (storable schema table columns)) chunks ->
  forall stored,
    closed c = false ->
    aborted c = false ->
    working c !! table = Some stored ->
    working c'
    = <[table := fst (absorb schema table stored 0%Z (concat chunks))]>
        (working c) /\
    closed c' = false /\
    aborted c' = false.
Proof.
  induction 1 as [c | c c1 c2 c3 first others n rest outcomes Hbatch Hcommit
                        Hproc IH
                  | c c1 c2 c3 first others rest outcomes Hbatch _ _ _ _ _];
    intros Hchunks stored Hopen Hclean Htable.
  - cbn [concat absorb fst]. rewrite insert_id by exact Htable. auto.
  - inversion Hchunks as [|? ? Hchunk Hrest]; subst.
    assert (Hcols : keys first = columns)
      by (inversion Hchunk as [|? ? [Hk _] _]; exact Hk).
    rewrite Hcols in Hbatch.
    rewrite (execute_batch_absorb schema table columns (first :: others)
               stored c Hchunk Hopen Hclean Htable) in Hbatch.
    injection Hbatch as <- <-.
    unfold commit in Hcommit. cbn [closed aborted set_working log] in Hcommit.
    rewrite Hopen, Hclean in Hcommit. injection Hcommit as <-.
    destruct (IH Hrest
                (fst (absorb schema table stored (-1)%Z (first :: others))))
      as (Hwork & Hopen' & Hclean'); try reflexivity.
    { cbn [working set_working log]. apply lookup_insert_eq. }
    split; [|auto]. rewrite Hwork. cbn [working set_working log concat].
    rewrite insert_insert_eq. f_equal.
    rewrite (absorb_app schema table (first :: others) (concat rest) stored 0%Z).
    rewrite (fst_absorb_rowcount table (first :: others) stored (-1)%Z 0%Z).
    apply fst_absorb_rowcount.
  - exfalso. inversion Hchunks as [|? ? Hchunk Hrest]; subst.
    assert (Hcols : keys first = columns)
      by (inversion Hchunk as [|? ? [Hk _] _]; exact Hk).
    rewrite Hcols in Hbatch.
    rewrite (execute_batch_absorb schema table columns (first :: others)
               stored c Hchunk Hopen Hclean Htable) in Hbatch.
    discriminate.
Qed.

Lemma insert_storable_state (table_name : string) (columns : list string)
    (transactions : list row) (batch_size : Z) (stored : list row)
    (c : connection) :
  transactions <> [] ->
  (0 < batch_size)%Z ->
  closed c = false ->
  aborted c = false ->
  working c !! table_name = Some stored ->
  Forall (storable schema table_name columns) transactions ->
  exists total c',
    insert_transactions schema table_name transactions batch_size c
    = (Ok total, c') /\
    closed c' = false /\
    aborted c' = false /\
    committed c' = working c' /\
    working c'
    = <[table_name := fst (absorb schema table_name stored 0%Z transactions)]>
        (working c).
Proof.
  intros Hne Hpos Hopen Hclean Htable Hstorable.
  assert (Huniform : Forall (fun r => length r = length columns) transactions).
  { eapply Forall_impl; [exact Hstorable|]. intros r (Hk & _).
    rewrite <- Hk. unfold keys. now rewrite length_map. }
  destruct (insert_transactions_chunked schema table_name transactions
              batch_size (length columns) c Hne Hpos Hopen Huniform)
    as (outcomes & c' & Hproc & Hrun).
  destruct (processed_absorb table_name columns _ _ _ _ Hproc
              (Forall_slices _ _ _ _ Hstorable) stored Hopen Hclean Htable)
    as (Hwork & Hopen' & Hclean'); try reflexivity.
  destruct (processed_clean _ _ _ _ _ Hproc (chunks_of_nonempty _ _ Hne))
    as (Hsync & _).
  destruct (chunks_of_concat (Z.to_nat batch_size) transactions) as [Hcat _];
    [lia|].
  rewrite Hcat in Hwork.
  exists (inserted_total outcomes), (log CallCursorClose c').
  split; [exact Hrun|]. cbn [closed aborted committed working log]. auto.
Qed.

(** X11: the batch size does not matter for what is stored.  With storable
    records the table becomes the old rows followed, in the records' order, by
    each record that collides with no row before it, for every positive batch
    size. *)
Theorem insert_stores_the_same_for_any_batch_size (table_name : string)
    (columns : list string) (transactions : list row) (batch_size : Z)
    (stored : list row) (c : connection) :
  transactions <> [] ->
  (0 < batch_size)%Z ->
  closed c = false ->
  aborted c = false ->
  working c !! table_name = Some stored ->
  Forall (storable schema table_name columns) transactions ->
  committed
    (snd (insert_transactions schema table_name transactions batch_size c))
  = <[table_name := fst (absorb schema table_name stored 0%Z transactions)]>
      (working c).
Proof.
  intros Hne Hpos Hopen Hclean Htable Hstorable.
  destruct (insert_storable_state table_name columns transactions batch_size
              stored c Hne Hpos Hopen Hclean Htable Hstorable)
    as (total & c' & Hrun & _ & _ & Hsync & Hwork).
  rewrite Hrun. cbn [snd]. now rewrite Hsync.
Qed.

Lemma count_in_order (table_name : string) (rows : list row) (c : connection) :
  closed c = false ->
  aborted c = false ->
  working c !! table_name = Some rows ->
  get_transaction_count table_name c
  = (Ok (Z.of_nat (length rows)),
     log CallCursorClose (log (CallSelectCount table_name) (log CallCursor c))).
Proof.
  intros Hopen Hclean Htable.
  unfold get_transaction_count, try_except, bind.
  rewrite (cursor_open c Hopen). unfold select_count. cbv zeta.
  rewrite !closed_log, !aborted_log, !working_log, Hopen, Hclean, Htable.
  reflexivity.
Qed.

(** X12: insert, then count: after storable records were inserted,
    [get_transaction_count] returns the number of rows the table held plus
    the number of records that collided with no row before them. *)
Theorem count_after_insert (table_name : string) (columns : list string)
    (transactions : list row) (batch_size : Z) (stored : list row)
    (c : connection) :
  transactions <> [] ->
  (0 < batch_size)%Z ->
  closed c = false ->
  aborted c = false ->
  working c !! table_name = Some stored ->
  Forall (storable schema table_name columns) transactions ->
  fst (get_transaction_count table_name
         (snd (insert_transactions schema table_name transactions batch_size
                 c)))
  = Ok (Z.of_nat
          (length (fst (absorb schema table_name stored 0%Z transactions)))).
Proof.
  intros Hne Hpos Hopen Hclean Htable Hstorable.
  destruct (insert_storable_state table_name columns transactions batch_size
              stored c Hne Hpos Hopen Hclean Htable Hstorable)
    as (total & c' & Hrun & Hopen' & Hclean' & _ & Hwork).
  rewrite Hrun. cbn [snd].
  rewrite (count_in_order table_name
             (fst (absorb schema table_name stored 0%Z transactions)) c'
             Hopen' Hclean'); [reflexivity|].
  rewrite Hwork. apply lookup_insert_eq.
Qed.

End StoredTables.

(** ** Reads, and the edges of the store *)

Section Reads.

Import Db Notions.

Variable schema : string -> table_schema.
Variable order_le : value -> value -> bool.

Lemma count_result (table_name : string) (c : connection) :
  get_transaction_count table_name c
  = if closed c then (Ok 0%Z, c)
    else if aborted c
    then (Ok 0%Z, log (CallSelectCount table_name) (log CallCursor c))
    else match working c !! table_name with
         | Some rows =>
             (Ok (Z.of_nat (length rows)),
              log CallCursorClose
                (log (CallSelectCount table_name) (log CallCursor c)))
         | None =>
             (Ok 0%Z,
              set_aborted (log (CallSelectCount table_name) (log CallCursor c)))
         end.
Proof.
  unfold get_transaction_count, try_except, bind, cursor.
  destruct (closed c) eqn:Hopen; [reflexivity|].
  unfold select_count. cbv zeta.
  rewrite !closed_log, !aborted_log, !working_log, Hopen.
  destruct (aborted c); [reflexivity|]. cbn [orb].
  destruct (working c !! table_name); reflexivity.
Qed.

Lemma latest_result (table_name date_column : string) (c : connection) :
  get_latest_transaction_date schema order_le table_name date_column c
  = if closed c then (Ok VNone, c)
    else if aborted c
    then (Ok VNone,
          log (CallSelectLatest table_name date_column) (log CallCursor c))
    else match working c !! table_name with
         | Some rows =>
             if has_column (schema table_name) date_column
             then (Ok (match head (sort_desc order_le
                                     (map (fun r => dict_get r date_column VNone)
                                        rows)) with
                       | Some latest => latest
                       | None => VNone
                       end),
                   log CallCursorClose
                     (log (CallSelectLatest table_name date_column)
                        (log CallCursor c)))
             else (Ok VNone,
                   set_aborted
                     (log (CallSelectLatest table_name date_column)
                        (log CallCursor c)))
         | None =>
             (Ok VNone,
              set_aborted
                (log (CallSelectLatest table_name date_column)
                   (log CallCursor c)))
         end.
Proof.
  unfold get_latest_transaction_date, try_except, bind, cursor.
  destruct (closed c) eqn:Hopen; [reflexivity|].
  unfold select_latest. cbv zeta.
  rewrite !closed_log, !aborted_log, !working_log, Hopen.
  destruct (aborted c); [reflexivity|]. cbn [orb].
  destruct (working c !! table_name) as [rows|]; [|reflexivity].
  destruct (has_column (schema table_name) date_column); cbn [negb];
    [|reflexivity].
  now destruct (head (sort_desc order_le
                        (map (fun r => dict_get r date_column VNone) rows))).
Qed.

(** X13: the two read helpers never raise and never change a table: on any
    connection each returns a value, and the durable tables and the
    transaction's view are as before. *)
Theorem reads_never_raise_nor_change (table_name date_column : string)
    (c : connection) :
  (exists count c',
     get_transaction_count table_name c = (Ok count, c') /\
     (0 <= count)%Z /\
     committed c' = committed c /\ working c' = working c /\
     closed c' = closed c) /\
  (exists latest c',
     get_latest_transaction_date schema order_le table_name date_column c
     = (Ok latest, c') /\
     committed c' = committed c /\ working c' = working c /\
     closed c' = closed c).
Proof.
  rewrite count_result, latest_result. split.
  - destruct (closed c) eqn:Hopen;
      [eexists _, _; split; [reflexivity|]; repeat split; auto; lia|].
    destruct (aborted c);
      [eexists _, _; split; [reflexivity|]; repeat split; auto; lia|].
    destruct (working c !! table_name);
      eexists _, _; (split; [reflexivity|]); repeat split; auto; lia.
  - destruct (closed c) eqn:Hopen;
      [eexists _, _; split; [reflexivity|]; repeat split; auto|].
    destruct (aborted c);
      [eexists _, _; split; [reflexivity|]; repeat split; auto|].
    destruct (working c !! table_name);
      [destruct (has_column (schema table_name) date_column)|];
      eexists _, _; (split; [reflexivity|]); repeat split; auto.
Qed.

(** X14: the defaults of the read helpers: on a closed connection, in an
    aborted transaction or for a table that does not exist the count is 0 and
    the latest date is [None]; so is the latest date for a column the table
    does not have.  Otherwise the count is the number of rows. *)
Theorem read_defaults (table_name date_column : string) (c : connection) :
  (closed c = true \/ aborted c = true \/ working c !! table_name = None ->
   fst (get_transaction_count table_name c) = Ok 0%Z /\
   fst (get_latest_transaction_date schema order_le table_name date_column c)
   = Ok VNone) /\
  (has_column (schema table_name) date_column = false ->
   fst (get_latest_transaction_date schema order_le table_name date_column c)
   = Ok VNone) /\
  (forall rows,
     closed c = false -> aborted c = false ->
     working c !! table_name = Some rows ->
     fst (get_transaction_count table_name c) = Ok (Z.of_nat (length rows))).
Proof.
  rewrite count_result, latest_result. split; [|split].
  - intros [H | [H | H]].
    + now rewrite H.
    + rewrite H. now destruct (closed c).
    + rewrite H. destruct (closed c), (aborted c); auto.
  - intros H. rewrite H.
    destruct (closed c), (aborted c), (working c !! table_name); auto.
  - intros rows Hopen Hclean Hrows. now rewrite Hopen, Hclean, Hrows.
Qed.

(** X15: a failed read is not rolled back, so it spoils the reads after it:
    once a read helper has queried a table that does not exist, every later
    count is 0 and every later latest date is [None], also for tables that
    exist and hold rows. *)
Theorem failed_read_spoils_later_reads (missing table_name date_column : string)
    (c : connection) :
  closed c = false ->
  aborted c = false ->
  working c !! missing = None ->
  let c1 := snd (get_transaction_count missing c) in
  aborted c1 = true /\
  working c1 = working c /\
  fst (get_transaction_count table_name c1) = Ok 0%Z /\
  fst (get_latest_transaction_date schema order_le table_name date_column c1)
  = Ok VNone.
Proof.
  intros Hopen Hclean Hmissing c1. subst c1.
  rewrite (count_result missing c), Hopen, Hclean, Hmissing. cbn [snd].
  split; [reflexivity|]. split; [reflexivity|].
  rewrite count_result, latest_result.
  cbn [closed aborted set_aborted log]. now rewrite Hopen.
Qed.

(** X16: a batch size that is not positive stores nothing: with 0 the call
    raises [ZeroDivisionError] before it touches the connection; with a
    negative size it opens and closes a cursor, sends no batch and returns
    0. *)
Theorem insert_with_nonpositive_batch_size (table_name : string)
    (transactions : list row) (batch_size : Z) (c : connection) :
  transactions <> [] ->
  (batch_size <= 0)%Z ->
  closed c = false ->
  let run := insert_transactions schema table_name transactions batch_size c in
  committed (snd run) = committed c /\
  working (snd run) = working c /\
  (batch_size = 0%Z -> run = (Raise ZeroDivisionError, c)) /\
  ((batch_size < 0)%Z ->
   fst run = Ok 0%Z /\
   calls (snd run) = calls c ++ [CallCursor; CallCursorClose]).
Proof.
  intros Hne Hle Hopen run.
  assert (Hrun : run = if (batch_size =? 0)%Z
                       then (Raise ZeroDivisionError, c)
                       else (Ok 0%Z, log CallCursorClose (log CallCursor c))).
  { subst run. unfold insert_transactions.
    destruct transactions as [|r rest]; [congruence|].
    destruct (Z.eqb_spec batch_size 0) as [-> | Hnz]; [reflexivity|].
    unfold bind at 1. rewrite (cursor_open c Hopen).
    unfold range_step. destruct (Z.leb_spec batch_size 0) as [_ | Hgt]; [|lia].
    reflexivity. }
  rewrite Hrun. destruct (Z.eqb_spec batch_size 0) as [Hz | Hnz].
  - repeat split; try reflexivity; lia.
  - cbn [snd fst committed working calls log].
    repeat split; try reflexivity; try lia.
    now rewrite <- app_assoc.
Qed.

(** X17: after [close], an insert of records raises the connection's error
    to the caller, since the cursor is opened outside the [try]; the read
    helpers return their defaults; what was not committed is gone. *)
Theorem after_close (table_name date_column : string)
    (transactions : list row) (batch_size : Z) (c : connection) :
  transactions <> [] ->
  batch_size <> 0%Z ->
  let c' := snd (close c) in
  closed c' = true /\
  working c' = committed c /\
  committed c' = committed c /\
  insert_transactions schema table_name transactions batch_size c'
  = (Raise DbError, c') /\
  fst (get_transaction_count table_name c') = Ok 0%Z /\
  fst (get_latest_transaction_date schema order_le table_name date_column c')
  = Ok VNone.
Proof.
  intros Hne Hnz c'. subst c'. unfold close. cbn [snd].
  split; [reflexivity|]. split; [reflexivity|]. split; [reflexivity|].
  split; [|split].
  - unfold insert_transactions. destruct transactions; [congruence|].
    destruct (Z.eqb_spec batch_size 0); [congruence|]. reflexivity.
  - now rewrite count_result.
  - now rewrite latest_result.
Qed.

(** X18: the slices the insert loop takes, [transactions[i:i + batch_size]]
    for [i] in [range(0, len(transactions), batch_size)], cover the list:
    joined in order they are the list, and each holds between one and
    [batch_size] records. *)
Theorem loop_slices_cover {A} (transactions : list A) (batch_size : Z) :
  (0 < batch_size)%Z ->
  let slice := fun i => take (Z.to_nat batch_size) (drop i transactions) in
  concat (map slice (range_step (length transactions) batch_size))
  = transactions /\
  Forall (fun i => (0 < Z.of_nat (length (slice i)) <= batch_size)%Z)
    (range_step (length transactions) batch_size).
Proof.
  intros Hpos slice. subst slice.
  destruct (chunks_of_concat (Z.to_nat batch_size) transactions)
    as [Hcat Hsizes]; [lia|].
  rewrite <- (range_step_chunks transactions batch_size Hpos) in Hcat, Hsizes.
  split; [exact Hcat|].
  apply Forall_map in Hsizes.
  eapply Forall_impl; [exact Hsizes|]. intros i Hi. cbv beta in *. lia.
Qed.

End Reads.

(** ** The run as a whole *)

Section RunProperties.

Import Scraper Db Main Notions.

Variable upper : string -> string.
Variable send : nat -> string -> Z -> http_outcome.
Variable now : nat -> string.
Variable schema : string -> table_schema.
Variable order_le : value -> value -> bool.

(** X19: the configuration is valid exactly when both settings are present
    and not empty. *)
Theorem validate_ok_iff (cfg : Config) :
  validate cfg = Ok tt <->
  exists url key,
    DATABASE_URL cfg = Some url /\ url <> "" /\
    URA_ACCESS_KEY cfg = Some key /\ key <> "".
Proof.
  destruct cfg as [[url|] [key|]]; unfold validate; cbn.
  - destruct (String.eqb_spec url ""), (String.eqb_spec key ""); cbn;
      (split; [try discriminate; intros _; exists url, key; now repeat split
              | intros (u & k & Hu & Hnu & Hk & Hnk);
                injection Hu as <-; injection Hk as <-;
                try reflexivity; congruence]).
  - destruct (String.eqb_spec url ""); cbn;
      (split; [discriminate | intros (u & k & _ & _ & Hk & _); discriminate]).
  - destruct (String.eqb_spec key ""); cbn;
      (split; [discriminate | intros (u & k & Hu & _); discriminate]).
  - split; [discriminate | intros (u & k & Hu & _); discriminate].
Qed.

Lemma validate_cases (cfg : Config) :
  validate cfg = Ok tt \/ validate cfg = Raise ValueError.
Proof.
  unfold validate.
  destruct (map fst
              (filter (fun p => unset (snd p))
                 [("DATABASE_URL", DATABASE_URL cfg);
                  ("URA_ACCESS_KEY", URA_ACCESS_KEY cfg)])); auto.
Qed.

(** The steps of [main] between the connection and its closing. *)
Lemma main_cases (server : option store) (cfg : Config) (args : Args)
    (w : world) :
  main upper send now schema order_le server cfg args w
  = match validate cfg with
    | Raise _ => (Ok 1%Z, w)
    | Ok _ =>
        match server with
        | None => (Ok 1%Z, w)
        | Some s =>
            match (if stats_only args
                   then show_statistics schema order_le
                   else (_ <- scrape_and_store_ura_data upper send now schema
                              (include_rentals args) ;;
                         show_statistics schema order_le))
                    (World (net_of w) (Some (connect s))) with
            | (Ok _, w2) =>
                match db_client w2 with
                | Some c => (Ok 0%Z, World (net_of w2) (Some (snd (close c))))
                | None => (Ok 1%Z, w2)
                end
            | (Raise _, w2) => (Ok 1%Z, w2)
            end
        end
    end.
Proof.
  unfold main, try_except, bind at 1, lift_res.
  destruct (validate_cases cfg) as [-> | ->]; [|reflexivity].
  unfold bind at 1, DatabaseClient.
  destruct server as [s|]; [|reflexivity].
  unfold bind at 1.
  match goal with
  | |- context [match ?step ?w1 with _ => _ end] =>
      destruct (step w1) as [[[]|e] w2]
  end; [|unfold is_Exception; destruct (is_ValueError e); reflexivity].
  unfold bind at 1, on_db, close, ret.
  destruct (db_client w2); reflexivity.
Qed.

(** X20: once the arguments are parsed, the [try] of [main] lets no exception
    of the configuration check, the database, the fetch, the store or the
    statistics through: the run ends with an exit code, and the code is 0 or
    1. *)
Theorem parsed_run_ends_with_exit_code (server : option store) (cfg : Config)
    (args : Args) (w : world) :
  exists code w',
    main upper send now schema order_le server cfg args w = (Ok code, w') /\
    (code = 0%Z \/ code = 1%Z).
Proof.
  rewrite main_cases.
  destruct (validate cfg); [|eexists _, _; split; [reflexivity | auto]].
  destruct server as [s|]; [|eexists _, _; split; [reflexivity | auto]].
  match goal with
  | |- context [match ?step ?w1 with _ => _ end] =>
      destruct (step w1) as [[[]|e] w2]
  end; [|eexists _, _; split; [reflexivity | auto]].
  destruct (db_client w2); eexists _, _; (split; [reflexivity | auto]).
Qed.

(** X21: a run that ends with exit code 0 had a valid configuration and a
    database it could reach, and has closed its connection. *)
Theorem exit_code_0_means_closed (server : option store) (cfg : Config)
    (args : Args) (w w' : world) :
  main upper send now schema order_le server cfg args w = (Ok 0%Z, w') ->
  validate cfg = Ok tt /\
  server <> None /\
  exists c, db_client w' = Some c /\ closed c = true.
Proof.
  rewrite main_cases.
  destruct (validate cfg) as [[]|e]; [|discriminate].
  destruct server as [s|]; [|discriminate].
  match goal with
  | |- context [match ?step ?w1 with _ => _ end] =>
      destruct (step w1) as [[[]|e] w2]
  end; [|discriminate].
  destruct (db_client w2) as [c|]; [|discriminate].
  intros H. injection H as <-.
  split; [reflexivity|]. split; [discriminate|].
  eexists. split; reflexivity.
Qed.

(** X22: nothing is attempted without configuration or database: when a
    required setting is unset or empty, or the database cannot be reached, the
    run ends with exit code 1 and has sent no request and made no
    connection. *)
Theorem no_work_without_configuration_or_database (server : option store)
    (cfg : Config) (args : Args) (w : world) :
  validate cfg <> Ok tt \/ server = None ->
  main upper send now schema order_le server cfg args w = (Ok 1%Z, w).
Proof.
  intros H. rewrite main_cases.
  destruct (validate cfg) as [[]|e]; [|reflexivity].
  destruct H as [H | ->]; [congruence | reflexivity].
Qed.

Lemma on_db_ok {A} (m : M connection A) (w : world) (c c' : connection)
    (a : A) :
  db_client w = Some c ->
  m c = (Ok a, c') ->
  on_db m w = (Ok a, World (net_of w) (Some c')).
Proof. intros Hc Hm. unfold on_db. now rewrite Hc, Hm. Qed.

Lemma count_steady (table_name : string) (c : connection) :
  exists count c',
    get_transaction_count table_name c = (Ok count, c') /\
    committed c' = committed c /\ working c' = working c /\
    closed c' = closed c.
Proof.
  rewrite count_result.
  destruct (closed c) eqn:Hopen;
    [eexists _, _; split; [reflexivity|]; repeat split; auto|].
  destruct (aborted c);
    [eexists _, _; split; [reflexivity|]; repeat split; auto|].
  destruct (working c !! table_name);
    eexists _, _; (split; [reflexivity|]); repeat split; auto.
Qed.

Lemma latest_steady (table_name date_column : string) (c : connection) :
  exists latest c',
    get_latest_transaction_date schema order_le table_name date_column c
    = (Ok latest, c') /\
    committed c' = committed c /\ working c' = working c /\
    closed c' = closed c.
Proof.
  rewrite latest_result.
  destruct (closed c) eqn:Hopen;
    [eexists _, _; split; [reflexivity|]; repeat split; auto|].
  destruct (aborted c);
    [eexists _, _; split; [reflexivity|]; repeat split; auto|].
  destruct (working c !! table_name);
    [destruct (has_column (schema table_name) date_column)|];
    eexists _, _; (split; [reflexivity|]); repeat split; auto.
Qed.

(** [show_statistics] on a run that has its connection: it raises nothing,
    sends nothing and leaves the tables as they are. *)
Lemma show_statistics_steady (w : world) (c : connection) :
  db_client w = Some c ->
  exists c',
    show_statistics schema order_le w = (Ok tt, World (net_of w) (Some c')) /\
    committed c' = committed c /\ working c' = working c /\
    closed c' = closed c.
Proof.
  intros Hc.
  destruct (count_steady CONDO_TABLE c) as (n1 & c1 & H1 & Hcm1 & Hwk1 & Hcl1).
  destruct (latest_steady CONDO_TABLE "contract_date" c1)
    as (d1 & c2 & H2 & Hcm2 & Hwk2 & Hcl2).
  destruct (count_steady LANDED_TABLE c2) as (n2 & c3 & H3 & Hcm3 & Hwk3 & Hcl3).
  destruct (latest_steady LANDED_TABLE "contract_date" c3)
    as (d2 & c4 & H4 & Hcm4 & Hwk4 & Hcl4).
  exists c4. split; [|repeat split; congruence].
  unfold show_statistics, try_except.
  unfold bind at 1. rewrite (on_db_ok _ w c c1 n1 Hc H1).
  unfold bind at 1.
  rewrite (on_db_ok _ (World (net_of w) (Some c1)) c1 c2 d1 eq_refl H2).
  cbn [net_of]. unfold bind at 1.
  rewrite (on_db_ok _ (World (net_of w) (Some c2)) c2 c3 n2 eq_refl H3).
  cbn [net_of]. unfold bind at 1.
  rewrite (on_db_ok _ (World (net_of w) (Some c3)) c3 c4 d2 eq_refl H4).
  reflexivity.
Qed.

(** X23: with [--stats-only] nothing is fetched and nothing is stored: the
    run sends no request, leaves every table as the database had it, closes
    its connection and ends with exit code 0. *)
Theorem stats_only_run (s : store) (cfg : Config) (args : Args) (w : world) :
  stats_only args = true ->
  validate cfg = Ok tt ->
  exists c,
    main upper send now schema order_le (Some s) cfg args w
    = (Ok 0%Z, World (net_of w) (Some c)) /\
    committed c = s /\
    closed c = true.
Proof.
  intros Hstats Hcfg. rewrite main_cases, Hcfg, Hstats.
  destruct (show_statistics_steady (World (net_of w) (Some (connect s)))
              (connect s) eq_refl) as (c' & Hrun & Hcm & _ & _).
  rewrite Hrun. cbn [db_client net_of].
  eexists. split; [reflexivity|]. split; [|reflexivity].
  unfold close. cbn [snd committed]. exact Hcm.
Qed.

Lemma fetch_rentals_steady (w : world) :
  exists rentals n,
    fetch_rentals send now w = (Ok rentals, World n (db_client w)).
Proof.
  unfold fetch_rentals.
  assert (Hgen : forall batches acc w,
            exists rentals n,
              for_each batches
                (fun batch acc =>
                   rentals <- on_net (get_rental_transactions send now batch) ;;
                   ret (acc ++ rentals))
                acc w
              = (Ok rentals, World n (db_client w))).
  { clear w. induction batches as [|b batches IH]; intros acc w.
    - exists acc, (net_of w). simpl. unfold ret. now destruct w.
    - destruct (rental_fetch_total send now b (net_of w))
        as (recs & n1 & Hrun & _).
      destruct (IH (acc ++ recs) (World n1 (db_client w)))
        as (rentals & n & Hloop).
      exists rentals, n. simpl. unfold bind at 1. unfold bind at 1.
      unfold on_net at 1. rewrite Hrun. unfold ret at 1. exact Hloop. }
  apply Hgen.
Qed.

Lemma scrape_cases (with_rentals : bool) (w : world) :
  scrape_and_store_ura_data upper send now schema with_rentals w
  = match on_net (get_all_available_transactions upper send now) w with
    | (Raise e, w1) => (Raise e, w1)
    | (Ok data, w1) =>
        match store_if_any schema CONDO_TABLE (condo data) w1 with
        | (Raise e, w2) => (Raise e, w2)
        | (Ok _, w2) =>
            match store_if_any schema LANDED_TABLE (landed data) w2 with
            | (Raise e, w3) => (Raise e, w3)
            | (Ok _, w3) =>
                if with_rentals
                then match fetch_rentals send now w3 with
                     | (Ok _, w4) => (Ok tt, w4)
                     | (Raise e, w4) => (Raise e, w4)
                     end
                else (Ok tt, w3)
            end
        end
    end.
Proof.
  unfold scrape_and_store_ura_data, try_except, bind, raise, ret, is_Exception.
  destruct (on_net (get_all_available_transactions upper send now) w)
    as [[data|e] w1]; [|reflexivity].
  destruct (store_if_any schema CONDO_TABLE (condo data) w1)
    as [[[]|e] w2]; [|reflexivity].
  destruct (store_if_any schema LANDED_TABLE (landed data) w2)
    as [[[]|e] w3]; [|reflexivity].
  destruct with_rentals; [|reflexivity].
  destruct (fetch_rentals send now w3) as [[r|e] w4]; reflexivity.
Qed.

(** X24: rental data is fetched but never stored: with and without
    [include_rentals] the fetch-and-store step ends the same way and leaves
    the same connection, tables and call log. *)
Theorem rentals_are_not_stored (w : world) :
  let with_rentals :=
    scrape_and_store_ura_data upper send now schema true w in
  let without :=
    scrape_and_store_ura_data upper send now schema false w in
  fst with_rentals = fst without /\
  db_client (snd with_rentals) = db_client (snd without).
Proof.
  cbv zeta. rewrite !scrape_cases.
  destruct (on_net (get_all_available_transactions upper send now) w)
    as [[data|e] w1]; [|split; reflexivity].
  destruct (store_if_any schema CONDO_TABLE (condo data) w1)
    as [[[]|e] w2]; [|split; reflexivity].
  destruct (store_if_any schema LANDED_TABLE (landed data) w2)
    as [[[]|e] w3]; [|split; reflexivity].
  destruct (fetch_rentals_steady w3) as (rentals & n & Hrentals).
  rewrite Hrentals. split; reflexivity.
Qed.

(** X25: when the fetch of all batches raises, which it does for a record
    whose [property_type] is no string, nothing is stored and nothing is
    closed: the run ends with exit code 1, and its connection is as [connect]
    made it, open and without a single call. *)
Theorem failed_fetch_stores_nothing (s : store) (cfg : Config) (args : Args)
    (w : world) (e : exn) (n : net) :
  validate cfg = Ok tt ->
  stats_only args = false ->
  get_all_available_transactions upper send now (net_of w) = (Raise e, n) ->
  main upper send now schema order_le (Some s) cfg args w
  = (Ok 1%Z, World n (Some (connect s))).
Proof.
  intros Hcfg Hstats Hfetch. rewrite main_cases, Hcfg, Hstats.
  unfold bind at 1. rewrite scrape_cases. unfold on_net. cbn [net_of].
  now rewrite Hfetch.
Qed.

Lemma fetch_all_failing (w : net) :
  (forall k b, send k "PMI_Resi_Transaction" b = HttpFailure) ->
  exists n,
    get_all_available_transactions upper send now w
    = (Ok (Classified [] []), n).
Proof.
  intros Hfail.
  unfold get_all_available_transactions, fetch_batches, bind at 1.
  cbn [for_each].
  unfold bind at 1. unfold bind at 1.
  rewrite (proj2 (exhausted_retries send now 1 w (fun k _ => Hfail _ _))).
  unfold ret at 1. unfold bind at 1. unfold bind at 1.
  rewrite (proj2 (exhausted_retries send now 2 _ (fun k _ => Hfail _ _))).
  unfold ret at 1. unfold bind at 1. unfold bind at 1.
  rewrite (proj2 (exhausted_retries send now 3 _ (fun k _ => Hfail _ _))).
  unfold ret at 1. unfold bind at 1. unfold bind at 1.
  rewrite (proj2 (exhausted_retries send now 4 _ (fun k _ => Hfail _ _))).
  eexists. reflexivity.
Qed.

Lemma count_reads (table_name : string) (c : connection) :
  exists count c' extra,
    get_transaction_count table_name c = (Ok count, c') /\
    committed c' = committed c /\ closed c' = closed c /\
    calls c' = calls c ++ extra /\ forallb no_batch extra = true.
Proof.
  rewrite count_result.
  destruct (closed c) eqn:Hopen.
  { exists 0%Z, c, []. rewrite app_nil_r. auto. }
  destruct (aborted c).
  { eexists _, _, [_; _]. split; [reflexivity|].
    cbn [committed closed calls log]. rewrite <- app_assoc. auto. }
  destruct (working c !! table_name).
  - eexists _, _, [_; _; _]. split; [reflexivity|].
    cbn [committed closed calls log]. rewrite <- !app_assoc. auto.
  - eexists _, _, [_; _]. split; [reflexivity|].
    cbn [committed closed calls log set_aborted]. rewrite <- app_assoc. auto.
Qed.

Lemma latest_reads (table_name date_column : string) (c : connection) :
  exists latest c' extra,
    get_latest_transaction_date schema order_le table_name date_column c
    = (Ok latest, c') /\
    committed c' = committed c /\ closed c' = closed c /\
    calls c' = calls c ++ extra /\ forallb no_batch extra = true.
Proof.
  rewrite latest_result.
  destruct (closed c) eqn:Hopen.
  { exists VNone, c, []. rewrite app_nil_r. auto. }
  destruct (aborted c).
  { eexists _, _, [_; _]. split; [reflexivity|].
    cbn [committed closed calls log]. rewrite <- app_assoc. auto. }
  destruct (working c !! table_name);
    [destruct (has_column (schema table_name) date_column)|].
  - eexists _, _, [_; _; _]. split; [reflexivity|].
    cbn [committed closed calls log]. rewrite <- !app_assoc. auto.
  - eexists _, _, [_; _]. split; [reflexivity|].
    cbn [committed closed calls log set_aborted]. rewrite <- app_assoc. auto.
  - eexists _, _, [_; _]. split; [reflexivity|].
    cbn [committed closed calls log set_aborted]. rewrite <- app_assoc. auto.
Qed.

Lemma show_statistics_reads (w : world) (c : connection) :
  db_client w = Some c ->
  exists c' extra,
    show_statistics schema order_le w = (Ok tt, World (net_of w) (Some c')) /\
    committed c' = committed c /\ closed c' = closed c /\
    calls c' = calls c ++ extra /\ forallb no_batch extra = true.
Proof.
  intros Hc.
  destruct (count_reads CONDO_TABLE c)
    as (n1 & c1 & x1 & H1 & Hcm1 & Hcl1 & Hcs1 & Hx1).
  destruct (latest_reads CONDO_TABLE "contract_date" c1)
    as (d1 & c2 & x2 & H2 & Hcm2 & Hcl2 & Hcs2 & Hx2).
  destruct (count_reads LANDED_TABLE c2)
    as (n2 & c3 & x3 & H3 & Hcm3 & Hcl3 & Hcs3 & Hx3).
  destruct (latest_reads LANDED_TABLE "contract_date" c3)
    as (d2 & c4 & x4 & H4 & Hcm4 & Hcl4 & Hcs4 & Hx4).
  exists c4, (x1 ++ x2 ++ x3 ++ x4).
  split; [|split; [congruence | split; [congruence | split]]].
  - unfold show_statistics, try_except.
    unfold bind at 1. rewrite (on_db_ok _ w c c1 n1 Hc H1).
    unfold bind at 1.
    rewrite (on_db_ok _ (World (net_of w) (Some c1)) c1 c2 d1 eq_refl H2).
    cbn [net_of]. unfold bind at 1.
    rewrite (on_db_ok _ (World (net_of w) (Some c2)) c2 c3 n2 eq_refl H3).
    cbn [net_of]. unfold bind at 1.
    rewrite (on_db_ok _ (World (net_of w) (Some c3)) c3 c4 d2 eq_refl H4).
    reflexivity.
  - rewrite Hcs4, Hcs3, Hcs2, Hcs1. now rewrite <- !app_assoc.
  - rewrite !forallb_app, Hx1, Hx2, Hx3, Hx4. reflexivity.
Qed.

(** X26: an outage of the API is not an error of the run: when every
    transaction request fails, no batch of inserts is sent, every table stays
    as the database had it, the connection is closed and the exit code is
    0. *)
Theorem api_outage_exits_0 (s : store) (cfg : Config) (args : Args)
    (w : world) :
  (forall k b, send k "PMI_Resi_Transaction" b = HttpFailure) ->
  validate cfg = Ok tt ->
  stats_only args = false ->
  exists n c,
    main upper send now schema order_le (Some s) cfg args w
    = (Ok 0%Z, World n (Some c)) /\
    committed c = s /\
    closed c = true /\
    forallb no_batch (calls c) = true.
Proof.
  intros Hfail Hcfg Hstats. rewrite main_cases, Hcfg, Hstats.
  destruct (fetch_all_failing (net_of w) Hfail) as (n1 & Hfetch).
  unfold bind at 1. rewrite scrape_cases. unfold on_net at 1. cbn [net_of].
  rewrite Hfetch. cbn [condo landed store_if_any]. unfold ret at 1 2.
  cbn [db_client net_of].
  assert (Hend : forall n0,
            exists c,
              match show_statistics schema order_le
                      (World n0 (Some (connect s))) with
              | (Ok _, w2) =>
                  match db_client w2 with
                  | Some c0 =>
                      (Ok 0%Z, World (net_of w2) (Some (snd (close c0))))
                  | None => (Ok 1%Z, w2)
                  end
              | (Raise _, w2) => (Ok 1%Z, w2)
              end = (Ok 0%Z, World n0 (Some c)) /\
              committed c = s /\ closed c = true /\
              forallb no_batch (calls c) = true).
  { intros n0.
    destruct (show_statistics_reads (World n0 (Some (connect s)))
                (connect s) eq_refl)
      as (c' & extra & Hrun & Hcm & _ & Hcalls & Hextra).
    rewrite Hrun. cbn [db_client net_of]. eexists.
    split; [reflexivity|]. unfold close. cbn [snd committed closed calls].
    split; [exact Hcm|]. split; [reflexivity|].
    rewrite Hcalls. cbn [calls connect app].
    now rewrite forallb_app, Hextra. }
  destruct (include_rentals args).
  - destruct (fetch_rentals_steady (World n1 (Some (connect s))))
      as (rentals & n2 & Hrentals).
    rewrite Hrentals. cbn [db_client].
    destruct (Hend n2) as (c & Hrun & Hrest). exists n2, c. auto.
  - destruct (Hend n1) as (c & Hrun & Hrest). exists n1, c. auto.
Qed.

End RunProperties.

(** ** Instances *)

Lemma make_request_first_success_witness :
  Scraper._make_request Samples.send_flaky "PMI_Resi_Transaction" 1
    Samples.net0
  = (Ok (VDict Samples.skyline_body),
     Notions.sent 2 "PMI_Resi_Transaction" 1 Samples.net0).
Proof.
  apply (make_request_first_success Samples.send_flaky "PMI_Resi_Transaction"
           1 Samples.net0 1 (VDict Samples.skyline_body)).
  - lia.
  - intros j Hj. destruct j; [reflexivity | lia].
  - reflexivity.
Defined.

Lemma response_without_result_witness :
  Scraper.get_private_residential_transactions Samples.send_empty
    Samples.clock0 1 Samples.net0
  = (Ok [], Scraper.Net [("PMI_Resi_Transaction", 1%Z)] 0).
Proof.
  apply (response_without_result Samples.send_empty Samples.clock0 1
           Samples.net0 (Scraper.Net [("PMI_Resi_Transaction", 1%Z)] 0)
           (VDict [])).
  - reflexivity.
  - left. reflexivity.
Defined.

Lemma malformed_project_discards_batch_witness :
  fst (Scraper.get_private_residential_transactions Samples.send_malformed
         Samples.clock0 1 Samples.net0)
  = Ok [].
Proof.
  apply (malformed_project_discards_batch Samples.send_malformed
           Samples.clock0 1 Samples.net0
           (Scraper.Net [("PMI_Resi_Transaction", 1%Z)] 0)
           Samples.malformed_body [Samples.skyline_project] [] (VStr "oops")).
  - reflexivity.
  - reflexivity.
  - repeat constructor.
    exists (match Samples.skyline_project with VDict p => p | _ => [] end),
           [Samples.skyline_transaction].
    repeat split. repeat constructor. now eexists.
  - intros [kvs H]. discriminate.
Defined.

Lemma insert_leaves_nothing_pending_witness :
  exists total c',
    Db.insert_transactions Samples.strict_schema "condo_transactions"
      Samples.three_records 1 (Db.connect Samples.empty_tables)
    = (Ok total, c') /\
    Db.working c' = Db.committed c' /\
    Db.aborted c' = false /\
    Db.closed c' = false.
Proof.
  apply (insert_leaves_nothing_pending Samples.strict_schema
           "condo_transactions" Samples.three_records 1 17
           (Db.connect Samples.empty_tables)).
  - discriminate.
  - lia.
  - reflexivity.
  - repeat constructor.
Defined.

Lemma insert_keeps_stored_rows_witness :
  Db.committed
    (snd (Db.insert_transactions Samples.strict_schema "condo_transactions"
            Samples.three_records 1 (Db.connect Samples.stocked_tables)))
  !! "landed_transactions" = Some [Samples.parkview_record] /\
  exists extra,
    Db.committed
      (snd (Db.insert_transactions Samples.strict_schema "condo_transactions"
              Samples.three_records 1 (Db.connect Samples.stocked_tables)))
    !! "condo_transactions" = Some ([Samples.skyline_record] ++ extra).
Proof.
  destruct (insert_keeps_stored_rows Samples.strict_schema "condo_transactions"
              Samples.three_records 1 17 (Db.connect Samples.stocked_tables))
    as (Hother & Hkeep & _).
  - discriminate.
  - lia.
  - reflexivity.
  - reflexivity.
  - repeat constructor.
  - split.
    + etrans; [apply Hother; discriminate | reflexivity].
    + apply Hkeep. reflexivity.
Defined.

Lemma insert_keeps_uniqueness_witness :
  Notions.conflict_free Samples.plain_schema "condo_transactions"
    [Samples.skyline_record] /\
  exists stored',
    Db.committed
      (snd (Db.insert_transactions Samples.plain_schema "condo_transactions"
              Samples.two_records 1000 (Db.connect Samples.stocked_tables)))
    !! "condo_transactions" = Some stored' /\
    Notions.conflict_free Samples.plain_schema "condo_transactions" stored'.
Proof.
  assert (Hfree : Notions.conflict_free Samples.plain_schema
                    "condo_transactions" [Samples.skyline_record]).
  { intros before r after H. destruct before as [|b before]; [reflexivity|].
    destruct before; discriminate. }
  split; [exact Hfree|].
  apply (insert_keeps_uniqueness Samples.plain_schema "condo_transactions"
           Samples.two_records 1000 17 (Db.connect Samples.stocked_tables)
           [Samples.skyline_record]).
  - discriminate.
  - lia.
  - reflexivity.
  - reflexivity.
  - repeat constructor.
  - reflexivity.
  - exact Hfree.
Defined.

Lemma insert_stores_the_same_for_any_batch_size_witness :
  Db.committed
    (snd (Db.insert_transactions Samples.plain_schema "condo_transactions"
            Samples.two_records 1 (Db.connect Samples.empty_tables)))
  = Db.committed
      (snd (Db.insert_transactions Samples.plain_schema "condo_transactions"
              Samples.two_records 1000 (Db.connect Samples.empty_tables))).
Proof.
  assert (Hstorable : Forall (Notions.storable Samples.plain_schema
                                "condo_transactions" Scraper.RECORD_KEYS)
                        Samples.two_records)
    by (repeat constructor).
  rewrite (insert_stores_the_same_for_any_batch_size Samples.plain_schema
             "condo_transactions" Scraper.RECORD_KEYS Samples.two_records 1 []
             (Db.connect Samples.empty_tables));
    [|discriminate | lia | reflexivity | reflexivity | reflexivity
     | exact Hstorable].
  rewrite (insert_stores_the_same_for_any_batch_size Samples.plain_schema
             "condo_transactions" Scraper.RECORD_KEYS Samples.two_records 1000
             [] (Db.connect Samples.empty_tables));
    [|discriminate | lia | reflexivity | reflexivity | reflexivity
     | exact Hstorable].
  reflexivity.
Defined.

Lemma count_after_insert_witness :
  fst (Db.get_transaction_count "condo_transactions"
         (snd (Db.insert_transactions Samples.plain_schema "condo_transactions"
                 Samples.two_records 1000 (Db.connect Samples.empty_tables))))
  = Ok 2%Z.
Proof.
  rewrite (count_after_insert Samples.plain_schema "condo_transactions"
             Scraper.RECORD_KEYS Samples.two_records 1000 []
             (Db.connect Samples.empty_tables));
    [reflexivity | discriminate | lia | reflexivity | reflexivity | reflexivity
     | repeat constructor].
Defined.

Lemma failed_read_spoils_later_reads_witness :
  fst (Db.get_transaction_count "condo_transactions"
         (snd (Db.get_transaction_count "rental_transactions"
                 (Db.connect Samples.dated_table))))
  = Ok 0%Z.
Proof.
  exact (proj1 (proj2 (proj2
           (failed_read_spoils_later_reads Samples.plain_schema Samples.text_le
              "rental_transactions" "condo_transactions" "contract_date"
              (Db.connect Samples.dated_table) eq_refl eq_refl eq_refl)))).
Defined.

Lemma insert_with_nonpositive_batch_size_witness :
  fst (Db.insert_transactions Samples.plain_schema "condo_transactions"
         Samples.two_records (-5) (Db.connect Samples.empty_tables))
  = Ok 0%Z.
Proof.
  destruct (insert_with_nonpositive_batch_size Samples.plain_schema
              "condo_transactions" Samples.two_records (-5)
              (Db.connect Samples.empty_tables))
    as (_ & _ & _ & Hneg).
  - discriminate.
  - lia.
  - reflexivity.
  - apply Hneg. lia.
Defined.

Lemma after_close_witness :
  Db.insert_transactions Samples.plain_schema "condo_transactions"
    Samples.two_records 1000 (snd (Db.close (Db.connect Samples.empty_tables)))
  = (Raise DbError, snd (Db.close (Db.connect Samples.empty_tables))).
Proof.
  destruct (after_close Samples.plain_schema Samples.text_le
              "condo_transactions" "contract_date" Samples.two_records 1000
              (Db.connect Samples.empty_tables))
    as (_ & _ & _ & Hinsert & _).
  - discriminate.
  - lia.
  - exact Hinsert.
Defined.

Lemma loop_slices_cover_witness :
  concat (map (fun i => take 2 (drop i Samples.three_records))
            (Db.range_step 3 2))
  = Samples.three_records.
Proof.
  exact (proj1 (loop_slices_cover Samples.three_records 2 eq_refl)).
Defined.

Lemma exit_code_0_means_closed_witness :
  exists c,
    Main.db_client
      (snd (Main.main Samples.ascii_upper Samples.send_skyline Samples.clock0
              Samples.plain_schema Samples.text_le (Some Samples.empty_tables)
              Samples.config_ok Samples.args_default Samples.world0))
    = Some c /\
    Db.closed c = true.
Proof.
  destruct (exit_code_0_means_closed Samples.ascii_upper Samples.send_skyline
              Samples.clock0 Samples.plain_schema Samples.text_le
              (Some Samples.empty_tables) Samples.config_ok
              Samples.args_default Samples.world0
              (snd (Main.main Samples.ascii_upper Samples.send_skyline
                      Samples.clock0 Samples.plain_schema Samples.text_le
                      (Some Samples.empty_tables) Samples.config_ok
                      Samples.args_default Samples.world0)))
    as (_ & _ & Hclosed).
  - vm_compute. reflexivity.
  - exact Hclosed.
Defined.

Lemma no_work_without_configuration_or_database_witness :
  Main.main Samples.ascii_upper Samples.send_skyline Samples.clock0
    Samples.plain_schema Samples.text_le None Samples.config_ok
    Samples.args_default Samples.world0
  = (Ok 1%Z, Samples.world0) /\
  Main.main Samples.ascii_upper Samples.send_skyline Samples.clock0
    Samples.plain_schema Samples.text_le (Some Samples.empty_tables)
    Samples.config_no_key Samples.args_default Samples.world0
  = (Ok 1%Z, Samples.world0).
Proof.
  split.
  - apply no_work_without_configuration_or_database. right. reflexivity.
  - apply no_work_without_configuration_or_database. left. discriminate.
Defined.

Lemma stats_only_run_witness :
  exists c,
    Main.main Samples.ascii_upper Samples.send_skyline Samples.clock0
      Samples.plain_schema Samples.text_le (Some Samples.dated_table)
      Samples.config_ok Samples.args_stats_only Samples.world0
    = (Ok 0%Z, Main.World Samples.net0 (Some c)) /\
    Db.committed c = Samples.dated_table /\
    Db.closed c = true.
Proof.
  apply (stats_only_run Samples.ascii_upper Samples.send_skyline Samples.clock0
           Samples.plain_schema Samples.text_le Samples.dated_table
           Samples.config_ok Samples.args_stats_only Samples.world0).
  - reflexivity.
  - reflexivity.
Defined.

Lemma failed_fetch_stores_nothing_witness :
  Main.main Samples.ascii_upper Samples.send_untyped Samples.clock0
    Samples.plain_schema Samples.text_le (Some Samples.empty_tables)
    Samples.config_ok Samples.args_default Samples.world0
  = (Ok 1%Z,
     Main.World
       (Scraper.Net
          [("PMI_Resi_Transaction", 1%Z); ("PMI_Resi_Transaction", 2%Z);
           ("PMI_Resi_Transaction", 3%Z); ("PMI_Resi_Transaction", 4%Z)] 4)
       (Some (Db.connect Samples.empty_tables))).
Proof.
  apply (failed_fetch_stores_nothing Samples.ascii_upper Samples.send_untyped
           Samples.clock0 Samples.plain_schema Samples.text_le
           Samples.empty_tables Samples.config_ok Samples.args_default
           Samples.world0 AttributeError).
  - reflexivity.
  - reflexivity.
  - reflexivity.
Defined.

Lemma api_outage_exits_0_witness :
  exists n c,
    Main.main Samples.ascii_upper Samples.send_failing Samples.clock0
      Samples.plain_schema Samples.text_le (Some Samples.dated_table)
      Samples.config_ok Samples.args_default Samples.world0
    = (Ok 0%Z, Main.World n (Some c)) /\
    Db.committed c = Samples.dated_table /\
    Db.closed c = true.
Proof.
  destruct (api_outage_exits_0 Samples.ascii_upper Samples.send_failing
              Samples.clock0 Samples.plain_schema Samples.text_le
              Samples.dated_table Samples.config_ok Samples.args_default
              Samples.world0 (fun _ _ => eq_refl) eq_refl eq_refl)
    as (n & c & Hrun & Hcm & Hclosed & _).
  exists n, c. auto.
Defined.
